(* ===== verification/_CoqProject ===== *)
-Q . S2P
Prelude.v
JsNumber.v
JsValue.v
JsEquiv.v
Heap.v
HeapInv.v
HeapFrame.v
JsModule.v
SiteConfig.v
JsDate.v
Schema.v
LoadProper.v
SchemaTypes.v
Contract.v
Conformance.v
SiteConfigHeap.v
ModuleSteps.v
Simulation.v
Lifecycle.v
