(* ===== verification/Prelude.v ===== *)
(** * Verification of the aktoro-lang documentation-site configuration

    The repository fragment is one CommonJS module,
    [src/website/siteConfig.js].  When the documentation generator
    [require]s it, the module body runs three statements in order:

    - [const users = [...]]            (lines 9-16)
    - [const siteConfig = {...}]       (lines 18-54), which reads the binding
      [users] (shorthand property, line 30) and the host clock
      ([new Date().getFullYear()], line 43) and concatenates strings with
      [+] (lines 42-44);
    - [module.exports = siteConfig]    (line 56).

    The generator then reads properties of the exported object.  The
    specification ([spec.md]) describes that reading side as a contract:
    a [load()] operation that either returns a typed [SiteConfiguration]
    or fails with a [ConfigurationError] naming the offending field.  No
    such validation exists in [src/]; it is modelled here from the
    specification and is marked as such everywhere.

    ** Files, in dependency order

    - [Prelude] (this file): the error monad [result] with its notation
      scope [result_scope], the success test [is_Ok] and how it splits
      over binds, indexed traversal [mapM_idx] with its success and
      first-failure characterisations, lemmas on strings
      (length, indexing, concatenation), the hint database [js] and the
      tactics [inv_result] and [case_result].
    - [JsNumber]: the decimal rendering of integer-valued JavaScript
      numbers ([Number_toString], the ToString coercion applied by [+]
      on line 43) by a fuelled digit loop [digits_go], its inverse
      [parse_decimal], and the facts the rest relies on: enough fuel,
      digits only, length bounds, round trip, injectivity.
    - [JsValue]: the JavaScript values the module builds ([value]:
      undefined, booleans, numbers, strings, arrays, objects as ordered
      property lists), a nested induction principle, decidable equality,
      property read [get_prop] and write [set_prop], object-literal
      evaluation [obj_lit], [ToString] and the binary operator [js_add],
      with the laws of reads after writes and after removals.
    - [JsEquiv]: read-equivalence [veq] of values (equal answers to every
      property read, at every depth), its [Equivalence] instance, and the
      lemma that permuting the properties of an object stays in a class.
    - [Heap]: objects with identity.  A heap is a list of arrays and
      objects ([hobj]) and a location an index into it; [alloc_lit]
      evaluates a literal by allocating its arrays and objects,
      [heap_get] and [heap_set] read and write through a reference,
      and [reify] reads a reference back as a tree.
    - [HeapInv]: the invariant [wf_heap] (no reference dangles), with
      its decision procedure, and its preservation by every operation
      of [Heap].
    - [HeapFrame]: locality of the store.  [unreferenced l h] says that
      no object of [h] refers to [l], [grows_fresh] that a heap grew by
      objects referring to new locations only, [reads_as] that a heap
      value reads as a tree with some fuel.
    - [JsModule]: the lexical scope of a module body ([scope], a finite
      map from identifiers to values), [const] declaration
      [declare_const], identifier lookup [lookup_ident] with
      [ReferenceError], property assignment [assign_prop], the host
      ([Host], the clock reading), and the CommonJS [module] object
      ([module_scope], [require_result]).
    - [SiteConfig]: the source file itself.  [users], [headerLinks],
      [colors], [copyright], [highlight], [scripts], [siteConfig] are the
      literals and expressions of the file; [stmt_users],
      [stmt_siteConfig], [stmt_exports] are its three statements as state
      transformers on [scope]; [run_module] composes them in source
      order and [module_exports] is what [require] returns.  [exported]
      and [copyright_text] are the closed forms of what they compute.
    - [JsDate]: the clock.  Time values and their range ([TimeClip]),
      the standard's [DaysInYear], [DayFromYear] and [TimeFromYear],
      [YearFromTime] computed by estimate and correction, and
      [getFullYear] as the year of the local time.
    - [Schema]: the specification's data model (section 3):
      [LinkDescriptor], [UserRecord], [SiteConfiguration],
      [ConfigurationError]; the validating decoder [load] and the encoder
      [encode], the invariant [wf_config], and what it means for an
      error to name a field that is really invalid ([explains]).
    - [LoadProper]: [Proper] instances stating that every decoder of
      [Schema] respects [veq].
    - [SchemaTypes]: the types of the configuration table ([ty]), their
      decision procedure [typecheck] on values, the type [config_ty] of
      the configuration, and [refined], what the table asks beyond the
      types (non-empty strings, one target per link).
    - [Contract]: the interface between a module and the generator as
      the type classes [SiteModule] (evaluate the module on a host) and
      [SiteModuleOk] (the export has type [config_ty] and is
      [refined]); [load_site] is the specification's [load()], and that
      it succeeds, and the generator's reads ([nav_labels],
      [pinned_users]), are proved against the interface.
    - [Conformance]: the instance of the interface for this repository
      ([aktoro_module]), the typed configuration [expected] of the
      specification's scenario, and the theorems relating the two.
    - [SiteConfigHeap]: the source file once more, on a state with a
      scope and a heap ([hstate]): [h_stmt_users], [h_stmt_siteConfig],
      [h_stmt_exports], [h_run_module], with [h_final] the state they
      end in and [read_export] the tree a holder of the export reads.
    - [ModuleSteps]: the body as a transition system.  A configuration
      is a program counter [pc] (at one of the three statements,
      returned, or thrown) and a state; [step] runs the statement a
      program gives for the counter, on any type of states; [stmt_at]
      is the program on [hstate], [reachable] closes its steps from
      [initial], [inv] is the invariant of the body and [remaining]
      the number of statements left to run.
    - [Simulation]: [tstmt_at], the same program on the scopes of
      [SiteConfig]; the relation [sim] between a state of the store and
      a scope of trees; [matches] between configurations.
    - [Lifecycle]: a process that [require]s the module: [process] is
      its clock and the module once loaded, [handle] its reaction to a
      clock tick, a [require] call or a write to the export, [run] its
      reaction to a sequence of events, and [a_handle] the
      specification's two-field account of the same lifetime.

    ** How state and effects are modelled

    JavaScript strings are Rocq [string]s whose characters are UTF-16
    code units.  Every code unit occurring in the file is below 256 (the
    only non-ASCII one is U+00A9, code 169), so one [ascii] per code unit
    is exact and [String.length] is JavaScript's [.length].

    Numbers are integers ([Z]).  The only number the file computes is the
    calendar year returned by [getFullYear()], an integer between
    -271821 and 275760 for every valid [Date]; the model takes that
    reading as the field [fullYear] of the [Host] record, which carries
    the proof [fullYear_valid] that the year is in that range.  [JsDate]
    derives the year from a time value (milliseconds since the epoch,
    an integer) and the offset of the time zone, and proves that every
    valid instant gives such a [Host].  [js_add] answers
    only on operands whose numbers are exact integers within
    2^53 - 1 in absolute value ([representable]).

    Objects are ordered property lists (insertion order is observable in
    JavaScript and drives the rendered navigation order of
    [headerLinks]).  A duplicate key in a literal keeps the position of
    its first definition and the value of its last ([obj_lit]).

    The program is modelled twice.  In [SiteConfig] values are trees:
    the module never mutates an object after building it, so the tree
    it exports is the value every reader sees, and the contract of
    [Schema] is stated on trees.  In [SiteConfigHeap] bindings and
    properties hold references into a heap, which is what JavaScript
    does: the property [users] of line 30 and the binding of line 9 are
    one array, [module.exports] and [siteConfig] are one object.  The
    second model is proved to export the same tree as the first and to
    simulate it statement by statement, and it
    states what the first cannot: who shares what, and what a write
    after [require] has returned does.  Locations are indices into the
    heap; JavaScript observes only their equality, so the order in which
    the parts of a nested literal are allocated is not the engine's.

    Where JavaScript would consult what the model does not represent,
    the operations return the error [Unsupported] instead of a wrong
    answer: reading a name inherited from [Object.prototype]
    ([inherited_keys]), reading properties of primitives and arrays,
    writing [__proto__] or a property of an array, adding numbers that
    are not exact integers.

    Errors are values: a statement returns [result JsError scope] and
    [load] returns [result ConfigurationError SiteConfiguration].  The
    module scope is a [gmap] from identifiers to values; a [const]
    declaration of a name already bound is a [SyntaxError], a read of an
    unbound name a [ReferenceError].  JavaScript reports a duplicate
    declaration before the body runs; the file declares two distinct
    names, so the check never fires and the model makes it where the
    declaration is evaluated.  Of the parameters of the CommonJS
    wrapper only [module] is bound, the one the body refers to.

    ** What the theorems show

    - [SiteConfig]: the module body never throws, whatever the clock
      reads, and exports exactly the closed form [exported y]; running
      the second statement without the binding it reads raises
      [ReferenceError]; the [copyright] string is the prefix, the
      decimal year and the owner's name, the year is recoverable from
      it, its length is between 31 and 37 code units, and the last digit
      of the year is glued to the owner's name, which is recorded as a
      finding; only [copyright] depends on the clock.
    - [JsDate]: [YearFromTime] returns, for every time value, the year
      the standard defines (the latest year that has started), so the
      estimate from the mean length of a year is never off by more than
      the one correction made; for time values in range and offsets of
      less than a day the year is between -271821 and 275760, both
      reached, which is what [Host] assumes.
    - [Conformance]: the specification's [load()] succeeds on the module
      for every year and returns [expected y] (four header links in the
      declared order, one pinned user); the exported object is exactly
      the encoding of that record; any object read-equivalent to it
      loads to the same record; exports with altered links (a link
      with no target, with several targets) are rejected with the error
      that names the defect.
    - [Schema]: whatever [load] accepts satisfies [wf_config] and is a
      fixed point of [encode] then [load]; [encode] then [load] is the
      identity exactly on well-formed records; every error of [load]
      names a path that leads to a value with the reported defect.
    - [Contract]: for every module whose export is typed and refined,
      [load_site] returns a well-formed configuration whose navigation
      labels are non-empty; the promise speaks of the exported value
      only, and that [load] accepts it is part of what is proved.
    - [Heap]: a literal's reference reads back as the literal and
      allocation disturbs no existing object; reads through references
      commute with the tree reading, errors included; a write updates
      one object in place and nothing else.  [alloc_lit_threads] does
      the induction on a literal once, for any property that one
      allocation preserves.
    - [HeapFrame]: a literal refers only to what it allocates; a write
      to an object nothing else refers to is the write of the tree
      model ([write_simulates]), and a read after it the read of the
      updated tree.
    - [SchemaTypes]: the object the module exports has type
      [config_ty] for every year; on a value of that type [load] fails
      only for reasons the types do not express (an empty string, a
      link with no target or several), never on a missing field or a
      field of the wrong kind, and it succeeds exactly when the value
      is [refined]; in any object [load] accepts, each field of
      [nonempty_fields] is a non-empty string, and removing it or
      replacing it by anything else makes [load] fail with an error
      that names the field.
    - [SiteConfigHeap]: the heap model exports the tree the tree model
      exports; [module.exports] and [siteConfig] are the same object
      and its [users] property is the array bound to [users]; nothing
      is frozen, so a write through [users] after the module has run
      changes the configuration [load] returns, against the
      specification's invariant that the object is immutable (recorded
      as a finding).
    - [HeapInv]: evaluating a literal, writing and reading through a
      reference keep a heap free of dangling references.
    - [ModuleSteps]: every reachable configuration satisfies [inv]
      (nothing thrown, exactly the names declared so far are bound, no
      dangling reference, [module] is an object), by induction on
      reachability from per-statement progress and preservation
      lemmas that hold on every state satisfying the invariant; the
      system is deterministic and every run ends, after three steps,
      with the body returned in the state [h_final]; from any state
      the invariant admits, reachable or not, the statements left to
      run complete without throwing and [require] then returns the
      value bound to [siteConfig].
    - [Simulation]: each statement takes states related by [sim] to
      states related by [sim], or throws the same error in both
      models; hence the two transition systems are bisimilar, every
      run of the store is a run of the tree model, and [require]
      yields values that read alike wherever the states are related.
      Unlike [heap_run_refines], which compares two computed final
      states, this holds of any pair of related states.
    - [Lifecycle]: on every sequence of events the process implements
      the specification's machine: the body runs at the first
      [require] only, every [require] returns the same reference, the
      copyright keeps the year of the first call however the clock
      advances, and a write to the pinned flag is seen by every later
      reader.
    - [JsValue], [JsModule]: no property of their own; the laws of
      property lists and of scopes are lemmas the other files use.
    - [JsNumber]: the rendering of an integer is a non-empty run of
      digits with a minus sign exactly for negatives, and it does not
      depend on the fuel.

    ** Bounds and fuel

    [Number_toString] runs its digit loop with fuel
    [digits_fuel n = S (Z.to_nat (Z.log2 n))], one more than the
    position of the highest binary digit of [n]; each step divides by
    ten, which lowers that position by at least three, so the loop ends
    before the fuel does, and [digits_fuel_suffices] proves that any
    larger fuel gives the same string.

    [reify] follows at most [fuel] references in a row, because a heap
    may hold cycles.  [reify_mono] proves that more fuel never changes
    an answer, [reify_alloc_lit] that [depth v] is enough for what the
    literal [v] allocated, and [read_export] uses 3, the depth of the
    configuration (object, array, object).

    [reads_as] hides the fuel behind an existential; [reify_mono]
    makes finitely many readings share one fuel
    ([props_read_as_fuel]), so the simulation never counts.

    Nothing else uses fuel: the module body is straight-line code, run
    in [remaining] steps, at most three, and the decoders recurse on
    the structure of lists.

    ** Not modelled

    The generator itself (rendering, Markdown processing, asset
    bundling, deployment); of [Date], months, days and times of day,
    which the module does not read, and the rules that give a time zone
    its offset (the offset is an input); floating-point numbers that
    are not integers; prototype chains,
    accessors and property attributes, hence [Object.freeze]; garbage
    collection; of [require], anything but the caching of this one
    module (resolution of module names, other modules, cycles); the
    parameters [exports], [require], [__filename] and [__dirname] of
    the CommonJS wrapper, which the body never mentions.  [ToString]
    is total, so it also renders arrays and objects, which the file
    never passes to [+]; the built-in [getFullYear] is modelled from
    the ECMAScript standard, the file only calls it.
    Nothing more of [src/website/siteConfig.js] is left to model: the
    lines the map does not cover are comments and blank lines. *)

From Stdlib Require Export ZArith Lia Ascii.
From stdpp Require Export base tactics option list strings numbers.

Set Warnings "-clear-no-such-hyp".

(** This file: shared notation, automation and generic lemmas. *)

Create HintDb js discriminated.
Create Rewrite HintDb js.

(** ** The error monad *)

Inductive result (E A : Type) : Type :=
| Ok (a : A)
| Err (e : E).
Arguments Ok {E A} a.
Arguments Err {E A} e.

Definition rbind {E A B} (m : result E A) (k : A -> result E B) : result E B :=
  match m with
  | Ok a => k a
  | Err e => Err e
  end.

Definition rmap {E A B} (f : A -> B) (m : result E A) : result E B :=
  match m with
  | Ok a => Ok (f a)
  | Err e => Err e
  end.

Definition is_Ok {E A} (m : result E A) : bool :=
  match m with
  | Ok _ => true
  | Err _ => false
  end.

Definition guard_or {E} (e : E) (b : bool) : result E unit :=
  if b then Ok tt else Err e.

Declare Scope result_scope.
Delimit Scope result_scope with result.
Notation "'let*' x ':=' m 'in' k" := (rbind m (fun x => k))
  (at level 10, x name, m at level 100, k at level 200,
   format "'[v' 'let*'  x  ':='  m  'in' '/' k ']'") : result_scope.
Notation "'check' b 'else' e 'in' k" := (rbind (guard_or e b) (fun _ => k))
  (at level 10, b at level 100, e at level 100, k at level 200,
   format "'[v' 'check'  b  'else'  e  'in' '/' k ']'") : result_scope.
Open Scope result_scope.

(** [mapM_idx f i l] applies [f (i + j)] to the [j]-th element of [l], left
    to right, and stops at the first failure. *)
Fixpoint mapM_idx {E A B} (f : nat -> A -> result E B) (i : nat) (l : list A)
  : result E (list B) :=
  match l with
  | [] => Ok []
  | a :: l' =>
      let* b := f i a in
      let* bs := mapM_idx f (S i) l' in
      Ok (b :: bs)
  end.

#[global] Instance result_eq_dec `{EqDecision E, EqDecision A} :
  EqDecision (result E A).
Proof. solve_decision. Defined.

(** The boolean emptiness test used by validators. *)
Definition nonempty (s : string) : bool :=
  match s with
  | "" => false
  | String _ _ => true
  end.

Section result_lemmas.
Context {E A B : Type}.
Implicit Types (m : result E A) (k : A -> result E B).

Lemma rbind_Ok m k b :
  rbind m k = Ok b <-> exists a, m = Ok a /\ k a = Ok b.
Proof. destruct m; simpl; naive_solver. Qed.

Lemma rbind_Err m k e :
  rbind m k = Err e <-> m = Err e \/ exists a, m = Ok a /\ k a = Err e.
Proof. destruct m; simpl; naive_solver. Qed.

Lemma rmap_Ok (f : A -> B) m b :
  rmap f m = Ok b <-> exists a, m = Ok a /\ b = f a.
Proof. destruct m; simpl; naive_solver. Qed.

Lemma guard_or_Ok (e : E) (b : bool) : guard_or e b = Ok tt <-> b = true.
Proof. destruct b; simpl; naive_solver. Qed.

Lemma guard_or_Err (e e' : E) (b : bool) :
  guard_or e b = Err e' <-> b = false /\ e' = e.
Proof. destruct b; simpl; naive_solver. Qed.

Lemma is_Ok_true m : is_Ok m = true <-> exists a, m = Ok a.
Proof. destruct m; simpl; naive_solver. Qed.

Lemma is_Ok_false m : is_Ok m = false <-> exists e, m = Err e.
Proof. destruct m; simpl; naive_solver. Qed.

(** A bind succeeds when its step does and the rest does, provided the
    success of the rest does not depend on what the step returned. *)
Lemma is_Ok_bind m k b1 b2 :
  is_Ok m = b1 -> (forall a, is_Ok (k a) = b2) -> is_Ok (rbind m k) = b1 && b2.
Proof. intros <- Hk. destruct m; simpl; [apply Hk|done]. Qed.

End result_lemmas.

(** [inv_result] breaks successful binds in the hypotheses into their
    steps; [case_result] does the same for a failing bind. *)
Ltac inv_result :=
  repeat match goal with
  | H : rbind _ _ = Ok _ |- _ =>
      apply rbind_Ok in H; destruct H as (? & ? & H)
  | H : guard_or _ _ = Ok _ |- _ => apply guard_or_Ok in H
  | H : Ok _ = Ok _ |- _ => injection H as H; try subst
  | H : Err _ = Ok _ |- _ => discriminate H
  | H : Ok _ = Err _ |- _ => discriminate H
  end.

Ltac case_result H :=
  apply rbind_Err in H; destruct H as [H | (? & ? & H)].

Section mapM.
Context {E A B : Type} (f : nat -> A -> result E B).

Lemma mapM_idx_Ok l : forall i bs,
  mapM_idx f i l = Ok bs <->
  length bs = length l /\
  forall j a, l !! j = Some a -> exists b, bs !! j = Some b /\ f (i + j) a = Ok b.
Proof.
  induction l as [|a l IH]; intros i bs; simpl.
  - split.
    + intros [= <-]. split; [done|]. intros j a Hj. by rewrite lookup_nil in Hj.
    + intros [Hlen _]. destruct bs; [done | discriminate].
  - rewrite rbind_Ok. split.
    + intros (b & Hb & Hrest). apply rbind_Ok in Hrest as (bs' & Hbs & [= <-]).
      apply IH in Hbs as [Hlen Hall]. split; [simpl; lia|].
      intros [|j] a' Hj; simpl in *.
      * simplify_eq. exists b. by rewrite Nat.add_0_r.
      * destruct (Hall j a' Hj) as (b' & ? & ?). exists b'.
        by replace (i + S j) with (S i + j) by lia.
    + intros [Hlen Hall]. destruct bs as [|b bs']; [discriminate|].
      destruct (Hall 0 a eq_refl) as (b0 & [= <-] & Hb).
      rewrite Nat.add_0_r in Hb. exists b. split; [done|].
      apply rbind_Ok. exists bs'. split; [|done].
      apply IH. split; [simpl in Hlen; lia|].
      intros j a' Hj. destruct (Hall (S j) a' Hj) as (b' & ? & ?). exists b'.
      by replace (S i + j) with (i + S j) by lia.
Qed.

Lemma mapM_idx_Err l : forall i e,
  mapM_idx f i l = Err e <->
  exists j a, l !! j = Some a /\ f (i + j) a = Err e /\
    forall j' a', j' < j -> l !! j' = Some a' -> is_Ok (f (i + j') a') = true.
Proof.
  induction l as [|a l IH]; intros i e; simpl.
  - split; [done|]. intros (j & a & Hj & _). by rewrite lookup_nil in Hj.
  - rewrite rbind_Err. split.
    + intros [Hhd | (b & Hb & Hrest)].
      * exists 0, a. rewrite Nat.add_0_r. split_and!; [done..|]. lia.
      * case_result Hrest; [|done].
        apply IH in Hrest as (j & a' & Hj & He & Hbefore).
        exists (S j), a'. replace (i + S j) with (S i + j) by lia.
        split_and!; [done..|]. intros [|j'] a'' Hlt Hj'; simpl in *.
        -- simplify_eq. by rewrite Nat.add_0_r, Hb.
        -- replace (i + S j') with (S i + j') by lia. apply Hbefore; [lia|done].
    + intros ([|j] & a' & Hj & He & Hbefore); simpl in *.
      * simplify_eq. left. by rewrite Nat.add_0_r in He.
      * right. specialize (Hbefore 0 a ltac:(lia) eq_refl) as Hhd.
        rewrite Nat.add_0_r in Hhd. apply is_Ok_true in Hhd as [b Hb].
        exists b. split; [done|]. apply rbind_Err. left. apply IH.
        exists j, a'. replace (S i + j) with (i + S j) by lia.
        split_and!; [done..|]. intros j' a'' Hlt Hj'.
        replace (S i + j') with (i + S j') by lia. apply Hbefore; [lia|done].
Qed.

(** A traversal succeeds when every element does, for steps whose
    success does not depend on the index. *)
Lemma mapM_idx_is_Ok (ok : A -> bool) l : forall i,
  (forall j a, a ∈ l -> is_Ok (f j a) = ok a) ->
  is_Ok (mapM_idx f i l) = forallb ok l.
Proof.
  induction l as [|a l IH]; intros i Hf; [done|]. simpl.
  apply is_Ok_bind; [apply Hf; left|]. intros b.
  rewrite (is_Ok_bind _ _ (forallb ok l) true); [apply andb_true_r| |done].
  apply IH. intros j x Hx. apply Hf. by right.
Qed.

Lemma mapM_idx_length l i bs : mapM_idx f i l = Ok bs -> length bs = length l.
Proof. intros H. by apply mapM_idx_Ok in H as [? _]. Qed.

(** The traversal stops at the first element that fails. *)
Lemma mapM_idx_first_Err pre x post e : forall i bs,
  mapM_idx f i pre = Ok bs -> f (i + length pre) x = Err e ->
  mapM_idx f i (pre ++ x :: post) = Err e.
Proof.
  induction pre as [|a pre IH]; intros i bs Hpre Hx; simpl in *.
  - by rewrite Nat.add_0_r in Hx; rewrite Hx.
  - inv_result. rewrite H. simpl. erewrite IH; [done..|].
    by replace (S i + length pre) with (i + S (length pre)) by lia.
Qed.

End mapM.

(** ** Strings *)

Section strings.
Implicit Types (s t u : string) (c : ascii).

Lemma string_app_nil_l s : "" +:+ s = s.
Proof. reflexivity. Qed.

Lemma string_app_cons c s t : String c s +:+ t = String c (s +:+ t).
Proof. reflexivity. Qed.

Lemma string_app_nil_r s : s +:+ "" = s.
Proof. induction s as [|c s IH]; [done|]. by rewrite string_app_cons, IH. Qed.

Lemma string_app_assoc s t u : (s +:+ t) +:+ u = s +:+ (t +:+ u).
Proof.
  induction s as [|c s IH]; [done|]. by rewrite !string_app_cons, IH.
Qed.

Lemma string_length_app s t :
  String.length (s +:+ t) = String.length s + String.length t.
Proof.
  induction s as [|c s IH]; [done|]. rewrite string_app_cons. simpl. by rewrite IH.
Qed.

Lemma string_get_app_l s t n :
  n < String.length s -> String.get n (s +:+ t) = String.get n s.
Proof. intros. symmetry. by apply String.append_correct1. Qed.

Lemma string_get_app_r s t n :
  String.get (String.length s + n) (s +:+ t) = String.get n t.
Proof. rewrite Nat.add_comm. symmetry. apply String.append_correct2. Qed.

Lemma string_app_inv_tail s t u : s +:+ u = t +:+ u -> s = t.
Proof.
  revert t. induction s as [|c s IH]; intros [|d t] H; [done|..].
  - apply (f_equal String.length) in H.
    rewrite !string_length_app in H. simpl in H. lia.
  - apply (f_equal String.length) in H.
    rewrite !string_length_app in H. simpl in H. lia.
  - rewrite !string_app_cons in H. injection H as -> H. f_equal. by apply IH.
Qed.

Lemma string_length_0 s : String.length s = 0 <-> s = "".
Proof. destruct s; simpl; naive_solver. Qed.

Lemma nonempty_true s : nonempty s = true <-> s <> "".
Proof. destruct s; simpl; naive_solver. Qed.

Lemma nonempty_app_l s t : nonempty s = true -> nonempty (s +:+ t) = true.
Proof. by destruct s. Qed.

Lemma nonempty_app_r s t : nonempty t = true -> nonempty (s +:+ t) = true.
Proof. destruct s; [done|]. by rewrite string_app_cons. Qed.

End strings.

#[export] Hint Rewrite string_app_nil_l string_app_cons string_app_nil_r
  string_app_assoc string_length_app : js.
#[export] Hint Resolve nonempty_app_l nonempty_app_r : js.
