(* ===== verification/JsNumber.v ===== *)
(** Decimal rendering of integer-valued JavaScript numbers.

    [Number_toString] is the ToString coercion that the [+] operator
    applies to the result of [getFullYear()] on line 43 of
    [src/website/siteConfig.js] before concatenating it: for an integer
    below 10^21 in absolute value it is the decimal digits, most
    significant first, with a leading minus sign for negatives.  The
    digits are produced by the usual divide-by-ten loop, here with fuel.
    [parse_decimal] is the inverse used to state the round trip. *)

From S2P Require Import Prelude.

Set Warnings "-clear-no-such-hyp".
#[local] Open Scope Z_scope.

(** ** Definitions *)

(** The character of a digit [0 <= d <= 9]: code unit 48 + d. *)
Definition digit_char (d : Z) : ascii := ascii_of_N (Z.to_N (48 + d)).

(** The code unit of a character, as an integer. *)
Definition char_code (c : ascii) : Z := Z.of_N (N_of_ascii c).

Definition is_digit (c : ascii) : bool :=
  (48 <=? char_code c) && (char_code c <=? 57).

Definition digit_val (c : ascii) : option Z :=
  if is_digit c then Some (char_code c - 48) else None.

(** The digit loop: emit [n mod 10] in front of what was emitted so far,
    continue with [n / 10] until it is zero. *)
Fixpoint digits_go (fuel : nat) (n : Z) (acc : string) : string :=
  match fuel with
  | O => acc
  | S fuel' =>
      let acc' := String (digit_char (n mod 10)) acc in
      if n / 10 =? 0 then acc' else digits_go fuel' (n / 10) acc'
  end.

Definition digits_fuel (n : Z) : nat := S (Z.to_nat (Z.log2 n)).

Definition digits (n : Z) : string := digits_go (digits_fuel n) n "".

Definition Number_toString (n : Z) : string :=
  if n <? 0 then "-" +:+ digits (- n) else digits n.

(** Reading back: a left-to-right accumulation of digit values. *)
Fixpoint parse_digits (s : string) (acc : Z) : option Z :=
  match s with
  | "" => Some acc
  | String c s' =>
      match digit_val c with
      | Some d => parse_digits s' (10 * acc + d)
      | None => None
      end
  end.

Definition parse_decimal (s : string) : option Z :=
  match s with
  | "" => None
  | String c s' =>
      if Ascii.eqb c "-"
      then (if nonempty s' then Z.opp <$> parse_digits s' 0 else None)
      else parse_digits s 0
  end.

(** Every character of a string satisfies a boolean test. *)
Fixpoint string_forallb (p : ascii -> bool) (s : string) : bool :=
  match s with
  | "" => true
  | String c s' => p c && string_forallb p s'
  end.

(** ** Digit characters *)

Lemma char_code_digit_char d : 0 <= d <= 9 -> char_code (digit_char d) = 48 + d.
Proof.
  intros Hd. unfold char_code, digit_char.
  rewrite N_ascii_embedding by lia. lia.
Qed.

Lemma is_digit_digit_char d : 0 <= d <= 9 -> is_digit (digit_char d) = true.
Proof.
  intros Hd. unfold is_digit. rewrite char_code_digit_char by done.
  apply andb_true_intro. split; lia.
Qed.

Lemma digit_val_digit_char d : 0 <= d <= 9 -> digit_val (digit_char d) = Some d.
Proof.
  intros Hd. unfold digit_val.
  rewrite is_digit_digit_char, char_code_digit_char by done. f_equal. lia.
Qed.

Lemma mod10_range n : 0 <= n mod 10 <= 9.
Proof. pose proof (Z.mod_pos_bound n 10). lia. Qed.

#[export] Hint Resolve mod10_range : js.
#[export] Hint Rewrite char_code_digit_char is_digit_digit_char
  digit_val_digit_char using (auto with js) : js.

(** ** The digit loop *)

Section digit_loop.
Implicit Types (fuel k : nat) (n : Z) (acc s : string).

(** The accumulator is only ever extended at the front. *)
Lemma digits_go_acc fuel : forall n acc,
  digits_go fuel n acc = digits_go fuel n "" +:+ acc.
Proof.
  induction fuel as [|fuel IH]; intros n acc; simpl; [done|].
  destruct (n / 10 =? 0); [done|].
  rewrite IH, (IH _ (String _ "")). by rewrite string_app_assoc.
Qed.

Lemma digits_go_step fuel n acc :
  0 < n / 10 ->
  digits_go (S fuel) n acc
  = digits_go fuel (n / 10) "" +:+ String (digit_char (n mod 10)) acc.
Proof.
  intros Hn. simpl. destruct (Z.eqb_spec (n / 10) 0); [lia|].
  apply digits_go_acc.
Qed.

Lemma digits_go_last fuel n acc :
  0 <= n < 10 -> digits_go (S fuel) n acc = String (digit_char n) acc.
Proof.
  intros Hn. simpl. rewrite Z.div_small, Z.mod_small by lia. done.
Qed.

Lemma div10_lt_pow k n : 0 <= n < 10 ^ Z.of_nat (S k) -> 0 <= n / 10 < 10 ^ Z.of_nat k.
Proof.
  rewrite Nat2Z.inj_succ, Z.pow_succ_r by lia. intros Hn. split.
  - apply Z.div_pos; lia.
  - apply Z.div_lt_upper_bound; lia.
Qed.

Lemma div10_pos n : 10 <= n -> 0 < n / 10.
Proof. intros. apply Z.div_str_pos. lia. Qed.

(** Fuel: [S k] units are enough for any [n < 10^(S k)], and more fuel
    changes nothing. *)
Lemma digits_go_fuel_mono k : forall fuel n acc,
  (S k <= fuel)%nat -> 0 <= n < 10 ^ Z.of_nat (S k) ->
  digits_go fuel n acc = digits_go (S k) n acc.
Proof.
  induction k as [|k IH]; intros [|fuel] n acc Hk Hn; try lia.
  - by rewrite !digits_go_last by (simpl in Hn; lia).
  - destruct (Z_lt_le_dec n 10).
    + by rewrite !digits_go_last by lia.
    + rewrite !digits_go_step by (by apply div10_pos). f_equal.
      apply IH; [lia|]. by apply div10_lt_pow.
Qed.

Lemma digits_fuel_bound n : 0 <= n -> n < 10 ^ Z.of_nat (digits_fuel n).
Proof.
  intros Hn. unfold digits_fuel. rewrite Nat2Z.inj_succ, Z2Nat.id by apply Z.log2_nonneg.
  destruct (Z.eq_dec n 0) as [->|]; [done|].
  pose proof (Z.log2_spec n ltac:(lia)) as [_ Hlt].
  eapply Z.lt_le_trans; [exact Hlt|].
  apply Z.pow_le_mono_l. lia.
Qed.

(** With [k >= 1] such that [n < 10^k] the loop can be run with fuel [k]. *)
Lemma digits_unroll k n :
  0 <= n < 10 ^ Z.of_nat (S k) -> digits n = digits_go (S k) n "".
Proof.
  intros Hn. unfold digits.
  destruct (Nat.le_ge_cases (S k) (digits_fuel n)).
  - by apply digits_go_fuel_mono.
  - symmetry. unfold digits_fuel in *. apply digits_go_fuel_mono; [done|].
    split; [lia|]. apply (digits_fuel_bound n). lia.
Qed.

Lemma digits_small n : 0 <= n < 10 -> digits n = String (digit_char n) "".
Proof. intros. rewrite (digits_unroll 0) by (simpl; lia). by apply digits_go_last. Qed.

Lemma digits_step n :
  10 <= n -> digits n = digits (n / 10) +:+ String (digit_char (n mod 10)) "".
Proof.
  intros Hn. pose proof (digits_fuel_bound n ltac:(lia)) as Hb.
  unfold digits at 1. unfold digits_fuel in *.
  rewrite digits_go_step by (by apply div10_pos). f_equal.
  destruct (Z.to_nat (Z.log2 n)) as [|k] eqn:Hk.
  - simpl in Hb. lia.
  - symmetry. apply digits_unroll. apply div10_lt_pow. lia.
Qed.

End digit_loop.

(** ** Induction along the digit loop *)

Lemma digits_ind (P : Z -> string -> Prop) :
  (forall n, 0 <= n < 10 -> P n (String (digit_char n) "")) ->
  (forall n, 10 <= n -> P (n / 10) (digits (n / 10)) ->
     P n (digits (n / 10) +:+ String (digit_char (n mod 10)) "")) ->
  forall n, 0 <= n -> P n (digits n).
Proof.
  intros Hsmall Hstep n Hn. pattern n. apply Zlt_0_ind; [|done].
  clear n Hn. intros n IH Hn. destruct (Z_lt_le_dec n 10).
  - rewrite digits_small by lia. by apply Hsmall.
  - rewrite digits_step by done. apply Hstep; [done|].
    apply IH. pose proof (div10_pos n). split; [lia|].
    apply Z.div_lt; lia.
Qed.

(** ** Reading digits back *)

Section parse.
Implicit Types (n acc : Z) (s t : string).

Lemma parse_digits_app s : forall t acc,
  parse_digits (s +:+ t) acc = parse_digits s acc ≫= parse_digits t.
Proof.
  induction s as [|c s IH]; intros t acc; [done|].
  rewrite string_app_cons. simpl. destruct (digit_val c); [apply IH|done].
Qed.

Lemma parse_digits_single d acc :
  0 <= d <= 9 -> parse_digits (String (digit_char d) "") acc = Some (10 * acc + d).
Proof. intros. simpl. by rewrite digit_val_digit_char. Qed.

Lemma parse_digits_digits n : 0 <= n -> parse_digits (digits n) 0 = Some n.
Proof.
  revert n. apply (digits_ind (fun n s => parse_digits s 0 = Some n)).
  - intros n Hn. rewrite parse_digits_single by lia. f_equal; lia.
  - intros n Hn IH. rewrite parse_digits_app, IH. simpl.
    rewrite digit_val_digit_char by auto with js. f_equal.
    pose proof (Z.div_mod n 10). lia.
Qed.

Lemma digits_all_digits n : 0 <= n -> string_forallb is_digit (digits n) = true.
Proof.
  revert n. apply (digits_ind (fun _ s => string_forallb is_digit s = true)).
  - intros n Hn. simpl. by rewrite is_digit_digit_char by lia.
  - intros n Hn IH. revert IH. generalize (digits (n / 10)).
    induction s as [|c s IHs]; rewrite ?string_app_cons; simpl.
    + by rewrite is_digit_digit_char by auto with js.
    + intros [-> Hs]%andb_prop. simpl. by apply IHs.
Qed.

Lemma digits_nonempty n : 0 <= n -> nonempty (digits n) = true.
Proof.
  revert n. apply (digits_ind (fun _ s => nonempty s = true)); [done|].
  intros. by apply nonempty_app_l.
Qed.

(** The first character of the digits of a non-negative number is a
    digit, hence not the minus sign. *)
Lemma digits_head n : 0 <= n -> exists c s, digits n = String c s /\ is_digit c = true.
Proof.
  intros Hn. pose proof (digits_all_digits n Hn) as Hall.
  pose proof (digits_nonempty n Hn) as Hne.
  destruct (digits n) as [|c s]; [done|].
  apply andb_prop in Hall as [? _]. eauto.
Qed.

End parse.

(** ** Length of the rendering *)

Lemma digits_length k : forall n,
  0 <= n < 10 ^ Z.of_nat (S k) -> (k = 0%nat \/ 10 ^ Z.of_nat k <= n) ->
  String.length (digits n) = S k.
Proof.
  induction k as [|k IH]; intros n Hn Hlow.
  - rewrite digits_small by (simpl in Hn; lia). done.
  - destruct Hlow as [|Hlow]; [done|].
    assert (10 <= n).
    { etrans; [|exact Hlow]. rewrite Nat2Z.inj_succ, Z.pow_succ_r by lia.
      pose proof (Z.pow_pos_nonneg 10 (Z.of_nat k)). lia. }
    rewrite digits_step, string_length_app by done. simpl.
    rewrite IH; [lia|by apply div10_lt_pow|].
    destruct k as [|k]; [by left|right].
    apply Z.div_le_lower_bound; [lia|].
    by rewrite <- Z.pow_succ_r, <- Nat2Z.inj_succ by lia.
Qed.

Lemma digits_length_le k : forall n,
  0 <= n < 10 ^ Z.of_nat (S k) -> (String.length (digits n) <= S k)%nat.
Proof.
  induction k as [|k IH]; intros n Hn.
  - rewrite digits_small by (simpl in Hn; lia). done.
  - destruct (Z_lt_le_dec n 10).
    + rewrite digits_small by lia. simpl. lia.
    + rewrite digits_step, string_length_app by done. simpl.
      specialize (IH (n / 10) (div10_lt_pow _ _ Hn)). lia.
Qed.

(** ** ToString on integers *)

Section to_string.
Implicit Types (n m : Z).

Lemma Number_toString_nonneg n : 0 <= n -> Number_toString n = digits n.
Proof. intros. unfold Number_toString. by destruct (Z.ltb_spec n 0); [lia|]. Qed.

Lemma Number_toString_neg n : n < 0 -> Number_toString n = String "-" (digits (- n)).
Proof. intros. unfold Number_toString. by destruct (Z.ltb_spec n 0); [|lia]. Qed.

Lemma is_digit_not_minus c : is_digit c = true -> Ascii.eqb c "-" = false.
Proof. intros Hc. destruct (Ascii.eqb_spec c "-") as [->|]; done. Qed.

Lemma parse_Number_toString n : parse_decimal (Number_toString n) = Some n.
Proof.
  destruct (Z_lt_le_dec n 0) as [Hn|Hn].
  - rewrite Number_toString_neg by done. simpl.
    rewrite digits_nonempty, parse_digits_digits by lia. simpl. f_equal. lia.
  - rewrite Number_toString_nonneg by done.
    destruct (digits_head n Hn) as (c & s & Hcs & Hc).
    pose proof (parse_digits_digits n Hn) as Hp. rewrite Hcs in *.
    unfold parse_decimal. by rewrite is_digit_not_minus.
Qed.

#[export] Instance Number_toString_inj : Inj (=) (=) Number_toString.
Proof.
  intros n m Heq. apply (f_equal parse_decimal) in Heq.
  rewrite !parse_Number_toString in Heq. by injection Heq.
Qed.

Lemma Number_toString_nonempty n : nonempty (Number_toString n) = true.
Proof.
  destruct (Z_lt_le_dec n 0).
  - by rewrite Number_toString_neg.
  - rewrite Number_toString_nonneg by done. by apply digits_nonempty.
Qed.

Lemma Number_toString_length k n :
  10 ^ Z.of_nat k <= n < 10 ^ Z.of_nat (S k) ->
  String.length (Number_toString n) = S k.
Proof.
  intros [Hlo Hhi]. pose proof (Z.pow_pos_nonneg 10 (Z.of_nat k)).
  rewrite Number_toString_nonneg by lia. apply digits_length; [lia|by right].
Qed.

Lemma Number_toString_length_le k n :
  - 10 ^ Z.of_nat (S k) < n < 10 ^ Z.of_nat (S k) ->
  (String.length (Number_toString n) <= S (S k))%nat.
Proof.
  intros [Hlo Hhi]. destruct (Z_lt_le_dec n 0).
  - rewrite Number_toString_neg by done. simpl.
    pose proof (digits_length_le k (- n)). lia.
  - rewrite Number_toString_nonneg by done.
    pose proof (digits_length_le k n). lia.
Qed.

End to_string.

#[export] Hint Resolve Number_toString_nonempty digits_nonempty : js.
#[export] Hint Rewrite parse_Number_toString : js.

(** ** Properties of the rendering *)

(** C35.  The fuel of the digit loop is sufficient: for a non-negative
    integer, running the loop with any amount of fuel at least
    [digits_fuel n] produces the same string as [digits n], so the
    result never depends on the fuel running out. *)
Theorem digits_fuel_suffices (fuel : nat) (n : Z) :
  0 <= n -> (digits_fuel n <= fuel)%nat -> digits_go fuel n "" = digits n.
Proof.
  intros Hn Hfuel. apply digits_go_fuel_mono; [done|].
  split; [done|]. by apply digits_fuel_bound.
Qed.

Lemma digits_fuel_suffices_witness : digits_go 64 2018 "" = digits 2018.
Proof. apply digits_fuel_suffices; [lia|]. vm_compute. lia. Defined.

(** C36.  The rendering of an integer is a non-empty run of decimal
    digits, preceded by a minus sign exactly when the integer is
    negative. *)
Theorem Number_toString_shape (n : Z) :
  exists s, nonempty s = true /\ string_forallb is_digit s = true /\
    Number_toString n = if n <? 0 then String "-" s else s.
Proof.
  destruct (Z.ltb_spec n 0).
  - exists (digits (- n)). rewrite Number_toString_neg by done.
    split_and!; [apply digits_nonempty|apply digits_all_digits|done]; lia.
  - exists (digits n). rewrite Number_toString_nonneg by done.
    split_and!; [by apply digits_nonempty|by apply digits_all_digits|done].
Qed.
