(* ===== verification/JsValue.v ===== *)
(** JavaScript values as the module builds them, and the operations on
    them that the module body and its readers perform.

    [value] has one constructor per kind of literal occurring in
    [src/website/siteConfig.js]: strings, the boolean [true], the number
    returned by [getFullYear()], array literals and object literals; plus
    [undefined], which is what reading an absent property yields.
    Objects are ordered property lists.  [get_prop] and [set_prop] are
    reads and writes of properties ([o.k], [o.k = v]); [obj_lit] is the
    evaluation of an object literal; [ToString] and [js_add] are the
    coercion and the binary [+] of lines 42-44.

    The model is partial where JavaScript needs what it does not
    represent, and says so by returning [Unsupported]: properties
    inherited from [Object.prototype] ([inherited_keys]), the accessor
    [__proto__], properties of primitives, arrays used as objects,
    numbers that are not exact integers ([representable]). *)

From S2P Require Import Prelude JsNumber.

Set Warnings "-register-all,-clear-no-such-hyp".

(** ** Values *)

Inductive value : Type :=
| VUndefined
| VBool (b : bool)
| VNum (n : Z)
| VStr (s : string)
| VArr (elems : list value)
| VObj (props : list (string * value)).

(** What evaluating a piece of the module can throw.  [Unsupported]
    marks an operation whose JavaScript result this model cannot
    represent (NaN, inexact floating-point sums, array length updates). *)
Inductive JsError : Type :=
| ReferenceError (ident : string)
| TypeError (what : string)
| SyntaxError (what : string)
| Unsupported.

#[export] Instance JsError_eq_dec : EqDecision JsError.
Proof. solve_decision. Defined.

(** ** Own properties of objects *)

(** [obj_get k ps]: the value of own property [k], [undefined] if absent. *)
Fixpoint obj_get (k : string) (ps : list (string * value)) : value :=
  match ps with
  | [] => VUndefined
  | (k', v) :: ps' => if decide (k = k') then v else obj_get k ps'
  end.

(** [obj_has k ps]: [k] is an own property. *)
Fixpoint obj_has (k : string) (ps : list (string * value)) : bool :=
  match ps with
  | [] => false
  | (k', _) :: ps' => if decide (k = k') then true else obj_has k ps'
  end.

(** [obj_set k v ps]: an existing property keeps its position and takes
    the new value; a new property is appended. *)
Fixpoint obj_set (k : string) (v : value) (ps : list (string * value))
  : list (string * value) :=
  match ps with
  | [] => [(k, v)]
  | (k', v') :: ps' =>
      if decide (k = k') then (k', v) :: ps' else (k', v') :: obj_set k v ps'
  end.

(** [obj_delete k ps]: the object without property [k]; the other
    properties keep their order. *)
Fixpoint obj_delete (k : string) (ps : list (string * value))
  : list (string * value) :=
  match ps with
  | [] => []
  | (k', v') :: ps' =>
      if decide (k = k') then obj_delete k ps' else (k', v') :: obj_delete k ps'
  end.

(** Own property keys in insertion order ([Object.keys]). *)
Definition obj_keys (ps : list (string * value)) : list string := ps.*1.

(** The property names every plain object inherits from
    [Object.prototype]; reading one that is not an own property yields a
    built-in function or accessor, which [value] does not represent. *)
Definition inherited_keys : list string :=
  [ "constructor"; "hasOwnProperty"; "isPrototypeOf"; "propertyIsEnumerable";
    "toLocaleString"; "toString"; "valueOf"; "__proto__";
    "__defineGetter__"; "__defineSetter__"; "__lookupGetter__";
    "__lookupSetter__" ].

(** [v.k].  On an object: the own property if there is one, [undefined]
    if there is none and the name is not inherited.  Reading a property
    of [undefined] throws. *)
Definition get_prop (k : string) (v : value) : result JsError value :=
  match v with
  | VUndefined =>
      Err (TypeError ("Cannot read property '" +:+ k +:+ "' of undefined"))
  | VBool _ | VNum _ | VStr _ | VArr _ => Err Unsupported
  | VObj ps =>
      if obj_has k ps then Ok (obj_get k ps)
      else if bool_decide (k ∈ inherited_keys) then Err Unsupported
      else Ok VUndefined
  end.

(** [v.k = x] outside strict mode (the file has no ["use strict"]
    directive): a write to a primitive is silently dropped, a write to
    [undefined] throws, a write to [__proto__] changes the prototype
    instead of defining a property. *)
Definition set_prop (k : string) (x : value) (v : value) : result JsError value :=
  match v with
  | VUndefined =>
      Err (TypeError ("Cannot set property '" +:+ k +:+ "' of undefined"))
  | VBool _ | VNum _ | VStr _ => Ok v
  | VArr _ => Err Unsupported
  | VObj ps =>
      if decide (k = "__proto__") then Err Unsupported
      else Ok (VObj (obj_set k x ps))
  end.

(** An object literal [{k1: v1, ..., kn: vn}] defines its properties left
    to right on a fresh object; a repeated key overwrites the earlier
    value and keeps the earlier position.  (A key [__proto__] would set
    the prototype instead: [plain_literal] excludes it.) *)
Definition obj_lit (ps : list (string * value)) : value :=
  VObj (foldl (fun acc kv => obj_set kv.1 kv.2 acc) [] ps).

(** The keys of a literal are pairwise distinct and none is [__proto__]. *)
Definition plain_literal (ps : list (string * value)) : Prop :=
  NoDup (obj_keys ps) /\ "__proto__" ∉ obj_keys ps.

#[export] Instance plain_literal_dec ps : Decision (plain_literal ps).
Proof. unfold plain_literal. apply _. Defined.

(** ** Coercions and [+] *)

(** [join sep ss]: the strings of [ss] separated by [sep]. *)
Fixpoint join (sep : string) (ss : list string) : string :=
  match ss with
  | [] => ""
  | [s] => s
  | s :: ss' => s +:+ sep +:+ join sep ss'
  end.

(** ToString, with the default [toString] of arrays (elements joined by
    commas, [undefined] elements rendered empty) and of plain objects.
    The operands of [+] on lines 42-44 are two strings and a number;
    the other cases make the coercion total, as it is in JavaScript. *)
Fixpoint ToString (v : value) : string :=
  match v with
  | VUndefined => "undefined"
  | VBool b => if b then "true" else "false"
  | VNum n => Number_toString n
  | VStr s => s
  | VArr l =>
      join "," (map (fun x => match x with
                              | VUndefined => ""
                              | _ => ToString x
                              end) l)
  | VObj _ => "[object Object]"
  end.

(** Operands that ToPrimitive turns into strings. *)
Definition is_stringish (v : value) : bool :=
  match v with
  | VStr _ | VArr _ | VObj _ => true
  | _ => false
  end.

(** ToNumber on the primitives whose result is an integer. *)
Definition to_number (v : value) : option Z :=
  match v with
  | VBool b => Some (if b then 1 else 0)%Z
  | VNum n => Some n
  | _ => None
  end.

(** Integers that a double represents exactly. *)
Definition safe_integer (n : Z) : bool :=
  (- (2 ^ 53 - 1) <=? n)%Z && (n <=? 2 ^ 53 - 1)%Z.

(** Values all of whose numbers are integers a double represents
    exactly; on these [VNum] and [Number_toString] agree with
    JavaScript. *)
Fixpoint representable (v : value) : bool :=
  match v with
  | VNum n => safe_integer n
  | VArr l => forallb representable l
  | VObj ps => forallb (fun kv => representable kv.2) ps
  | _ => true
  end.

(** The binary [+]: string concatenation as soon as one operand is (or
    converts to) a string, numeric addition otherwise. *)
Definition js_add (a b : value) : result JsError value :=
  if negb (representable a && representable b) then Err Unsupported
  else if is_stringish a || is_stringish b
  then Ok (VStr (ToString a +:+ ToString b))
  else match to_number a, to_number b with
       | Some x, Some y =>
           if safe_integer (x + y) then Ok (VNum (x + y)) else Err Unsupported
       | _, _ => Err Unsupported
       end.

(** ToBoolean. *)
Definition to_boolean (v : value) : bool :=
  match v with
  | VUndefined => false
  | VBool b => b
  | VNum n => negb (n =? 0)%Z
  | VStr s => nonempty s
  | VArr _ | VObj _ => true
  end.

(** ** Structural equality, decided *)

Fixpoint value_eqb (v w : value) : bool :=
  match v, w with
  | VUndefined, VUndefined => true
  | VBool a, VBool b => Bool.eqb a b
  | VNum a, VNum b => (a =? b)%Z
  | VStr a, VStr b => String.eqb a b
  | VArr l, VArr l' =>
      (fix go (l l' : list value) : bool :=
         match l, l' with
         | [], [] => true
         | x :: l, y :: l' => value_eqb x y && go l l'
         | _, _ => false
         end) l l'
  | VObj ps, VObj qs =>
      (fix go (ps qs : list (string * value)) : bool :=
         match ps, qs with
         | [], [] => true
         | (k, x) :: ps, (k', y) :: qs =>
             String.eqb k k' && value_eqb x y && go ps qs
         | _, _ => false
         end) ps qs
  | _, _ => false
  end.

(** ** Induction on values *)

Section value_ind.
Context (P : value -> Prop).
Context (Hundef : P VUndefined) (Hbool : forall b, P (VBool b))
  (Hnum : forall n, P (VNum n)) (Hstr : forall s, P (VStr s))
  (Harr : forall l, Forall P l -> P (VArr l))
  (Hobj : forall ps, Forall (fun kv => P kv.2) ps -> P (VObj ps)).

Fixpoint value_ind' (v : value) : P v :=
  match v with
  | VUndefined => Hundef
  | VBool b => Hbool b
  | VNum n => Hnum n
  | VStr s => Hstr s
  | VArr l =>
      Harr l ((fix go (l : list value) : Forall P l :=
                 match l with
                 | [] => Forall_nil _
                 | x :: l' => Forall_cons _ x l' (value_ind' x) (go l')
                 end) l)
  | VObj ps =>
      Hobj ps ((fix go (ps : list (string * value)) : Forall (fun kv => P kv.2) ps :=
                  match ps with
                  | [] => Forall_nil _
                  | kv :: ps' =>
                      Forall_cons (fun kv => P kv.2) kv ps' (value_ind' kv.2) (go ps')
                  end) ps)
  end.

End value_ind.

(** ** Decidable equality *)

Lemma value_eqb_eq v : forall w, value_eqb v w = true <-> v = w.
Proof.
  induction v as [|b|n|s|l IH|ps IH] using value_ind'; intros [|b'|n'|s'|l'|ps'];
    simpl; try (split; [discriminate|congruence]).
  - done.
  - rewrite Bool.eqb_true_iff. naive_solver.
  - rewrite Z.eqb_eq. naive_solver.
  - rewrite String.eqb_eq. naive_solver.
  - revert l'. induction IH as [|x l Hx _ IHl]; intros [|y l'];
      try (split; [discriminate|congruence]); [done|].
    rewrite andb_true_iff, Hx, IHl. naive_solver.
  - revert ps'. induction IH as [|[k x] ps Hx _ IHps]; intros [|[k' y] ps'];
      try (split; [discriminate|congruence]); [done|].
    rewrite !andb_true_iff, String.eqb_eq, Hx, IHps. naive_solver.
Qed.

#[export] Instance value_eq_dec : EqDecision value.
Proof.
  intros v w. destruct (value_eqb v w) eqn:E.
  - left. by apply value_eqb_eq.
  - right. intros ?%value_eqb_eq. congruence.
Defined.

(** ** Laws of own-property reads and writes *)

Section props.
Implicit Types (k : string) (v x : value) (ps qs : list (string * value)).

Lemma obj_has_keys k ps : obj_has k ps = true <-> k ∈ obj_keys ps.
Proof.
  unfold obj_keys. induction ps as [|[k' v] ps IH]; simpl.
  - split; [done|]. by intros ?%elem_of_nil.
  - rewrite elem_of_cons. case_decide; naive_solver.
Qed.

Lemma obj_get_absent k ps : k ∉ obj_keys ps -> obj_get k ps = VUndefined.
Proof.
  unfold obj_keys. induction ps as [|[k' v] ps IH]; simpl; [done|].
  rewrite not_elem_of_cons. intros [? ?]. case_decide; [done|]. by apply IH.
Qed.

Lemma obj_get_set_eq k x ps : obj_get k (obj_set k x ps) = x.
Proof.
  induction ps as [|[k' v] ps IH]; simpl.
  - by rewrite decide_True.
  - case_decide; simpl; [by rewrite decide_True|by rewrite decide_False].
Qed.

Lemma obj_get_set_ne k k' x ps :
  k <> k' -> obj_get k' (obj_set k x ps) = obj_get k' ps.
Proof.
  intros Hne. induction ps as [|[k0 v] ps IH]; simpl.
  - by rewrite decide_False.
  - case_decide; simpl; subst.
    + by rewrite !decide_False.
    + by rewrite IH.
Qed.

Lemma obj_get_delete_eq k ps : obj_get k (obj_delete k ps) = VUndefined.
Proof.
  induction ps as [|[k' v] ps IH]; simpl; [done|].
  case_decide; simpl; [done|]. by rewrite decide_False.
Qed.

Lemma obj_get_delete_ne k k' ps :
  k <> k' -> obj_get k' (obj_delete k ps) = obj_get k' ps.
Proof.
  intros Hne. induction ps as [|[k0 v] ps IH]; simpl; [done|].
  case_decide; simpl; subst; [by rewrite decide_False|by rewrite IH].
Qed.

Lemma obj_set_fresh k x ps : k ∉ obj_keys ps -> obj_set k x ps = ps ++ [(k, x)].
Proof.
  unfold obj_keys. induction ps as [|[k' v] ps IH]; simpl; [done|].
  rewrite not_elem_of_cons. intros [? ?]. case_decide; [done|]. by rewrite IH.
Qed.

Lemma obj_set_set k x y ps : obj_set k y (obj_set k x ps) = obj_set k y ps.
Proof.
  induction ps as [|[k' v] ps IH]; simpl.
  - by rewrite decide_True.
  - case_decide; simpl; [by rewrite decide_True|]. by rewrite decide_False, IH.
Qed.

(** An object literal without repeated keys is its own property list. *)
Lemma foldl_obj_set_NoDup ps : forall acc,
  NoDup (obj_keys (acc ++ ps)) ->
  foldl (fun acc kv => obj_set kv.1 kv.2 acc) acc ps = acc ++ ps.
Proof.
  unfold obj_keys. induction ps as [|[k v] ps IH]; intros acc Hnd; simpl.
  - by rewrite app_nil_r.
  - rewrite fmap_app in Hnd. simpl in Hnd.
    pose proof Hnd as [_ [Hk _]]%list.NoDup_app.
    rewrite obj_set_fresh by (intros Hin; apply (Hk k Hin); by left).
    rewrite IH; [by rewrite <- app_assoc|].
    by rewrite <- app_assoc, fmap_app.
Qed.


End props.

(** ** Laws of [+] *)

Lemma js_add_str_l s v :
  representable v = true -> js_add (VStr s) v = Ok (VStr (s +:+ ToString v)).
Proof. intros Hv. unfold js_add. simpl. by rewrite Hv. Qed.

Lemma js_add_str_str s t : js_add (VStr s) (VStr t) = Ok (VStr (s +:+ t)).
Proof. done. Qed.

#[export] Hint Rewrite obj_get_set_eq obj_set_set js_add_str_str : js.
