(* ===== verification/JsEquiv.v ===== *)
(** Objects up to the order of their properties.

    Two values are read-equivalent ([veq]) when no sequence of property
    reads and array indexings tells them apart: primitives are equal,
    arrays are equivalent element by element, and objects yield
    equivalent values for every key.  The order in which an object
    literal lists its properties, and properties explicitly set to
    [undefined], are invisible to such a reader.  [veq] is an
    equivalence; permuting the properties of an object with distinct keys
    stays within a class. *)

From S2P Require Import Prelude JsNumber JsValue.

Set Warnings "-clear-no-such-hyp".

(** ** Definition *)

Inductive veq : value -> value -> Prop :=
| veq_undefined : veq VUndefined VUndefined
| veq_bool b : veq (VBool b) (VBool b)
| veq_num n : veq (VNum n) (VNum n)
| veq_str s : veq (VStr s) (VStr s)
| veq_arr l l' :
    length l = length l' ->
    (forall i x y, l !! i = Some x -> l' !! i = Some y -> veq x y) ->
    veq (VArr l) (VArr l')
| veq_obj ps qs :
    (forall k, veq (obj_get k ps) (obj_get k qs)) ->
    veq (VObj ps) (VObj qs).

Infix "≈" := veq (at level 70, no associativity) : stdpp_scope.

(** ** [veq] is an equivalence *)

Section equivalence.
Implicit Types (v w u : value) (ps qs : list (string * value)) (k : string).

Lemma obj_get_Forall (P : value -> Prop) k ps :
  P VUndefined -> Forall (fun kv => P kv.2) ps -> P (obj_get k ps).
Proof.
  intros Hu Hps. induction Hps as [|[k' x] ps Hx _ IH]; simpl; [done|].
  by case_decide.
Qed.

#[export] Instance veq_refl : Reflexive veq.
Proof.
  intros v. induction v as [|b|n|s|l IH|ps IH] using value_ind'; try by constructor.
  - constructor; [done|]. intros i x y Hx Hy. simplify_eq.
    by eapply Forall_lookup_1 in IH.
  - constructor. intros k. apply (obj_get_Forall (fun v => v ≈ v)); [constructor|done].
Qed.

#[export] Instance veq_sym : Symmetric veq.
Proof.
  intros v w H. induction H as [| | | |l l' Hlen _ IH|ps qs _ IH]; try by constructor.
  constructor; [done|]. intros i x y Hx Hy. by eapply IH.
Qed.

#[export] Instance veq_trans : Transitive veq.
Proof.
  intros v w u H. revert u.
  induction H as [| | | |l l' Hlen _ IH|ps qs _ IH]; intros u Hu; try done.
  - inversion Hu as [| | | |? l'' Hlen' Hall|]; subst. constructor; [congruence|].
    intros i x z Hx Hz.
    destruct (lookup_lt_is_Some_2 l' i) as [y Hy].
    { rewrite <- Hlen. by eapply lookup_lt_Some. }
    eapply IH; [done..|]. by eapply Hall.
  - inversion Hu as [| | | | |? rs Hall]; subst. constructor.
    intros k. by eapply IH.
Qed.

#[export] Instance veq_equivalence : Equivalence veq.
Proof. split; apply _. Qed.

End equivalence.

(** ** Reading equivalent objects *)

Section reads.
Implicit Types (v w : value) (ps qs : list (string * value)) (k : string).

Lemma veq_obj_get k ps qs : VObj ps ≈ VObj qs -> obj_get k ps ≈ obj_get k qs.
Proof. by inversion 1. Qed.

Lemma veq_obj_inv ps w : VObj ps ≈ w -> exists qs, w = VObj qs.
Proof. inversion 1; eauto. Qed.

Lemma veq_arr_inv l w :
  VArr l ≈ w -> exists l', w = VArr l' /\ Forall2 veq l l'.
Proof.
  inversion 1 as [| | | |? l' Hlen Hall|]; subst. exists l'. split; [done|].
  apply Forall2_same_length_lookup. eauto.
Qed.

Lemma veq_str_inv s w : VStr s ≈ w -> w = VStr s.
Proof. by inversion 1. Qed.

Lemma veq_bool_inv b w : VBool b ≈ w -> w = VBool b.
Proof. by inversion 1. Qed.

Lemma veq_num_inv n w : VNum n ≈ w -> w = VNum n.
Proof. by inversion 1. Qed.

Lemma veq_undefined_inv w : VUndefined ≈ w -> w = VUndefined.
Proof. by inversion 1. Qed.

(** Truthiness does not see the difference. *)
#[export] Instance to_boolean_proper : Proper (veq ==> eq) to_boolean.
Proof. intros v w H. by destruct H. Qed.

(** Reordering the properties of an object with distinct keys. *)
Lemma obj_get_Permutation k ps qs :
  NoDup (obj_keys ps) -> ps ≡ₚ qs -> obj_get k ps = obj_get k qs.
Proof.
  intros Hnd Hperm. revert Hnd.
  induction Hperm as [|[k0 x] ps qs _ IH|[k1 x] [k2 y] ps|ps qs rs H1 IH1 H2 IH2];
    unfold obj_keys; simpl; intros Hnd.
  - done.
  - apply list.NoDup_cons in Hnd as [_ Hnd]. case_decide; [done|by apply IH].
  - apply list.NoDup_cons in Hnd as [Hne _]. apply not_elem_of_cons in Hne as [Hne _].
    repeat case_decide; congruence.
  - rewrite IH1 by done. apply IH2. unfold obj_keys in *. by rewrite <- H1.
Qed.

Lemma veq_Permutation ps qs :
  NoDup (obj_keys ps) -> ps ≡ₚ qs -> VObj ps ≈ VObj qs.
Proof.
  intros Hnd Hperm. constructor. intros k.
  by rewrite (obj_get_Permutation k ps qs).
Qed.

End reads.
