(* ===== verification/Heap.v ===== *)
(** Objects with identity: a store of arrays and objects.

    In JavaScript an array or object literal evaluates to a reference to
    a freshly allocated object, and a binding or a property holds the
    reference, not a copy.  [src/website/siteConfig.js] relies on this
    three times: the property [users] of line 30 holds the array bound
    by line 9, the binding [siteConfig] and [module.exports] hold the
    same object after line 56, and [require] hands that object to the
    generator.  The tree model of [JsValue] cannot tell a shared object
    from a copy; this file adds the store.

    A [heap] is a list of objects and a location is an index into it, so
    allocation appends and returns a location that was not in use.
    Locations are not observable in JavaScript, only their equality is,
    so the order in which the parts of a nested literal are allocated is
    free; [alloc_lit] allocates the parts before the whole, which lets a
    finished object be written once.  [reify] reads a heap value back as
    a tree, following references; it takes fuel because a heap can hold
    cycles, and [depth] is enough fuel for whatever [alloc_lit] built.

    [alloc_lit_threads] is the induction on a literal, done once: a
    property that one allocation preserves is preserved by the
    evaluation of any literal.  [HeapInv] and [HeapFrame] instantiate
    it. *)

From stdpp Require Import sets.
From S2P Require Import Prelude JsNumber JsValue.

Set Warnings "-clear-no-such-hyp".

(** ** Heap values and objects *)

(** A location is an index into the heap. *)
Abbreviation loc := nat.

Inductive hval : Type :=
| HUndefined
| HBool (b : bool)
| HNum (n : Z)
| HStr (s : string)
| HRef (l : loc).

Inductive hobj : Type :=
| HArr (elems : list hval)
| HObj (props : list (string * hval)).

#[export] Instance hval_eq_dec : EqDecision hval.
Proof. solve_decision. Defined.

#[export] Instance hobj_eq_dec : EqDecision hobj.
Proof. solve_decision. Defined.

Abbreviation heap := (list hobj).

(** ** Allocation *)

(** A new object goes to the end of the heap; its location is fresh. *)
Definition alloc (o : hobj) (h : heap) : hval * heap :=
  (HRef (length h), h ++ [o]).

(** The values an object holds: its elements or its property values. *)
Definition vals (o : hobj) : list hval :=
  match o with
  | HArr es => es
  | HObj ps => ps.*2
  end.

(** Allocating the elements of an array literal, left to right. *)
Definition alloc_list (f : value -> heap -> hval * heap)
  : list value -> heap -> list hval * heap :=
  fix go l h :=
    match l with
    | [] => ([], h)
    | x :: l' =>
        let '(a, h1) := f x h in
        let '(es, h2) := go l' h1 in
        (a :: es, h2)
    end.

(** Allocating the property values of an object literal, left to right. *)
Definition alloc_props (f : value -> heap -> hval * heap)
  : list (string * value) -> heap -> list (string * hval) * heap :=
  fix go ps h :=
    match ps with
    | [] => ([], h)
    | kx :: ps' =>
        let '(a, h1) := f kx.2 h in
        let '(qs, h2) := go ps' h1 in
        ((kx.1, a) :: qs, h2)
    end.

(** Evaluating a literal: primitives are values, every array and object
    of the literal becomes one new object of the heap. *)
Fixpoint alloc_lit (v : value) (h : heap) : hval * heap :=
  match v with
  | VUndefined => (HUndefined, h)
  | VBool b => (HBool b, h)
  | VNum n => (HNum n, h)
  | VStr s => (HStr s, h)
  | VArr l =>
      let '(es, h') := alloc_list alloc_lit l h in
      alloc (HArr es) h'
  | VObj ps =>
      let '(qs, h') := alloc_props alloc_lit ps h in
      alloc (HObj qs) h'
  end.

(** ** Reading a heap value as a tree *)

Definition on_snd {K A B} (g : A -> option B) (kx : K * A) : option (K * B) :=
  pair kx.1 <$> g kx.2.

(** [reify fuel h a]: the tree a reader sees from [a] by following at
    most [fuel] references in a row; [None] when a reference dangles or
    the fuel runs out. *)
Fixpoint reify (fuel : nat) (h : heap) (a : hval) : option value :=
  match a with
  | HUndefined => Some VUndefined
  | HBool b => Some (VBool b)
  | HNum n => Some (VNum n)
  | HStr s => Some (VStr s)
  | HRef l =>
      match fuel with
      | 0 => None
      | S f =>
          match h !! l with
          | None => None
          | Some (HArr es) => VArr <$> mapM (reify f h) es
          | Some (HObj ps) => VObj <$> mapM (on_snd (reify f h)) ps
          end
      end
  end.

(** The nesting depth of a tree: the references a reader follows in a
    row to reach its innermost part. *)
Fixpoint depth (v : value) : nat :=
  match v with
  | VUndefined | VBool _ | VNum _ | VStr _ => 0
  | VArr l => S (foldr (fun x n => depth x `max` n) 0 l)
  | VObj ps => S (foldr (fun kx n => depth kx.2 `max` n) 0 ps)
  end.

(** What [alloc_lit] promises of a literal: the heap only grows, and
    the result reads back as the literal with fuel [depth]. *)
Definition alloc_ok (v : value) : Prop :=
  forall h : heap, h `prefix_of` (alloc_lit v h).2 /\
    forall f, depth v <= f ->
      reify f (alloc_lit v h).2 (alloc_lit v h).1 = Some v.

(** ** Property reads and writes through a reference *)

Fixpoint hprops_get (k : string) (ps : list (string * hval)) : hval :=
  match ps with
  | [] => HUndefined
  | (k', a) :: ps' => if decide (k = k') then a else hprops_get k ps'
  end.

Fixpoint hprops_set (k : string) (a : hval) (ps : list (string * hval))
  : list (string * hval) :=
  match ps with
  | [] => [(k, a)]
  | (k', a') :: ps' =>
      if decide (k = k') then (k', a) :: ps' else (k', a') :: hprops_set k a ps'
  end.

(** [a.k]: an own property of the object [a] refers to. *)
Definition heap_get (k : string) (a : hval) (h : heap) : result JsError hval :=
  match a with
  | HUndefined =>
      Err (TypeError ("Cannot read property '" +:+ k +:+ "' of undefined"))
  | HBool _ | HNum _ | HStr _ => Err Unsupported
  | HRef l =>
      match h !! l with
      | Some (HObj ps) =>
          if bool_decide (k ∈ ps.*1) then Ok (hprops_get k ps)
          else if bool_decide (k ∈ inherited_keys) then Err Unsupported
          else Ok HUndefined
      | _ => Err Unsupported
      end
  end.

(** [a[i]]: an element of the array [a] refers to. *)
Definition heap_index (i : nat) (a : hval) (h : heap) : result JsError hval :=
  match a with
  | HUndefined =>
      Err (TypeError "Cannot read property of undefined")
  | HBool _ | HNum _ | HStr _ => Err Unsupported
  | HRef l =>
      match h !! l with
      | Some (HArr es) => Ok (default HUndefined (es !! i))
      | _ => Err Unsupported
      end
  end.

(** [a.k = x]: the object [a] refers to is updated in place, so the
    write is seen through every reference to it. *)
Definition heap_set (k : string) (x : hval) (a : hval) (h : heap)
  : result JsError heap :=
  match a with
  | HUndefined =>
      Err (TypeError ("Cannot set property '" +:+ k +:+ "' of undefined"))
  | HBool _ | HNum _ | HStr _ => Ok h
  | HRef l =>
      match h !! l with
      | Some (HObj ps) =>
          if decide (k = "__proto__") then Err Unsupported
          else Ok (<[l := HObj (hprops_set k x ps)]> h)
      | _ => Err Unsupported
      end
  end.

(** ** Reading back what was allocated *)

Section reify.
Implicit Types (h : heap) (a : hval) (v : value) (f : nat).

Lemma alloc_lookup o h : (alloc o h).2 !! length h = Some o.
Proof. simpl. by rewrite list_lookup_middle. Qed.

Lemma alloc_prefix o h : h `prefix_of` (alloc o h).2.
Proof. by exists [o]. Qed.

(** More fuel and a larger heap read the same tree. *)
Lemma reify_mono f f' h h' a v :
  f <= f' -> h `prefix_of` h' ->
  reify f h a = Some v -> reify f' h' a = Some v.
Proof.
  intros Hf Hh. revert f' Hf a v.
  induction f as [|f IH]; intros [|f'] Hf [| | | |l] v; simpl; try done; try lia.
  destruct (h !! l) as [o|] eqn:Hl; [|done].
  rewrite (prefix_lookup_Some _ _ _ _ Hl Hh).
  destruct o as [es|ps]; rewrite !fmap_Some; intros (t & Ht & ->);
    exists t; (split; [|done]); rewrite mapM_Some in Ht |- *;
    (eapply Forall2_impl; [|exact Ht]); simpl.
  - intros a w. apply IH. lia.
  - intros [k a] [k' w]. unfold on_snd. simpl. rewrite !fmap_Some.
    intros (w' & Hw & ->). exists w'. split; [|done]. eapply IH; [|done]. lia.
Qed.

Lemma reify_props_mono f f' h h' (ps : list (string * hval)) qs :
  f <= f' -> h `prefix_of` h' ->
  mapM (on_snd (reify f h)) ps = Some qs ->
  mapM (on_snd (reify f' h')) ps = Some qs.
Proof.
  intros Hf Hh. rewrite !mapM_Some. apply Forall2_impl.
  intros [k a] [k' w]. unfold on_snd. simpl. rewrite !fmap_Some.
  intros (w' & Hw & ->). exists w'. split; [|done]. by eapply reify_mono.
Qed.

Lemma alloc_list_ok l :
  Forall alloc_ok l ->
  forall h, h `prefix_of` (alloc_list alloc_lit l h).2 /\
    forall f, foldr (fun x n => depth x `max` n) 0 l <= f ->
      Forall2 (fun a x => reify f (alloc_list alloc_lit l h).2 a = Some x)
        (alloc_list alloc_lit l h).1 l.
Proof.
  induction 1 as [|x l Hx _ IH]; intros h; simpl; [by split; [|constructor]|].
  destruct (Hx h) as [Hp Hr]. destruct (alloc_lit x h) as [a h1].
  destruct (IH h1) as [Hp' Hr']. destruct (alloc_list alloc_lit l h1) as [es h2].
  simpl in *. split; [by etrans|]. intros f Hf. constructor.
  - eapply reify_mono; [done|exact Hp'|]. apply Hr. lia.
  - apply Hr'. lia.
Qed.

Lemma alloc_props_ok ps :
  Forall (fun kx => alloc_ok kx.2) ps ->
  forall h, h `prefix_of` (alloc_props alloc_lit ps h).2 /\
    forall f, foldr (fun kx n => depth kx.2 `max` n) 0 ps <= f ->
      Forall2 (fun ka kx => on_snd (reify f (alloc_props alloc_lit ps h).2) ka
                            = Some kx)
        (alloc_props alloc_lit ps h).1 ps.
Proof.
  induction 1 as [|[k x] ps Hx _ IH]; intros h; simpl in *;
    [by split; [|constructor]|].
  destruct (Hx h) as [Hp Hr]. destruct (alloc_lit x h) as [a h1].
  destruct (IH h1) as [Hp' Hr']. destruct (alloc_props alloc_lit ps h1) as [qs h2].
  simpl in *. split; [by etrans|]. intros f Hf. constructor.
  - unfold on_snd. simpl. erewrite reify_mono; [done|done|exact Hp'|].
    apply Hr. lia.
  - apply Hr'. lia.
Qed.

Lemma alloc_lit_ok v : alloc_ok v.
Proof.
  induction v as [| | | |l IH|ps IH] using value_ind'; intros h;
    try (split; [done|by intros []]).
  - destruct (alloc_list_ok l IH h) as [Hp Hr]. simpl.
    destruct (alloc_list alloc_lit l h) as [es h']. simpl in *.
    split; [etrans; [exact Hp|apply alloc_prefix]|].
    intros [|f] Hf; [lia|]. simpl. rewrite list_lookup_middle by done.
    apply fmap_Some. exists l. split; [|done]. apply mapM_Some.
    eapply Forall2_impl; [|apply (Hr f); lia]. simpl.
    intros a x. apply reify_mono; [done|apply alloc_prefix].
  - destruct (alloc_props_ok ps IH h) as [Hp Hr]. simpl.
    destruct (alloc_props alloc_lit ps h) as [qs h']. simpl in *.
    split; [etrans; [exact Hp|apply alloc_prefix]|].
    intros [|f] Hf; [lia|]. simpl. rewrite list_lookup_middle by done.
    apply fmap_Some. exists ps. split; [|done]. apply mapM_Some.
    eapply Forall2_impl; [|apply (Hr f); lia]. simpl.
    intros [k a] [k' x]. unfold on_snd. simpl. rewrite !fmap_Some.
    intros (w & Hw & ->). exists w. split; [|done].
    eapply reify_mono; [done|apply alloc_prefix|done].
Qed.

End reify.

(** ** Properties threaded through the evaluation of a literal

    Evaluating a literal is a sequence of allocations.  A property of
    heaps [I], a relation [R] between the heap before and the heap
    after, and a property [Q] of the values produced hold of the whole
    evaluation as soon as they hold of one allocation: the induction on
    the literal is done here once. *)

Section threading.
Context (I : heap -> Prop) (R : heap -> heap -> Prop)
  (Q : heap -> hval -> Prop).
Context (R_refl : forall h, R h h)
  (R_trans : forall h1 h2 h3, R h1 h2 -> R h2 h3 -> R h1 h3)
  (Q_mono : forall h h' a, R h h' -> Q h a -> Q h' a)
  (Q_prim : forall h a, (forall l, a <> HRef l) -> Q h a)
  (alloc_step : forall h o, I h -> Forall (Q h) (vals o) ->
     R h (alloc o h).2 /\ I (alloc o h).2 /\ Q (alloc o h).2 (alloc o h).1).

#[local] Abbreviation threads v :=
  (forall h, I h ->
     R h (alloc_lit v h).2 /\ I (alloc_lit v h).2 /\
     Q (alloc_lit v h).2 (alloc_lit v h).1).

Lemma alloc_list_threads l :
  Forall (fun x => threads x) l ->
  forall h, I h ->
    R h (alloc_list alloc_lit l h).2 /\ I (alloc_list alloc_lit l h).2 /\
    Forall (Q (alloc_list alloc_lit l h).2) (alloc_list alloc_lit l h).1.
Proof.
  induction 1 as [|x l Hx _ IH]; intros h Hh; simpl; [by split_and!|].
  destruct (Hx h Hh) as (HR1 & HI1 & HQ1). destruct (alloc_lit x h) as [a h1].
  destruct (IH h1 HI1) as (HR2 & HI2 & HQ2).
  destruct (alloc_list alloc_lit l h1) as [es h2]. simpl in *.
  split_and!; [by eapply R_trans|done|]. constructor; [|done]. by eapply Q_mono.
Qed.

Lemma alloc_props_threads ps :
  Forall (fun kx => threads kx.2) ps ->
  forall h, I h ->
    R h (alloc_props alloc_lit ps h).2 /\ I (alloc_props alloc_lit ps h).2 /\
    Forall (Q (alloc_props alloc_lit ps h).2) (alloc_props alloc_lit ps h).1.*2.
Proof.
  induction 1 as [|[k x] ps Hx _ IH]; intros h Hh; simpl in *; [by split_and!|].
  destruct (Hx h Hh) as (HR1 & HI1 & HQ1). destruct (alloc_lit x h) as [a h1].
  destruct (IH h1 HI1) as (HR2 & HI2 & HQ2).
  destruct (alloc_props alloc_lit ps h1) as [qs h2]. simpl in *.
  split_and!; [by eapply R_trans|done|]. constructor; [|done]. by eapply Q_mono.
Qed.

Lemma alloc_lit_threads v : threads v.
Proof.
  induction v as [| | | |l IH|ps IH] using value_ind'; intros h Hh;
    try (by split_and!; [apply R_refl|done|apply Q_prim]).
  - destruct (alloc_list_threads l IH h Hh) as (HR & HI & HQ). simpl.
    destruct (alloc_list alloc_lit l h) as [es h']. simpl in *.
    destruct (alloc_step h' (HArr es) HI HQ) as (HR' & HI' & HQ').
    split_and!; [by eapply R_trans|done..].
  - destruct (alloc_props_threads ps IH h Hh) as (HR & HI & HQ). simpl.
    destruct (alloc_props alloc_lit ps h) as [qs h']. simpl in *.
    destruct (alloc_step h' (HObj qs) HI HQ) as (HR' & HI' & HQ').
    split_and!; [by eapply R_trans|done..].
Qed.

End threading.

(** ** Reads and writes through references *)

Section access.
Implicit Types (h : heap) (a x : hval) (l : loc) (k : string)
  (ps : list (string * hval)) (qs : list (string * value)).

Lemma hprops_get_set k k' x ps :
  hprops_get k' (hprops_set k x ps) = if decide (k' = k) then x else hprops_get k' ps.
Proof.
  induction ps as [|[k0 x0] ps IH]; simpl; [done|].
  destruct (decide (k = k0)) as [->|]; simpl; repeat case_decide; congruence.
Qed.

Lemma hprops_set_keys k k' x ps :
  k' ∈ (hprops_set k x ps).*1 <-> k' = k \/ k' ∈ ps.*1.
Proof.
  induction ps as [|[k0 x0] ps IH]; simpl; [set_solver|].
  destruct (decide (k = k0)) as [->|]; simpl; set_solver.
Qed.

(** A write keeps what holds of the value written and of the values
    that were there. *)
Lemma hprops_set_Forall (P : hval -> Prop) k x ps :
  P x -> Forall (fun kx => P kx.2) ps ->
  Forall (fun kx => P kx.2) (hprops_set k x ps).
Proof.
  intros Hx. induction 1 as [|[k' a] ps Ha Hps IH]; simpl.
  - by repeat constructor.
  - case_decide; by constructor.
Qed.

(** Reading the properties of a reified object is reifying the
    properties read. *)
Lemma reify_props f h k ps qs :
  mapM (on_snd (reify f h)) ps = Some qs ->
  reify f h (hprops_get k ps) = Some (obj_get k qs) /\
  bool_decide (k ∈ ps.*1) = obj_has k qs.
Proof.
  rewrite mapM_Some. induction 1 as [|[k1 a] [k2 v] ps qs Hkv _ [IH1 IH2]];
    simpl; [by destruct f|].
  unfold on_snd in Hkv. simpl in Hkv. apply fmap_Some in Hkv as (w & Hw & [= -> ->]).
  destruct (decide (k = k1)) as [->|Hne].
  - split; [done|]. apply bool_decide_eq_true. set_solver.
  - split; [done|]. rewrite <- IH2. apply bool_decide_ext. set_solver.
Qed.

Lemma heap_set_Ok k x l h h' :
  heap_set k x (HRef l) h = Ok h' <->
  exists ps, h !! l = Some (HObj ps) /\ k <> "__proto__" /\
    h' = <[l := HObj (hprops_set k x ps)]> h.
Proof.
  unfold heap_set. destruct (h !! l) as [[es|ps]|]; [naive_solver| |naive_solver].
  case_decide; naive_solver.
Qed.

(** The property written reads back through the same reference. *)
Lemma heap_get_set_eq k x l h h' :
  heap_set k x (HRef l) h = Ok h' -> heap_get k (HRef l) h' = Ok x.
Proof.
  intros (ps & Hl & _ & ->)%heap_set_Ok.
  pose proof (lookup_lt_Some _ _ _ Hl) as Hlt. unfold heap_get.
  rewrite list_lookup_insert_eq by done.
  rewrite bool_decide_eq_true_2 by (apply hprops_set_keys; by left).
  by rewrite hprops_get_set, decide_True.
Qed.

(** A read through a reference, then as a tree, is the read of the
    tree. *)
Lemma heap_get_reify f h k a v :
  reify (S f) h a = Some v ->
  match heap_get k a h with
  | Ok b => exists w, reify f h b = Some w /\ get_prop k v = Ok w
  | Err e => get_prop k v = Err e
  end.
Proof.
  destruct a as [| | | |l]; simpl; try by intros [= <-].
  destruct (h !! l) as [[es|ps]|]; [|  |done].
  - intros (t & _ & ->)%fmap_Some. done.
  - intros (qs & Hqs & ->)%fmap_Some. simpl.
    destruct (reify_props f h k ps qs Hqs) as [Hget <-].
    repeat case_bool_decide; eauto. exists VUndefined. by destruct f.
Qed.

End access.

(** ** Properties of the store *)

(** C29.  Round trip: the reference a literal evaluates to reads back as
    the literal, with fuel the literal's depth, and evaluating the
    literal leaves every object that was already in the heap as it was. *)
Theorem reify_alloc_lit (v : value) (h : heap) :
  reify (depth v) (alloc_lit v h).2 (alloc_lit v h).1 = Some v /\
  (forall l o, h !! l = Some o -> (alloc_lit v h).2 !! l = Some o).
Proof.
  destruct (alloc_lit_ok v h) as [Hp Hr]. split; [by apply Hr|].
  intros l o Hl. by eapply prefix_lookup_Some.
Qed.

(** C31.  A write through a reference updates the object in place: the
    written property reads back through the same location, the other
    properties of that object and every other object of the heap are
    unchanged, and no object is allocated. *)
Theorem heap_set_in_place (h h' : heap) (l : loc) (k : string) (x : hval) :
  heap_set k x (HRef l) h = Ok h' ->
  heap_get k (HRef l) h' = Ok x /\
  (forall k', k' <> k -> heap_get k' (HRef l) h' = heap_get k' (HRef l) h) /\
  (forall l', l' <> l -> h' !! l' = h !! l') /\
  length h' = length h.
Proof.
  intros Hset. split; [by eapply heap_get_set_eq|]. revert Hset.
  intros (ps & Hl & _ & ->)%heap_set_Ok.
  pose proof (lookup_lt_Some _ _ _ Hl) as Hlt. unfold heap_get.
  rewrite list_lookup_insert_eq, Hl by done. split_and!.
  - intros k' Hk. rewrite hprops_get_set, decide_False by done.
    rewrite (bool_decide_ext _ (k' ∈ ps.*1)); [done|].
    rewrite hprops_set_keys. naive_solver.
  - intros l' Hl'. by rewrite list_lookup_insert_ne.
  - by rewrite length_insert.
Qed.

Lemma heap_set_in_place_witness :
  let h' := [HObj [("exports", HRef 1)]; HObj []] in
  heap_get "exports" (HRef 0) h' = Ok (HRef 1) /\
  (forall k', k' <> "exports" ->
     heap_get k' (HRef 0) h' = heap_get k' (HRef 0) [HObj []; HObj []]) /\
  (forall l', l' <> 0 -> h' !! l' = [HObj []; HObj []] !! l') /\
  length h' = length [HObj []; HObj []].
Proof.
  apply (heap_set_in_place [HObj []; HObj []] _ 0 "exports" (HRef 1)).
  reflexivity.
Defined.
