(* ===== verification/HeapInv.v ===== *)
(** Closed heaps: no reference dangles.

    A heap is well formed when every reference stored in one of its
    objects is a location of the heap.  Evaluating a literal, writing a
    property and reading a property all preserve this, whatever the
    heap they start from: [src/website/siteConfig.js] only ever stores
    references to objects it has allocated.  The predicates are
    decidable, so a concrete heap is checked by computation. *)

From S2P Require Import Prelude JsNumber JsValue Heap.

Set Warnings "-clear-no-such-hyp".

(** ** The invariant *)

(** [val_ok n a]: if [a] is a reference, it is below [n]. *)
Definition val_ok (n : nat) (a : hval) : Prop :=
  match a with
  | HRef l => l < n
  | _ => True
  end.

#[export] Instance val_ok_dec n a : Decision (val_ok n a).
Proof. destruct a; simpl; apply _. Defined.

(** [obj_ok n o]: every element or property value of [o] is. *)
Definition obj_ok (n : nat) (o : hobj) : Prop :=
  match o with
  | HArr es => Forall (val_ok n) es
  | HObj ps => Forall (fun kx => val_ok n kx.2) ps
  end.

#[export] Instance obj_ok_dec n o : Decision (obj_ok n o).
Proof. destruct o; simpl; apply _. Defined.

(** A heap whose objects refer to locations of the heap only. *)
Definition wf_heap (h : heap) : Prop := Forall (obj_ok (length h)) h.

#[export] Instance wf_heap_dec h : Decision (wf_heap h).
Proof. unfold wf_heap. apply _. Defined.

(** What [alloc_lit] preserves, for one literal. *)
Definition alloc_closed (v : value) : Prop :=
  forall h : heap, wf_heap h ->
    wf_heap (alloc_lit v h).2 /\
    length h <= length (alloc_lit v h).2 /\
    val_ok (length (alloc_lit v h).2) (alloc_lit v h).1.

(** ** Monotonicity *)

Section mono.
Implicit Types (n m : nat) (a : hval) (o : hobj) (h : heap).

Lemma val_ok_mono n m a : n <= m -> val_ok n a -> val_ok m a.
Proof. destruct a; simpl; [done..|lia]. Qed.

Lemma obj_ok_mono n m o : n <= m -> obj_ok n o -> obj_ok m o.
Proof.
  intros Hnm. destruct o; simpl; apply Forall_impl; eauto using val_ok_mono.
Qed.

Lemma wf_heap_lookup h l o : wf_heap h -> h !! l = Some o -> obj_ok (length h) o.
Proof. intros Hwf Hl. by eapply (Forall_lookup_1 _ _ _ _ Hwf). Qed.

(** Appending a closed object keeps the heap closed. *)
Lemma wf_heap_snoc h o :
  wf_heap h -> obj_ok (S (length h)) o -> wf_heap (h ++ [o]).
Proof.
  unfold wf_heap. intros Hwf Ho. rewrite length_app. simpl.
  replace (length h + 1) with (S (length h)) by lia.
  apply Forall_app. split; [|by constructor].
  eapply Forall_impl; [|exact Hwf]. intros o'. apply obj_ok_mono. lia.
Qed.

Lemma alloc_wf o h :
  wf_heap h -> obj_ok (length h) o ->
  wf_heap (alloc o h).2 /\ val_ok (length (alloc o h).2) (alloc o h).1.
Proof.
  intros Hwf Ho. simpl. split.
  - apply wf_heap_snoc; [done|]. eapply obj_ok_mono; [|done]. lia.
  - rewrite length_app. simpl. lia.
Qed.

End mono.

(** ** Literals *)

Section literals.
Implicit Types (h : heap) (v : value).

Lemma obj_ok_vals n o : obj_ok n o <-> Forall (val_ok n) (vals o).
Proof. destruct o; simpl; [done|]. by rewrite Forall_fmap. Qed.

(** The invariant is threaded through the evaluation of a literal. *)
Lemma alloc_lit_closed v : alloc_closed v.
Proof.
  intros h Hwf.
  cut (length h <= length (alloc_lit v h).2 /\ wf_heap (alloc_lit v h).2 /\
       val_ok (length (alloc_lit v h).2) (alloc_lit v h).1); [tauto|].
  apply (alloc_lit_threads wf_heap (fun h h' => length h <= length h')
           (fun h => val_ok (length h))); [lia|lia| | | |done].
  - intros h1 h2 a. apply val_ok_mono.
  - intros h1 [] Ha; simpl; [done..|]. by destruct (Ha l).
  - intros h1 o Hwf1 Ho%obj_ok_vals.
    destruct (alloc_wf o h1 Hwf1 Ho) as [Hwf2 Hok]. split_and!; [|done..].
    simpl. rewrite length_app. lia.
Qed.

(** One evaluation of a literal, as the statements use it. *)
Lemma alloc_lit_step v h :
  wf_heap h ->
  exists a h', alloc_lit v h = (a, h') /\ wf_heap h' /\
    h `prefix_of` h' /\ val_ok (length h') a.
Proof.
  intros Hwf. destruct (alloc_lit_closed v h Hwf) as (Hwf' & _ & Hok).
  destruct (alloc_lit_ok v h) as [Hp _].
  destruct (alloc_lit v h) as [a h']. by exists a, h'.
Qed.

End literals.

(** ** Reads and writes *)

Section access.
Implicit Types (h : heap) (a x : hval) (k : string)
  (ps : list (string * hval)).

Lemma hprops_get_ok n k ps :
  Forall (fun kx => val_ok n kx.2) ps -> val_ok n (hprops_get k ps).
Proof.
  induction 1 as [|[k' a] ps Ha _ IH]; simpl; [done|]. by case_decide.
Qed.

Lemma hprops_set_ok n k x ps :
  val_ok n x -> Forall (fun kx => val_ok n kx.2) ps ->
  Forall (fun kx => val_ok n kx.2) (hprops_set k x ps).
Proof. apply (hprops_set_Forall (val_ok n)). Qed.

Lemma heap_set_length k x a h h' :
  heap_set k x a h = Ok h' -> length h' = length h.
Proof.
  destruct a as [| | | |l]; simpl; try by intros [= <-].
  destruct (h !! l) as [[|ps]|]; try done. case_decide; [done|].
  intros [= <-]. by rewrite length_insert.
Qed.

Lemma heap_set_closed k x a h h' :
  wf_heap h -> val_ok (length h) x -> heap_set k x a h = Ok h' -> wf_heap h'.
Proof.
  intros Hwf Hx Hset. pose proof (heap_set_length _ _ _ _ _ Hset) as Hlen.
  destruct a as [| | | |l]; simpl in Hset; try done;
    try by injection Hset as <-.
  destruct (h !! l) as [[|ps]|] eqn:Hl; try done. case_decide; [done|].
  injection Hset as <-. unfold wf_heap. rewrite Hlen.
  apply Forall_insert; [done|]. simpl. apply hprops_set_ok; [done|].
  apply (wf_heap_lookup h l (HObj ps) Hwf Hl).
Qed.

Lemma heap_get_closed k a b h :
  wf_heap h -> heap_get k a h = Ok b -> val_ok (length h) b.
Proof.
  intros Hwf. destruct a as [| | | |l]; simpl; try done.
  destruct (h !! l) as [[|ps]|] eqn:Hl; try done.
  repeat case_bool_decide; try done; intros [= <-]; [|done].
  apply hprops_get_ok, (wf_heap_lookup h l (HObj ps) Hwf Hl).
Qed.

Lemma heap_index_closed i a b h :
  wf_heap h -> heap_index i a h = Ok b -> val_ok (length h) b.
Proof.
  intros Hwf. destruct a as [| | | |l]; simpl; try done.
  destruct (h !! l) as [[es|]|] eqn:Hl; try done. intros [= <-].
  pose proof (wf_heap_lookup h l (HArr es) Hwf Hl) as Hes. simpl in Hes.
  destruct (es !! i) as [b|] eqn:Hi; [|done].
  by eapply (Forall_lookup_1 _ _ _ _ Hes).
Qed.

End access.

(** ** Properties *)

(** C30.  Every operation of the store keeps the heap closed: from a
    heap without dangling references, evaluating a literal yields such
    a heap, at least as long, and a value that is valid in it; a write
    of a valid value yields such a heap of the same length; a property
    read or an element read yields a value that is valid in the heap. *)
Theorem store_stays_closed (h : heap) :
  wf_heap h ->
  (forall v, wf_heap (alloc_lit v h).2 /\
     length h <= length (alloc_lit v h).2 /\
     val_ok (length (alloc_lit v h).2) (alloc_lit v h).1) /\
  (forall k x a h', val_ok (length h) x -> heap_set k x a h = Ok h' ->
     wf_heap h' /\ length h' = length h) /\
  (forall k a b, heap_get k a h = Ok b -> val_ok (length h) b) /\
  (forall i a b, heap_index i a h = Ok b -> val_ok (length h) b).
Proof.
  intros Hwf. split_and!.
  - intros v. by apply alloc_lit_closed.
  - eauto using heap_set_closed, heap_set_length.
  - eauto using heap_get_closed.
  - eauto using heap_index_closed.
Qed.

Lemma store_stays_closed_witness :
  let h := [HObj []; HObj [("exports", HRef 0)]] in
  (forall v, wf_heap (alloc_lit v h).2 /\
     length h <= length (alloc_lit v h).2 /\
     val_ok (length (alloc_lit v h).2) (alloc_lit v h).1) /\
  (forall k x a h', val_ok (length h) x -> heap_set k x a h = Ok h' ->
     wf_heap h' /\ length h' = length h) /\
  (forall k a b, heap_get k a h = Ok b -> val_ok (length h) b) /\
  (forall i a b, heap_index i a h = Ok b -> val_ok (length h) b).
Proof.
  apply (store_stays_closed [HObj []; HObj [("exports", HRef 0)]]).
  by apply (bool_decide_unpack _).
Defined.
