(* ===== verification/HeapFrame.v ===== *)
(** Locality of the store: what a write can and cannot change.

    The tree model of [JsValue] copies an object wherever it is used;
    the store of [Heap] shares it.  The two agree on a write
    [a.k = x] as long as nothing else refers to the object written:
    then the write changes what [a] reads as, as [set_prop] says, and
    nothing else.  This file states that condition ([unreferenced]),
    shows that evaluating a literal keeps it, because a literal refers
    only to the objects it allocates ([alloc_lit_fresh]), and proves
    that a write under it is the write of the tree model
    ([write_simulates]). *)

From stdpp Require Import sets.
From S2P Require Import Prelude JsNumber JsValue Heap.

Set Warnings "-clear-no-such-hyp".

(** ** Definitions *)

(** [a] is not the reference [l]. *)
Definition avoids (l : loc) (a : hval) : Prop := a <> HRef l.

#[export] Instance avoids_dec l a : Decision (avoids l a).
Proof. unfold avoids. apply _. Defined.

(** No object of the heap holds a reference to [l]. *)
Definition unreferenced (l : loc) (h : heap) : Prop :=
  Forall (fun o => Forall (avoids l) (vals o)) h.

#[export] Instance unreferenced_dec l h : Decision (unreferenced l h).
Proof. unfold unreferenced. apply _. Defined.

(** [a] is not a reference to a location below [n]. *)
Definition val_fresh (n : nat) (a : hval) : Prop :=
  match a with
  | HRef l => n <= l
  | _ => True
  end.

(** [h'] extends [h] with objects that refer to no location below [n]. *)
Definition grows_fresh (n : nat) (h h' : heap) : Prop :=
  exists ext, h' = h ++ ext /\
    Forall (fun o => Forall (val_fresh n) (vals o)) ext.

(** In the heap [h], the value [a] reads as the tree [v]. *)
Definition reads_as (h : heap) (a : hval) (v : value) : Prop :=
  exists f, reify f h a = Some v.

(** Properties read alike, name by name. *)
Definition props_read_as (h : heap) (ps : list (string * hval))
    (qs : list (string * value)) : Prop :=
  Forall2 (fun ka kv => ka.1 = kv.1 /\ reads_as h ka.2 kv.2) ps qs.

(** ** Fresh growth *)

Section fresh.
Implicit Types (n l : nat) (a : hval) (o : hobj) (h : heap) (v : value).

Lemma val_fresh_avoids l n a : l < n -> val_fresh n a -> avoids l a.
Proof. intros Hl Ha ->. simpl in Ha. lia. Qed.

Lemma grows_fresh_refl n h : grows_fresh n h h.
Proof. exists []. by rewrite app_nil_r. Qed.

Lemma grows_fresh_trans n h1 h2 h3 :
  grows_fresh n h1 h2 -> grows_fresh n h2 h3 -> grows_fresh n h1 h3.
Proof.
  intros (e1 & -> & H1) (e2 & -> & H2). exists (e1 ++ e2).
  split; [by rewrite app_assoc|by apply Forall_app].
Qed.

Lemma grows_fresh_prefix n h h' : grows_fresh n h h' -> h `prefix_of` h'.
Proof. intros (ext & -> & _). by exists ext. Qed.

(** A literal refers to the objects it allocates, and to no other. *)
Lemma alloc_lit_fresh n v h :
  n <= length h ->
  grows_fresh n h (alloc_lit v h).2 /\ val_fresh n (alloc_lit v h).1.
Proof.
  intros Hn.
  cut (grows_fresh n h (alloc_lit v h).2 /\ n <= length (alloc_lit v h).2 /\
       val_fresh n (alloc_lit v h).1); [tauto|].
  apply (alloc_lit_threads (fun h => n <= length h) (grows_fresh n)
           (fun _ => val_fresh n));
    [apply grows_fresh_refl|apply grows_fresh_trans|done| | |done].
  - intros _ [] Ha; simpl; [done..|]. by destruct (Ha l).
  - intros h1 o Hn1 Ho. simpl. rewrite length_app. split_and!; [|lia..].
    exists [o]. split; [done|]. by constructor.
Qed.

Lemma unreferenced_snoc l h o :
  unreferenced l h -> Forall (avoids l) (vals o) -> unreferenced l (h ++ [o]).
Proof. intros Hh Ho. apply Forall_app. split; [done|by constructor]. Qed.

(** Fresh growth keeps an old location unreferenced. *)
Lemma unreferenced_grows l n h h' :
  l < n -> unreferenced l h -> grows_fresh n h h' -> unreferenced l h'.
Proof.
  intros Hl Hh (ext & -> & Hext). apply Forall_app. split; [done|].
  eapply Forall_impl; [|exact Hext]. intros o. simpl. apply Forall_impl.
  intros a. by apply val_fresh_avoids.
Qed.

End fresh.

(** ** Reading *)

Section reads.
Implicit Types (l : loc) (a : hval) (h : heap) (v : value)
  (ps : list (string * hval)) (qs : list (string * value)).

Lemma reads_as_mono h h' a v :
  h `prefix_of` h' -> reads_as h a v -> reads_as h' a v.
Proof. intros Hp [f Hf]. exists f. by eapply reify_mono. Qed.

Lemma reads_as_lit v h : reads_as (alloc_lit v h).2 (alloc_lit v h).1 v.
Proof. exists (depth v). by apply alloc_lit_ok. Qed.

Lemma reads_as_str h s : reads_as h (HStr s) (VStr s).
Proof. by exists 0. Qed.

(** What a reference reads as is read from the object it refers to. *)
Lemma reads_as_ref h l v :
  reads_as h (HRef l) v ->
  exists o f, h !! l = Some o /\
    match o with
    | HArr es => VArr <$> mapM (reify f h) es
    | HObj ps => VObj <$> mapM (on_snd (reify f h)) ps
    end = Some v.
Proof.
  intros [[|f] Hf]; [done|]. simpl in Hf.
  destruct (h !! l) as [o|]; [|done]. by exists o, f.
Qed.

(** Finitely many readings share their fuel. *)
Lemma props_read_as_fuel h ps qs :
  props_read_as h ps qs -> exists f, mapM (on_snd (reify f h)) ps = Some qs.
Proof.
  induction 1 as [|[k a] [k' v] ps qs [Hk [f1 Hv]] _ [f2 IH]]; [by exists 0|].
  simpl in Hk. subst k'. exists (f1 `max` f2). apply mapM_Some.
  constructor.
  - unfold on_snd. simpl. erewrite reify_mono; [done| |done|exact Hv]. lia.
  - apply mapM_Some. eapply reify_props_mono; [|done|exact IH]. lia.
Qed.

Lemma reads_as_obj h l ps qs :
  h !! l = Some (HObj ps) -> props_read_as h ps qs ->
  reads_as h (HRef l) (VObj qs).
Proof.
  intros Hl [f Hf]%props_read_as_fuel. exists (S f). simpl. by rewrite Hl, Hf.
Qed.

End reads.

(** ** Writing *)

Section writes.
Implicit Types (l : loc) (a x : hval) (o : hobj) (h : heap) (v w : value)
  (k : string) (ps : list (string * hval)) (qs : list (string * value)).

(** What does not mention [l] reads the same whatever is stored at [l]. *)
Lemma reify_insert_avoids l o h f : forall a,
  unreferenced l h -> avoids l a ->
  reify f (<[l := o]> h) a = reify f h a.
Proof.
  induction f as [|f IH]; intros [| | | |l'] Hh Ha; simpl; try done.
  rewrite list_lookup_insert_ne by congruence.
  destruct (h !! l') as [o'|] eqn:Hl'; [|done].
  pose proof (Forall_lookup_1 _ _ _ _ Hh Hl') as Ho'. simpl in Ho'.
  destruct o' as [es|ps]; simpl in Ho'; f_equal; apply Forall_mapM_ext.
  - eapply Forall_impl; [|exact Ho']. intros a. by apply IH.
  - rewrite Forall_fmap in Ho'. eapply Forall_impl; [|exact Ho'].
    intros [k a] Hka. unfold on_snd. simpl in *. by rewrite IH.
Qed.

(** Writing a property, then reading the object: the read of the object
    with the property set. *)
Lemma hprops_set_reify f h k x w ps qs :
  reify f h x = Some w ->
  mapM (on_snd (reify f h)) ps = Some qs ->
  mapM (on_snd (reify f h)) (hprops_set k x ps) = Some (obj_set k w qs).
Proof.
  intros Hx. rewrite !mapM_Some.
  induction 1 as [|[k1 a] [k2 v] ps qs Hkv Hrest IH]; simpl.
  - repeat constructor. unfold on_snd. simpl. by rewrite Hx.
  - unfold on_snd in Hkv. simpl in Hkv.
    apply fmap_Some in Hkv as (v' & Hv & [= -> ->]).
    case_decide; constructor; try done; unfold on_snd; simpl;
      by rewrite ?Hx, ?Hv.
Qed.

Lemma hprops_set_avoids l k x ps :
  avoids l x -> Forall (avoids l) ps.*2 -> Forall (avoids l) (hprops_set k x ps).*2.
Proof. rewrite !Forall_fmap. apply (hprops_set_Forall (avoids l)). Qed.

Lemma mapM_insert_avoids l o h f ps :
  unreferenced l h -> Forall (avoids l) ps.*2 ->
  mapM (on_snd (reify f (<[l := o]> h))) ps = mapM (on_snd (reify f h)) ps.
Proof.
  intros Hh Hps. apply Forall_mapM_ext. rewrite Forall_fmap in Hps.
  eapply Forall_impl; [|exact Hps]. intros [k a] Ha. unfold on_snd.
  simpl in *. by rewrite reify_insert_avoids.
Qed.

(** A write to an object nothing refers to is the write of the tree
    model: it fails when [set_prop] fails, with the same error;
    otherwise the object reads as [set_prop] says, everything that is
    not a reference to it reads as before, and it is still unreferenced. *)
Lemma write_simulates l h k x v w :
  unreferenced l h -> avoids l x ->
  reads_as h (HRef l) v -> reads_as h x w ->
  match heap_set k x (HRef l) h with
  | Ok h' =>
      exists v', set_prop k w v = Ok v' /\ reads_as h' (HRef l) v' /\
        unreferenced l h' /\
        forall a u, avoids l a -> reads_as h a u -> reads_as h' a u
  | Err e => set_prop k w v = Err e
  end.
Proof.
  intros Hh Hx Hv [f2 Hw]. destruct (reads_as_ref h l v Hv) as (o & f1 & Hl & Ho).
  simpl. rewrite Hl. destruct o as [es|ps].
  { apply fmap_Some in Ho as (t & _ & ->). done. }
  apply fmap_Some in Ho as (qs & Hqs & ->). simpl. case_decide; [done|].
  pose proof (Forall_lookup_1 _ _ _ _ Hh Hl) as Hps. simpl in Hps.
  pose proof (hprops_set_avoids l k x ps Hx Hps) as Hps'.
  eexists. split; [done|]. split_and!.
  - exists (S (f1 `max` f2)). simpl.
    rewrite list_lookup_insert_eq by (by eapply lookup_lt_Some).
    rewrite mapM_insert_avoids by done.
    erewrite hprops_set_reify; [done| |].
    + eapply reify_mono; [|done|exact Hw]. lia.
    + eapply reify_props_mono; [|done|exact Hqs]. lia.
  - by apply Forall_insert.
  - intros a u Ha [f Hf]. exists f. by rewrite reify_insert_avoids.
Qed.

End writes.

(** ** Properties *)

(** C28.  A write to an object nothing else refers to, followed by a
    read through the same reference, is the write and the read of the
    tree model: [set_prop] succeeds on the tree the object read as, and
    the property read from the store reads as the property of the
    updated tree, or fails with the same error. *)
Theorem write_then_read (l : loc) (h h' : heap) (k k' : string) (x : hval)
    (v w : value) :
  unreferenced l h -> avoids l x ->
  reads_as h (HRef l) v -> reads_as h x w ->
  heap_set k x (HRef l) h = Ok h' ->
  exists v', set_prop k w v = Ok v' /\
    match heap_get k' (HRef l) h' with
    | Ok b => exists u, reads_as h' b u /\ get_prop k' v' = Ok u
    | Err e => get_prop k' v' = Err e
    end.
Proof.
  intros Hh Hx Hv Hw Hset.
  pose proof (write_simulates l h k x v w Hh Hx Hv Hw) as Hsim.
  rewrite Hset in Hsim. destruct Hsim as (v' & Hv' & [[|f] Hf] & _); [done|].
  exists v'. split; [done|].
  pose proof (heap_get_reify f h' k' (HRef l) v' Hf) as Hget.
  destruct (heap_get k' (HRef l) h') as [b|e]; [|done].
  destruct Hget as (u & Hu & Hg). exists u. split; [by exists f|done].
Qed.

Lemma write_then_read_witness :
  exists v',
    set_prop "exports" (VStr "x") (VObj [("exports", VObj [])]) = Ok v' /\
    match heap_get "exports" (HRef 1)
            [HObj []; HObj [("exports", HStr "x")]] with
    | Ok b =>
        exists u, reads_as [HObj []; HObj [("exports", HStr "x")]] b u /\
          get_prop "exports" v' = Ok u
    | Err e => get_prop "exports" v' = Err e
    end.
Proof.
  apply (write_then_read 1 [HObj []; HObj [("exports", HRef 0)]] _
           "exports" "exports" (HStr "x")).
  - by apply (bool_decide_unpack _).
  - done.
  - by exists 2.
  - by exists 0.
  - reflexivity.
Defined.
