(* ===== verification/JsModule.v ===== *)
(** The environment a CommonJS module body runs in.

    Node wraps the text of [src/website/siteConfig.js] in a function
    whose parameter [module] is bound to an object with an [exports]
    property; [require] returns [module.exports] once the body has run.
    The body's own bindings are the [const] declarations of lines 9 and
    18.  [scope] is the resulting lexical scope; [Host] is what the body
    observes of the outside world: the clock read by
    [new Date().getFullYear()] on line 43. *)

From stdpp Require Import gmap.
From S2P Require Import Prelude JsNumber JsValue.

Set Warnings "-clear-no-such-hyp".

(** ** Scope and host *)

Abbreviation scope := (gmap string value).

(** Years a valid [Date] can denote (time values within 8.64e15 ms of
    the epoch). *)
Definition year_in_range (y : Z) : Prop := (-271821 <= y <= 275760)%Z.

#[export] Instance year_in_range_dec y : Decision (year_in_range y).
Proof. unfold year_in_range. apply _. Defined.

(** The host: what [new Date().getFullYear()] returns, the calendar year
    of the current instant in local time.  [new Date()] is always a
    valid date, so the year is in range. *)
Record Host : Type := {
  fullYear : Z;
  fullYear_valid : bool_decide (year_in_range fullYear) = true
}.

(** The host whose clock reads year [y]. *)
Definition host_of_year (y : Z) (Hy : year_in_range y) : Host :=
  {| fullYear := y; fullYear_valid := bool_decide_eq_true_2 _ Hy |}.

(** Evaluating an identifier: an unbound (or not yet initialised) name
    throws [ReferenceError]. *)
Definition lookup_ident (x : string) (σ : scope) : result JsError value :=
  match σ !! x with
  | Some v => Ok v
  | None => Err (ReferenceError x)
  end.

(** [const x = v]: a second declaration of [x] in the same scope is
    rejected.  JavaScript rejects it before the body runs (an early
    error); here the check is made when the declaration is evaluated,
    which the two distinct names of the file cannot tell apart. *)
Definition declare_const (x : string) (v : value) (σ : scope)
  : result JsError scope :=
  match σ !! x with
  | Some _ =>
      Err (SyntaxError ("Identifier '" +:+ x +:+ "' has already been declared"))
  | None => Ok (<[x := v]> σ)
  end.

(** [x.k = v]: the object bound to [x] is updated in place, so every later
    read through [x] sees the write. *)
Definition assign_prop (x k : string) (v : value) (σ : scope)
  : result JsError scope :=
  let* o := lookup_ident x σ in
  let* o' := set_prop k v o in
  Ok (<[x := o']> σ).

(** The scope at the start of the module body.  Of the parameters of
    the CommonJS wrapper ([exports], [require], [module], [__filename],
    [__dirname]) only [module] is bound: the body mentions no other. *)
Definition module_scope : scope :=
  {[ "module" := VObj [("exports", VObj [])] ]}.

(** What [require] hands to the caller after the body has run. *)
Definition require_result (σ : scope) : result JsError value :=
  let* m := lookup_ident "module" σ in
  get_prop "exports" m.

(** ** Laws *)

Lemma fullYear_range (h : Host) : year_in_range (fullYear h).
Proof. eapply bool_decide_eq_true_1, fullYear_valid. Qed.

Lemma year_representable y : year_in_range y -> representable (VNum y) = true.
Proof.
  unfold year_in_range, representable, safe_integer. intros Hy.
  apply andb_true_intro. split; apply Z.leb_le; lia.
Qed.

Section scope_laws.
Implicit Types (x y k : string) (v : value) (σ : scope).

Lemma lookup_ident_Ok x σ v : lookup_ident x σ = Ok v <-> σ !! x = Some v.
Proof. unfold lookup_ident. destruct (σ !! x); naive_solver. Qed.

Lemma lookup_ident_Err x σ e :
  lookup_ident x σ = Err e <-> σ !! x = None /\ e = ReferenceError x.
Proof. unfold lookup_ident. destruct (σ !! x); naive_solver. Qed.

Lemma declare_const_Ok x v σ σ' :
  declare_const x v σ = Ok σ' <-> σ !! x = None /\ σ' = <[x := v]> σ.
Proof. unfold declare_const. destruct (σ !! x); naive_solver. Qed.

Lemma assign_prop_Ok x k v σ ps :
  σ !! x = Some (VObj ps) -> k <> "__proto__" ->
  assign_prop x k v σ = Ok (<[x := VObj (obj_set k v ps)]> σ).
Proof.
  intros Hx Hk. unfold assign_prop, lookup_ident. rewrite Hx. simpl.
  by rewrite decide_False.
Qed.

End scope_laws.
