(* ===== verification/SiteConfig.v ===== *)
(** The module [src/website/siteConfig.js].

    The literals of the file are the definitions [users], [headerLinks],
    [colors], [highlight], [scripts]; the two expressions that read
    their environment are [copyright] (the host clock) and [siteConfig]
    (the binding [users] and [copyright]).  The three statements of the
    module body are [stmt_users], [stmt_siteConfig], [stmt_exports];
    [run_module] runs them in source order and [module_exports] is what
    [require] returns.  [exported] is the closed form of that value, and
    [copyright_text] the closed form of the copyright string. *)

From stdpp Require Import gmap.
From S2P Require Import Prelude JsNumber JsValue JsModule.

Set Warnings "-clear-no-such-hyp".

(** ** The literals *)

(** Lines 9-16. *)
Definition users : value :=
  VArr [
    obj_lit [
      ("caption", VStr "User1");
      ("image", VStr "/test-site/img/docusaurus.svg");
      ("infoLink", VStr "https://www.facebook.com");
      ("pinned", VBool true)
    ]
  ].

(** Lines 24-29. *)
Definition headerLinks : value :=
  VArr [
    obj_lit [("doc", VStr "quickstart"); ("label", VStr "Getting Started")];
    obj_lit [("doc", VStr "overview"); ("label", VStr "Docs")];
    obj_lit [("page", VStr "help"); ("label", VStr "Help")];
    obj_lit [("blog", VBool true); ("label", VStr "Blog")]
  ].

(** Lines 36-39. *)
Definition colors : value :=
  obj_lit [
    ("primaryColor", VStr "#0287ee");
    ("secondaryColor", VStr "#02eede")
  ].

(** Lines 47-50. *)
Definition highlight : value := obj_lit [("theme", VStr "default")].

(** Line 51. *)
Definition scripts : value := VArr [VStr "https://buttons.github.io/buttons.js"].

(** The two string literals of lines 42 and 44.  The copyright sign is
    the single code unit 169. *)
Definition copyright_prefix : string := "Copyright " +:+ String "169" " ".
Definition copyright_owner : string := "Scott F. Swarthout".

(** Lines 41-44: ['Copyright © ' + new Date().getFullYear() + 'Scott F.
    Swarthout'], the two [+] associated to the left. *)
Definition copyright (h : Host) : result JsError value :=
  let* lhs := js_add (VStr copyright_prefix) (VNum (fullYear h)) in
  js_add lhs (VStr copyright_owner).

(** Lines 18-54: the object literal, its property values evaluated in
    source order.  The shorthand property [users] (line 30) reads the
    binding of that name. *)
Definition siteConfig (h : Host) (σ : scope) : result JsError value :=
  let* users_binding := lookup_ident "users" σ in
  let* copyright_value := copyright h in
  Ok (obj_lit [
    ("title", VStr "Aktoro Lang");
    ("tagline", VStr "An Expressive Language for the Golang Ecosystem");
    ("url", VStr "https://aktoro-lang.github.io");
    ("baseUrl", VStr "/test-site/");
    ("projectName", VStr "aktoro-lang");
    ("headerLinks", headerLinks);
    ("users", users_binding);
    ("headerIcon", VStr "img/logo-plain.svg");
    ("footerIcon", VStr "img/logo.png");
    ("favicon", VStr "img/logo.png");
    ("colors", colors);
    ("copyright", copyright_value);
    ("highlight", highlight);
    ("scripts", scripts);
    ("repoUrl", VStr "https://github.com/facebook/test-site")
  ]).

(** ** The statements *)

(** Line 9: [const users = [...]]. *)
Definition stmt_users (σ : scope) : result JsError scope :=
  declare_const "users" users σ.

(** Line 18: [const siteConfig = {...}]. *)
Definition stmt_siteConfig (h : Host) (σ : scope) : result JsError scope :=
  let* v := siteConfig h σ in
  declare_const "siteConfig" v σ.

(** Line 56: [module.exports = siteConfig].  The base [module] of the
    assignment target is evaluated before the right-hand side. *)
Definition stmt_exports (σ : scope) : result JsError scope :=
  let* _ := lookup_ident "module" σ in
  let* v := lookup_ident "siteConfig" σ in
  assign_prop "module" "exports" v σ.

(** The module body, in source order. *)
Definition run_module (h : Host) : result JsError scope :=
  let* σ1 := stmt_users module_scope in
  let* σ2 := stmt_siteConfig h σ1 in
  stmt_exports σ2.

(** What [require('./siteConfig.js')] evaluates to. *)
Definition module_exports (h : Host) : result JsError value :=
  let* σ := run_module h in
  require_result σ.

(** ** Closed forms

    What the module computes, as a function of the year alone: the
    copyright string, and the exported object as the list of its own
    properties in source order, each literal standing for its value. *)

Definition copyright_text (y : Z) : string :=
  copyright_prefix +:+ Number_toString y +:+ copyright_owner.

Definition exported_props (y : Z) : list (string * value) :=
  [
    ("title", VStr "Aktoro Lang");
    ("tagline", VStr "An Expressive Language for the Golang Ecosystem");
    ("url", VStr "https://aktoro-lang.github.io");
    ("baseUrl", VStr "/test-site/");
    ("projectName", VStr "aktoro-lang");
    ("headerLinks", headerLinks);
    ("users", users);
    ("headerIcon", VStr "img/logo-plain.svg");
    ("footerIcon", VStr "img/logo.png");
    ("favicon", VStr "img/logo.png");
    ("colors", colors);
    ("copyright", VStr (copyright_text y));
    ("highlight", highlight);
    ("scripts", scripts);
    ("repoUrl", VStr "https://github.com/facebook/test-site")
  ].

Definition exported (y : Z) : value := VObj (exported_props y).

(** The scope the module body ends in. *)
Definition final_scope (y : Z) : scope :=
  <["module" := VObj [("exports", exported y)]]>
    (<["siteConfig" := exported y]> (<["users" := users]> module_scope)).

(** Reading the year back out of a copyright string: drop the prefix and
    the owner, parse what is left. *)
Definition year_of_copyright (s : string) : option Z :=
  parse_decimal
    (String.substring (String.length copyright_prefix)
       (String.length s - String.length copyright_prefix
        - String.length copyright_owner) s).

(** ** The copyright string *)

Section copyright.
Implicit Types (h : Host) (y : Z).

Lemma copyright_prefix_length : String.length copyright_prefix = 12.
Proof. reflexivity. Qed.

Lemma copyright_owner_length : String.length copyright_owner = 18.
Proof. reflexivity. Qed.

Lemma copyright_eq h : copyright h = Ok (VStr (copyright_text (fullYear h))).
Proof.
  unfold copyright, copyright_text.
  rewrite js_add_str_l by apply year_representable, fullYear_range. simpl.
  by rewrite js_add_str_str, string_app_assoc.
Qed.

Lemma copyright_text_length y :
  String.length (copyright_text y) = 30 + String.length (Number_toString y).
Proof.
  unfold copyright_text. rewrite !string_length_app.
  rewrite copyright_prefix_length, copyright_owner_length. lia.
Qed.

Lemma substring_app_middle s t u :
  String.substring (String.length s) (String.length t) (s +:+ t +:+ u) = t.
Proof.
  induction s as [|c s IH]; [|by rewrite string_app_cons].
  rewrite string_app_nil_l. simpl. revert u.
  induction t as [|c t IH]; intros u; [by destruct u|].
  rewrite string_app_cons. simpl. by rewrite IH.
Qed.

Lemma year_of_copyright_text y : year_of_copyright (copyright_text y) = Some y.
Proof.
  unfold year_of_copyright. rewrite copyright_text_length.
  rewrite copyright_prefix_length, copyright_owner_length.
  replace (30 + String.length (Number_toString y) - 12 - 18)
    with (String.length (Number_toString y)) by lia.
  rewrite <- copyright_prefix_length. unfold copyright_text.
  rewrite substring_app_middle. apply parse_Number_toString.
Qed.

End copyright.

(** ** Running the module *)

Section run.
Implicit Types (h : Host) (σ : scope).

Lemma siteConfig_eq h σ :
  σ !! "users" = Some users -> siteConfig h σ = Ok (exported (fullYear h)).
Proof.
  intros Hu. unfold siteConfig, lookup_ident. rewrite Hu, copyright_eq. simpl.
  unfold exported, exported_props.
  generalize (copyright_text (fullYear h)). intros s. reflexivity.
Qed.

Lemma siteConfig_unbound h σ :
  σ !! "users" = None -> siteConfig h σ = Err (ReferenceError "users").
Proof. intros Hu. unfold siteConfig, lookup_ident. by rewrite Hu. Qed.

Lemma stmt_users_spec σ :
  σ !! "users" = None -> stmt_users σ = Ok (<["users" := users]> σ).
Proof. intros Hu. unfold stmt_users, declare_const. by rewrite Hu. Qed.

Lemma stmt_siteConfig_spec h σ :
  σ !! "users" = Some users -> σ !! "siteConfig" = None ->
  stmt_siteConfig h σ = Ok (<["siteConfig" := exported (fullYear h)]> σ).
Proof.
  intros Hu Hs. unfold stmt_siteConfig. rewrite siteConfig_eq by done. simpl.
  unfold declare_const. by rewrite Hs.
Qed.

Lemma stmt_exports_spec σ v ps :
  σ !! "module" = Some (VObj ps) -> σ !! "siteConfig" = Some v ->
  stmt_exports σ = Ok (<["module" := VObj (obj_set "exports" v ps)]> σ).
Proof.
  intros Hm Hs. unfold stmt_exports, lookup_ident. rewrite Hm, Hs. simpl.
  by apply assign_prop_Ok.
Qed.

Lemma run_module_eq h : run_module h = Ok (final_scope (fullYear h)).
Proof.
  unfold run_module. rewrite stmt_users_spec by done. simpl.
  rewrite stmt_siteConfig_spec by done. simpl.
  by erewrite stmt_exports_spec by done.
Qed.

Lemma require_result_final y : require_result (final_scope y) = Ok (exported y).
Proof. done. Qed.

End run.

(** ** The module as a whole *)

Section module.
Implicit Types (h : Host) (σ : scope) (y : Z).

Lemma module_exports_eq h : module_exports h = Ok (exported (fullYear h)).
Proof.
  unfold module_exports. rewrite run_module_eq. simpl.
  apply require_result_final.
Qed.

Lemma module_exports_inv h v :
  module_exports h = Ok v -> v = exported (fullYear h).
Proof. rewrite module_exports_eq. by intros [= <-]. Qed.

(** Only the [copyright] property depends on the clock. *)
Lemma exported_frame y1 y2 k :
  k <> "copyright" ->
  obj_get k (exported_props y1) = obj_get k (exported_props y2).
Proof.
  intros Hk. unfold exported_props. simpl.
  repeat (case_decide; [done|]). done.
Qed.

Lemma exported_has y1 y2 k :
  obj_has k (exported_props y1) = obj_has k (exported_props y2).
Proof. reflexivity. Qed.

Lemma exported_copyright y :
  obj_get "copyright" (exported_props y) = VStr (copyright_text y).
Proof. done. Qed.

Lemma copyright_text_inj y1 y2 : copyright_text y1 = copyright_text y2 -> y1 = y2.
Proof.
  unfold copyright_text. intros H%(inj (String.app _)).
  by apply string_app_inv_tail, (inj Number_toString) in H.
Qed.

Lemma exported_inj y1 y2 : exported y1 = exported y2 -> y1 = y2.
Proof.
  unfold exported, exported_props. intros H. apply copyright_text_inj.
  congruence.
Qed.

End module.

(** ** The year and the owner's name *)

Lemma digits_last n :
  (0 <= n)%Z -> exists s d, is_digit d = true /\ digits n = s +:+ String d "".
Proof.
  intros Hn. destruct (Z_lt_le_dec n 10).
  - exists "", (digit_char n). rewrite digits_small by lia.
    split; [apply is_digit_digit_char; lia|done].
  - exists (digits (n / 10)), (digit_char (n mod 10)). rewrite digits_step by done.
    split; [apply is_digit_digit_char; auto with js|done].
Qed.

Lemma Number_toString_last n :
  exists s d, is_digit d = true /\ Number_toString n = s +:+ String d "".
Proof.
  destruct (Z_lt_le_dec n 0).
  - destruct (digits_last (- n)%Z ltac:(lia)) as (s & d & Hd & Hs).
    exists (String "-" s), d. rewrite Number_toString_neg, Hs by done. done.
  - destruct (digits_last n ltac:(lia)) as (s & d & Hd & Hs).
    exists s, d. by rewrite Number_toString_nonneg, Hs.
Qed.

Lemma copyright_text_glued y s d :
  Number_toString y = s +:+ String d "" ->
  copyright_text y = copyright_prefix +:+ s +:+ String d "Scott F. Swarthout".
Proof. intros Hs. unfold copyright_text. by rewrite Hs, string_app_assoc. Qed.

(** ** Properties of the module *)

(** C1.  Evaluating the module never throws: for every clock reading the
    three statements run to completion in some scope, [require] returns
    exactly the object [exported y], where [y] is the year the clock
    reads, and in that scope the constant [siteConfig] is bound to the
    exported object and the constant [users] to the value of its
    [users] property. *)
Theorem module_exports_ok (h : Host) :
  exists σ : scope,
    run_module h = Ok σ /\
    module_exports h = Ok (exported (fullYear h)) /\
    lookup_ident "siteConfig" σ = module_exports h /\
    lookup_ident "users" σ = get_prop "users" (exported (fullYear h)).
Proof.
  exists (final_scope (fullYear h)). rewrite module_exports_eq.
  split_and!; [apply run_module_eq|done..].
Qed.

(** C3.  In the copyright string the last digit of the year is directly
    followed by the S of the owner's name: the year's rendering ends in
    a digit [d], and the string is the prefix, the year up to [d], then
    [d] and "Scott F. Swarthout" with nothing between them, because the
    concatenation on lines 42-44 puts no separator there. *)
Theorem copyright_year_glued (h : Host) :
  exists s d, is_digit d = true /\
    Number_toString (fullYear h) = s +:+ String d "" /\
    copyright h
    = Ok (VStr (copyright_prefix +:+ s +:+ String d "Scott F. Swarthout")).
Proof.
  destruct (Number_toString_last (fullYear h)) as (s & d & Hd & Hs).
  exists s, d. split_and!; [done..|].
  by rewrite copyright_eq, (copyright_text_glued _ s d).
Qed.

(** C7.  The literal of line 18 reads the binding [users]: evaluated in
    a scope where [users] is not declared (that is, with the first two
    statements swapped) the statement throws [ReferenceError] and
    declares nothing. *)
Theorem siteConfig_needs_users (h : Host) (σ : scope) :
  σ !! "users" = None ->
  stmt_siteConfig h σ = Err (ReferenceError "users").
Proof. intros Hu. unfold stmt_siteConfig. by rewrite siteConfig_unbound. Qed.

Lemma siteConfig_needs_users_witness :
  stmt_siteConfig (Build_Host 2018 eq_refl) module_scope
  = Err (ReferenceError "users").
Proof. apply siteConfig_needs_users. reflexivity. Defined.

(** C19.  The year can be read back from the copyright string: stripping
    the prefix and the owner's name and parsing the rest as a decimal
    number gives the year the clock read. *)
Theorem copyright_year_roundtrip (h : Host) :
  exists s, copyright h = Ok (VStr s) /\
    year_of_copyright s = Some (fullYear h).
Proof.
  exists (copyright_text (fullYear h)).
  split; [apply copyright_eq|apply year_of_copyright_text].
Qed.

(** C20.  Whatever the clock reads (a [Date] denotes a year between
    -271821 and 275760) the copyright string has between 31 and 37 code
    units, and exactly 34 for a four-digit year. *)
Theorem copyright_length_bounds (h : Host) (s : string) :
  copyright h = Ok (VStr s) ->
  31 <= String.length s <= 37 /\
  ((1000 <= fullYear h <= 9999)%Z -> String.length s = 34).
Proof.
  intros Hs. rewrite copyright_eq in Hs. injection Hs as <-.
  rewrite copyright_text_length. pose proof (fullYear_range h) as Hy.
  unfold year_in_range in Hy. split.
  - pose proof (Number_toString_length_le 5 (fullYear h) ltac:(lia)).
    pose proof (Number_toString_nonempty (fullYear h)) as Hne.
    destruct (Number_toString (fullYear h)); [done|simpl in *; lia].
  - intros Hfour. by rewrite (Number_toString_length 3) by lia.
Qed.

Lemma copyright_length_bounds_witness :
  31 <= String.length (copyright_text 2018) <= 37 /\
  ((1000 <= 2018 <= 9999)%Z -> String.length (copyright_text 2018) = 34).
Proof.
  apply (copyright_length_bounds (Build_Host 2018 eq_refl)). reflexivity.
Defined.

(** C32.  Only the [copyright] property depends on the clock: two
    evaluations of the module at different times export objects that
    agree on every other property. *)
Theorem export_frame (h1 h2 : Host) (v1 v2 : value) (k : string) :
  k <> "copyright" ->
  module_exports h1 = Ok v1 -> module_exports h2 = Ok v2 ->
  get_prop k v1 = get_prop k v2.
Proof.
  intros Hk ->%module_exports_inv ->%module_exports_inv.
  unfold exported, get_prop.
  by rewrite (exported_has _ (fullYear h2)), (exported_frame _ (fullYear h2)).
Qed.

Lemma export_frame_witness :
  get_prop "title" (exported 2018) = get_prop "title" (exported 2019).
Proof.
  apply (export_frame (Build_Host 2018 eq_refl) (Build_Host 2019 eq_refl));
    [discriminate|reflexivity|reflexivity].
Defined.

(** The exported object determines the year: evaluations at two clock
    readings export the same object only if the readings agree. *)
Lemma export_determines_year (h1 h2 : Host) :
  module_exports h1 = module_exports h2 -> fullYear h1 = fullYear h2.
Proof.
  intros H. destruct (module_exports h1) as [v|] eqn:H1.
  - symmetry in H. apply module_exports_inv in H1, H. apply exported_inj.
    congruence.
  - unfold module_exports in H1. by rewrite run_module_eq in H1.
Qed.
