(* ===== verification/JsDate.v ===== *)
(** The clock behind [new Date().getFullYear()] (line 43).

    ECMAScript represents an instant as a time value, a number of
    milliseconds since 1 January 1970 UTC, at most 8.64e15 in absolute
    value.  [getFullYear] is [YearFromTime] of the local time, and
    [YearFromTime t] is defined as the largest year [y] whose first
    instant [TimeFromYear y] is not after [t], where years have 365 or
    366 days by the Gregorian rule extended to all years.

    [DaysInYear], [DayFromYear] and [TimeFromYear] are the standard's
    definitions.  [YearFromTime] is computed the way engines compute
    it: estimate the year from the mean length of a year, 365.2425
    days, then correct the estimate by at most one.  The theorems show
    that this computes the standard's year for every time value, that
    the year of a valid time value lies in the range [JsModule] assumes
    of a [Host], and hence that every valid instant is a [Host] on
    which the module can be evaluated. *)

From S2P Require Import Prelude JsNumber JsValue JsModule SiteConfig.

Set Warnings "-clear-no-such-hyp".

#[local] Open Scope Z_scope.

(** ** Time values (ECMAScript, Time Values and Time Range) *)

Definition msPerDay : Z := 86400000.

(** The largest time value. *)
Definition maxTime : Z := 8640000000000000.

(** [TimeClip]: a time value out of range is not a time value ([NaN],
    an invalid date). *)
Definition TimeClip (t : Z) : option Z :=
  if bool_decide (- maxTime <= t <= maxTime) then Some t else None.

(** The day a time value falls in. *)
Definition Day (t : Z) : Z := t / msPerDay.

(** ** Years *)

Definition DaysInYear (y : Z) : Z :=
  if negb (y mod 4 =? 0) then 365
  else if negb (y mod 100 =? 0) then 366
  else if negb (y mod 400 =? 0) then 365
  else 366.

(** The day number of the first day of year [y]. *)
Definition DayFromYear (y : Z) : Z :=
  365 * (y - 1970) + (y - 1969) / 4 - (y - 1901) / 100 + (y - 1601) / 400.

(** The time value of the start of year [y]. *)
Definition TimeFromYear (y : Z) : Z := msPerDay * DayFromYear y.

(** The year a time value falls in: the estimate from the mean length
    of a year (365.2425 days are 31556952000 ms), corrected by one
    where the estimated year starts after [t] or ends before it. *)
Definition YearFromTime (t : Z) : Z :=
  let y := t / 31556952000 + 1970 in
  let t2 := TimeFromYear y in
  if t <? t2 then y - 1
  else if t2 + msPerDay * DaysInYear y <=? t then y + 1
  else y.

(** ** Local time *)

(** Local time is the time value shifted by the offset of the time
    zone, daylight saving included, which is less than a day. *)
Definition valid_offset (tza : Z) : Prop := - msPerDay < tza < msPerDay.

Definition LocalTime (tza t : Z) : Z := t + tza.

(** [new Date(t).getFullYear()] in a zone of offset [tza]. *)
Definition getFullYear (tza t : Z) : Z := YearFromTime (LocalTime tza t).

(** ** Years and their first days *)

(** Splits on the three divisibility tests of [DaysInYear]. *)
Ltac leap_cases :=
  repeat match goal with
  | |- context [?a mod ?b =? 0] => destruct (Z.eqb_spec (a mod b) 0)
  end; cbn [negb].

(** Linear arithmetic with the divisions by constants spelt out. *)
Ltac div_lia := Z.div_mod_to_equations; lia.

Section years.
Implicit Types (y t : Z).

Lemma DaysInYear_cases y : DaysInYear y = 365 \/ DaysInYear y = 366.
Proof. unfold DaysInYear. leap_cases; auto. Qed.

(** The first day of the next year is [DaysInYear] later. *)
Lemma DayFromYear_succ y : DayFromYear (y + 1) = DayFromYear y + DaysInYear y.
Proof. unfold DayFromYear, DaysInYear. leap_cases; div_lia. Qed.

Lemma TimeFromYear_succ y :
  TimeFromYear (y + 1) = TimeFromYear y + msPerDay * DaysInYear y.
Proof. unfold TimeFromYear. rewrite DayFromYear_succ. lia. Qed.

(** Years start in order. *)
Lemma TimeFromYear_mono y y' : y <= y' -> TimeFromYear y <= TimeFromYear y'.
Proof. unfold TimeFromYear, DayFromYear, msPerDay. intros H. div_lia. Qed.

(** The corrected estimate brackets [t]. *)
Lemma YearFromTime_bracket t :
  TimeFromYear (YearFromTime t) <= t < TimeFromYear (YearFromTime t + 1).
Proof.
  unfold YearFromTime. set (y := t / 31556952000 + 1970).
  destruct (Z.ltb_spec t (TimeFromYear y)) as [H1|H1];
    [|destruct (Z.leb_spec (TimeFromYear y + msPerDay * DaysInYear y) t)
        as [H2|H2]].
  - replace (y - 1 + 1) with y by lia. split; [|lia].
    unfold TimeFromYear, DayFromYear, msPerDay in *. subst y. div_lia.
  - rewrite !TimeFromYear_succ. split; [lia|]. revert H1 H2.
    unfold TimeFromYear, DayFromYear, DaysInYear, msPerDay. subst y.
    leap_cases; div_lia.
  - rewrite TimeFromYear_succ. lia.
Qed.

(** A year that has started is not after the year of [t]. *)
Lemma YearFromTime_largest t y : TimeFromYear y <= t -> y <= YearFromTime t.
Proof.
  intros Hy. destruct (YearFromTime_bracket t) as [_ Hlt].
  destruct (Z.le_gt_cases y (YearFromTime t)) as [|Hgt]; [done|].
  pose proof (TimeFromYear_mono (YearFromTime t + 1) y ltac:(lia)). lia.
Qed.

(** The year is determined by the bracket. *)
Lemma YearFromTime_unique t y :
  TimeFromYear y <= t < TimeFromYear (y + 1) -> YearFromTime t = y.
Proof.
  intros [Hlo Hhi]. pose proof (YearFromTime_largest t y Hlo) as Hle.
  destruct (YearFromTime_bracket t) as [Hlo' _].
  destruct (Z.le_gt_cases (YearFromTime t) y) as [|Hgt]; [lia|].
  pose proof (TimeFromYear_mono (y + 1) (YearFromTime t) ltac:(lia)). lia.
Qed.

(** In days: the day of [t] is one of the days of its year. *)
Lemma YearFromTime_days t :
  let y := YearFromTime t in
  DayFromYear y <= Day t < DayFromYear y + DaysInYear y.
Proof.
  intros y. destruct (YearFromTime_bracket t) as [Hlo Hhi]. fold y in Hlo, Hhi.
  rewrite TimeFromYear_succ in Hhi. unfold TimeFromYear, Day, msPerDay in *.
  div_lia.
Qed.

Lemma YearFromTime_mono t t' : t <= t' -> YearFromTime t <= YearFromTime t'.
Proof.
  intros H. apply YearFromTime_largest.
  destruct (YearFromTime_bracket t). lia.
Qed.

End years.

(** ** The range of years *)

Section range.
Implicit Types (t tza : Z).

Lemma TimeClip_Some t t' :
  TimeClip t = Some t' <-> t' = t /\ - maxTime <= t <= maxTime.
Proof. unfold TimeClip. case_bool_decide; naive_solver. Qed.

(** The first and the last year a local time can fall in. *)
Lemma YearFromTime_first : YearFromTime (- maxTime - msPerDay) = -271821.
Proof. reflexivity. Qed.

Lemma YearFromTime_last : YearFromTime (maxTime + msPerDay) = 275760.
Proof. reflexivity. Qed.

Lemma getFullYear_range tza t :
  valid_offset tza -> TimeClip t = Some t ->
  year_in_range (getFullYear tza t).
Proof.
  intros Hz [_ Ht]%TimeClip_Some. unfold year_in_range, getFullYear, LocalTime.
  unfold valid_offset in Hz. rewrite <- YearFromTime_first, <- YearFromTime_last.
  split; apply YearFromTime_mono; lia.
Qed.

End range.

(** ** Properties *)

(** C15.  [YearFromTime] computes the year the standard defines: for
    every time value [t], the computed year has started at [t], the
    next year has not, and no year that has started at [t] is later;
    counted in days, the day of [t] is one of the 365 or 366 days of
    that year.  The estimate from the mean length of a year is
    therefore never off by more than the one correction the routine
    makes. *)
Theorem YearFromTime_correct (t : Z) :
  let y := YearFromTime t in
  TimeFromYear y <= t < TimeFromYear (y + 1) /\
  (forall y', TimeFromYear y' <= t -> y' <= y) /\
  DayFromYear y <= Day t < DayFromYear y + DaysInYear y.
Proof.
  intros y. split; [apply YearFromTime_bracket|].
  split; [apply YearFromTime_largest|apply YearFromTime_days].
Qed.

(** C16.  Every valid instant is a host of the module: for a time value
    within range and a time-zone offset of less than a day,
    [getFullYear] is a year between -271821 and 275760, both bounds
    being reached; there is a [Host] whose clock reads that year, and
    on it the module exports the configuration of that year. *)
Theorem instant_is_host (tza t : Z) :
  valid_offset tza -> TimeClip t = Some t ->
  year_in_range (getFullYear tza t) /\
  getFullYear 0 (- maxTime) = -271821 /\ getFullYear 0 maxTime = 275760 /\
  exists h : Host, fullYear h = getFullYear tza t /\
    module_exports h = Ok (exported (getFullYear tza t)).
Proof.
  intros Hz Ht. pose proof (getFullYear_range tza t Hz Ht) as Hy.
  split_and!; [done|reflexivity..|].
  exists (host_of_year _ Hy). split; [done|]. apply module_exports_eq.
Qed.

Lemma instant_is_host_witness :
  year_in_range (getFullYear 3600000 1541685000000) /\
  getFullYear 0 (- maxTime) = -271821 /\ getFullYear 0 maxTime = 275760 /\
  exists h : Host, fullYear h = getFullYear 3600000 1541685000000 /\
    module_exports h = Ok (exported (getFullYear 3600000 1541685000000)).
Proof.
  apply (instant_is_host 3600000 1541685000000); [done|reflexivity].
Defined.
