(* ===== verification/Schema.v ===== *)
(** The configuration contract of the specification (sections 3, 4.1 and
    7 of [spec.md]).

    Nothing of this file has a counterpart under [src/]: the module
    exports a plain object and performs no validation.  The data model
    ([LinkDescriptor], [UserRecord], [SiteConfiguration]), the error
    ([ConfigurationError]) and the operation [load] are modelled from the
    specification's words; [encode] is the inverse direction, used to
    state the round trip.

    [load] reads own properties of the exported object ([obj_get], after
    checking that the value is an object), decides whether a link
    discriminant is set by JavaScript truthiness ([to_boolean]), and
    fails fast: the first invalid field, in the order of the table of
    section 3, is the one the error names. *)

From S2P Require Import Prelude JsNumber JsValue.

Set Warnings "-clear-no-such-hyp".

(** ** Data model (section 3) *)

Inductive LinkTarget : Type :=
| Doc (id : string)
| Page (name : string)
| Blog.

Record LinkDescriptor : Type := {
  link_target : LinkTarget;
  link_label : string
}.

Record UserRecord : Type := {
  user_caption : string;
  user_image : string;
  user_infoLink : string;
  user_pinned : bool
}.

Record Colors : Type := {
  color_primary : string;
  color_secondary : string
}.

Record SiteConfiguration : Type := {
  cfg_title : string;
  cfg_tagline : string;
  cfg_url : string;
  cfg_baseUrl : string;
  cfg_projectName : string;
  cfg_headerLinks : list LinkDescriptor;
  cfg_users : list UserRecord;
  cfg_headerIcon : string;
  cfg_footerIcon : string;
  cfg_favicon : string;
  cfg_colors : Colors;
  cfg_copyright : string;
  cfg_highlight_theme : string;
  cfg_scripts : list string;
  cfg_repoUrl : string
}.

(** ** Errors (section 7) *)

(** A field is named by the path of keys and array indices leading to it. *)
Inductive PathElem : Type :=
| Key (k : string)
| Index (i : nat).

Inductive Reason : Type :=
| Missing
| NotAString
| EmptyString
| NotABoolean
| NotAnArray
| NotAnObject
| NoDiscriminant
| AmbiguousDiscriminant.

Record ConfigurationError : Type := {
  err_path : list PathElem;
  err_reason : Reason
}.

#[export] Instance LinkTarget_eq_dec : EqDecision LinkTarget.
Proof. solve_decision. Defined.
#[export] Instance LinkDescriptor_eq_dec : EqDecision LinkDescriptor.
Proof. solve_decision. Defined.
#[export] Instance UserRecord_eq_dec : EqDecision UserRecord.
Proof. solve_decision. Defined.
#[export] Instance Colors_eq_dec : EqDecision Colors.
Proof. solve_decision. Defined.
#[export] Instance SiteConfiguration_eq_dec : EqDecision SiteConfiguration.
Proof. solve_decision. Defined.
#[export] Instance PathElem_eq_dec : EqDecision PathElem.
Proof. solve_decision. Defined.
#[export] Instance Reason_eq_dec : EqDecision Reason.
Proof. solve_decision. Defined.
#[export] Instance ConfigurationError_eq_dec : EqDecision ConfigurationError.
Proof. solve_decision. Defined.

Definition config_error {A} (p : list PathElem) (r : Reason)
  : result ConfigurationError A :=
  Err {| err_path := p; err_reason := r |}.

(** ** Reading typed fields *)

Section readers.
Implicit Types (p : list PathElem) (k : string) (v o : value).

(** The own properties of [o], which must be an object. *)
Definition as_object p o : result ConfigurationError (list (string * value)) :=
  match o with
  | VObj ps => Ok ps
  | VUndefined => config_error p Missing
  | _ => config_error p NotAnObject
  end.

Definition as_string p v : result ConfigurationError string :=
  match v with
  | VStr s => Ok s
  | VUndefined => config_error p Missing
  | _ => config_error p NotAString
  end.

Definition as_nonempty p v : result ConfigurationError string :=
  let* s := as_string p v in
  check nonempty s else {| err_path := p; err_reason := EmptyString |} in
  Ok s.

Definition as_bool p v : result ConfigurationError bool :=
  match v with
  | VBool b => Ok b
  | VUndefined => config_error p Missing
  | _ => config_error p NotABoolean
  end.

Definition as_array p v : result ConfigurationError (list value) :=
  match v with
  | VArr l => Ok l
  | VUndefined => config_error p Missing
  | _ => config_error p NotAnArray
  end.

End readers.

(** ** Decoding (section 4.1, [load]) *)

(** A link: exactly one of [doc], [page], [blog] is set, and the label
    is a non-empty string. *)
Definition load_link (p : list PathElem) (v : value)
  : result ConfigurationError LinkDescriptor :=
  let* ps := as_object p v in
  let doc := obj_get "doc" ps in
  let page := obj_get "page" ps in
  let blog := obj_get "blog" ps in
  let* target :=
    match to_boolean doc, to_boolean page, to_boolean blog with
    | true, false, false => rmap Doc (as_string (p ++ [Key "doc"]) doc)
    | false, true, false => rmap Page (as_string (p ++ [Key "page"]) page)
    | false, false, true => rmap (fun _ => Blog) (as_bool (p ++ [Key "blog"]) blog)
    | false, false, false => config_error p NoDiscriminant
    | _, _, _ => config_error p AmbiguousDiscriminant
    end in
  let* label := as_nonempty (p ++ [Key "label"]) (obj_get "label" ps) in
  Ok {| link_target := target; link_label := label |}.

(** A user: caption, image path, info link, pinned flag. *)
Definition load_user (p : list PathElem) (v : value)
  : result ConfigurationError UserRecord :=
  let* ps := as_object p v in
  let* caption := as_string (p ++ [Key "caption"]) (obj_get "caption" ps) in
  let* image := as_nonempty (p ++ [Key "image"]) (obj_get "image" ps) in
  let* infoLink := as_nonempty (p ++ [Key "infoLink"]) (obj_get "infoLink" ps) in
  let* pinned := as_bool (p ++ [Key "pinned"]) (obj_get "pinned" ps) in
  Ok {| user_caption := caption; user_image := image;
        user_infoLink := infoLink; user_pinned := pinned |}.

Definition load_colors (p : list PathElem) (v : value)
  : result ConfigurationError Colors :=
  let* ps := as_object p v in
  let* primary :=
    as_nonempty (p ++ [Key "primaryColor"]) (obj_get "primaryColor" ps) in
  let* secondary :=
    as_nonempty (p ++ [Key "secondaryColor"]) (obj_get "secondaryColor" ps) in
  Ok {| color_primary := primary; color_secondary := secondary |}.

(** The syntax-highlighting block: an object with a [theme] string. *)
Definition load_highlight (p : list PathElem) (v : value)
  : result ConfigurationError string :=
  let* ps := as_object p v in
  as_string (p ++ [Key "theme"]) (obj_get "theme" ps).

(** An array field, each element decoded with its index in the path. *)
Definition load_array {A} (k : string)
    (f : list PathElem -> value -> result ConfigurationError A)
    (ps : list (string * value)) : result ConfigurationError (list A) :=
  let* l := as_array [Key k] (obj_get k ps) in
  mapM_idx (fun i x => f [Key k; Index i] x) 0 l.

Definition load (v : value) : result ConfigurationError SiteConfiguration :=
  let* ps := as_object [] v in
  let* title := as_nonempty [Key "title"] (obj_get "title" ps) in
  let* tagline := as_string [Key "tagline"] (obj_get "tagline" ps) in
  let* url := as_nonempty [Key "url"] (obj_get "url" ps) in
  let* baseUrl := as_nonempty [Key "baseUrl"] (obj_get "baseUrl" ps) in
  let* projectName := as_nonempty [Key "projectName"] (obj_get "projectName" ps) in
  let* headerLinks := load_array "headerLinks" load_link ps in
  let* users := load_array "users" load_user ps in
  let* headerIcon := as_nonempty [Key "headerIcon"] (obj_get "headerIcon" ps) in
  let* footerIcon := as_nonempty [Key "footerIcon"] (obj_get "footerIcon" ps) in
  let* favicon := as_nonempty [Key "favicon"] (obj_get "favicon" ps) in
  let* colors := load_colors [Key "colors"] (obj_get "colors" ps) in
  let* copyright := as_string [Key "copyright"] (obj_get "copyright" ps) in
  let* theme := load_highlight [Key "highlight"] (obj_get "highlight" ps) in
  let* scripts := load_array "scripts" as_nonempty ps in
  let* repoUrl := as_nonempty [Key "repoUrl"] (obj_get "repoUrl" ps) in
  Ok {| cfg_title := title; cfg_tagline := tagline; cfg_url := url;
        cfg_baseUrl := baseUrl; cfg_projectName := projectName;
        cfg_headerLinks := headerLinks; cfg_users := users;
        cfg_headerIcon := headerIcon; cfg_footerIcon := footerIcon;
        cfg_favicon := favicon; cfg_colors := colors;
        cfg_copyright := copyright; cfg_highlight_theme := theme;
        cfg_scripts := scripts; cfg_repoUrl := repoUrl |}.

(** ** Encoding *)

Definition encode_link (l : LinkDescriptor) : value :=
  VObj [ match link_target l with
         | Doc id => ("doc", VStr id)
         | Page name => ("page", VStr name)
         | Blog => ("blog", VBool true)
         end;
         ("label", VStr (link_label l)) ].

Definition encode_user (u : UserRecord) : value :=
  VObj [ ("caption", VStr (user_caption u));
         ("image", VStr (user_image u));
         ("infoLink", VStr (user_infoLink u));
         ("pinned", VBool (user_pinned u)) ].

Definition encode_colors (c : Colors) : value :=
  VObj [ ("primaryColor", VStr (color_primary c));
         ("secondaryColor", VStr (color_secondary c)) ].

Definition encode (c : SiteConfiguration) : value :=
  VObj [
    ("title", VStr (cfg_title c));
    ("tagline", VStr (cfg_tagline c));
    ("url", VStr (cfg_url c));
    ("baseUrl", VStr (cfg_baseUrl c));
    ("projectName", VStr (cfg_projectName c));
    ("headerLinks", VArr (encode_link <$> cfg_headerLinks c));
    ("users", VArr (encode_user <$> cfg_users c));
    ("headerIcon", VStr (cfg_headerIcon c));
    ("footerIcon", VStr (cfg_footerIcon c));
    ("favicon", VStr (cfg_favicon c));
    ("colors", encode_colors (cfg_colors c));
    ("copyright", VStr (cfg_copyright c));
    ("highlight", VObj [("theme", VStr (cfg_highlight_theme c))]);
    ("scripts", VArr (VStr <$> cfg_scripts c));
    ("repoUrl", VStr (cfg_repoUrl c))
  ].

(** ** Well-formedness of a typed configuration (section 3, invariants) *)

Definition wf_target (t : LinkTarget) : bool :=
  match t with
  | Doc id => nonempty id
  | Page name => nonempty name
  | Blog => true
  end.

Definition wf_link (l : LinkDescriptor) : bool :=
  wf_target (link_target l) && nonempty (link_label l).

Definition wf_user (u : UserRecord) : bool :=
  nonempty (user_image u) && nonempty (user_infoLink u).

Definition wf_colors (c : Colors) : bool :=
  nonempty (color_primary c) && nonempty (color_secondary c).

Definition wf_config (c : SiteConfiguration) : bool :=
  nonempty (cfg_title c) && nonempty (cfg_url c) && nonempty (cfg_baseUrl c)
  && nonempty (cfg_projectName c)
  && forallb wf_link (cfg_headerLinks c) && forallb wf_user (cfg_users c)
  && nonempty (cfg_headerIcon c) && nonempty (cfg_footerIcon c)
  && nonempty (cfg_favicon c) && wf_colors (cfg_colors c)
  && forallb nonempty (cfg_scripts c) && nonempty (cfg_repoUrl c).

(** ** What an error says about the value *)

(** The value found by following a path; [undefined] when the path
    leaves the value. *)
Fixpoint at_path (p : list PathElem) (v : value) : value :=
  match p with
  | [] => v
  | Key k :: p' =>
      match v with
      | VObj ps => at_path p' (obj_get k ps)
      | _ => VUndefined
      end
  | Index i :: p' =>
      match v with
      | VArr l => at_path p' (default VUndefined (l !! i))
      | _ => VUndefined
      end
  end.

(** How many of the three discriminants of a link object are set. *)
Definition discriminants_set (v : value) : nat :=
  match v with
  | VObj ps =>
      length (filter (fun k => to_boolean (obj_get k ps) = true)
                ["doc"; "page"; "blog"])
  | _ => 0
  end.

(** [reason_holds r v]: the value [v] really has the defect [r]. *)
Definition reason_holds (r : Reason) (v : value) : bool :=
  match r, v with
  | Missing, VUndefined => true
  | NotAString, (VBool _ | VNum _ | VArr _ | VObj _) => true
  | EmptyString, VStr "" => true
  | NotABoolean, (VNum _ | VStr _ | VArr _ | VObj _) => true
  | NotAnArray, (VBool _ | VNum _ | VStr _ | VObj _) => true
  | NotAnObject, (VBool _ | VNum _ | VStr _ | VArr _) => true
  | NoDiscriminant, VObj _ => bool_decide (discriminants_set v = 0)
  | AmbiguousDiscriminant, VObj _ => bool_decide (2 <= discriminants_set v)
  | _, _ => false
  end.

(** [explains v e]: following the path of [e] in [v] leads to a value
    with the defect [e] reports. *)
Definition explains (v : value) (e : ConfigurationError) : Prop :=
  reason_holds (err_reason e) (at_path (err_path e) v) = true.

(** A failing reader blames its own path, with a reason that holds. *)
Definition blames (p : list PathElem) (v : value)
    (e : ConfigurationError) : Prop :=
  err_path e = p /\ reason_holds (err_reason e) v = true.

(** [blames_under p v e]: the error's path extends [p], and the rest of
    it leads, inside [v], to a value with the reported defect. *)
Definition blames_under (p : list PathElem) (v : value)
    (e : ConfigurationError) : Prop :=
  exists q, err_path e = p ++ q /\
    reason_holds (err_reason e) (at_path q v) = true.

(** ** The readers, inverted *)

Section reader_lemmas.
Implicit Types (p q : list PathElem) (k : string) (v : value) (s : string).

Lemma as_object_Ok p v ps : as_object p v = Ok ps <-> v = VObj ps.
Proof. destruct v; simpl; naive_solver. Qed.

Lemma as_string_Ok p v s : as_string p v = Ok s <-> v = VStr s.
Proof. destruct v; simpl; naive_solver. Qed.

Lemma as_bool_Ok p v b : as_bool p v = Ok b <-> v = VBool b.
Proof. destruct v; simpl; naive_solver. Qed.

Lemma as_array_Ok p v l : as_array p v = Ok l <-> v = VArr l.
Proof. destruct v; simpl; naive_solver. Qed.

Lemma as_nonempty_Ok p v s :
  as_nonempty p v = Ok s <-> v = VStr s /\ nonempty s = true.
Proof.
  unfold as_nonempty. destruct v as [| | |s'| |]; simpl;
    try (split; [discriminate|by intros [? _]]).
  destruct (nonempty s') eqn:E; simpl.
  - split; [by intros [= ->]|by intros [[= ->] _]].
  - split; [discriminate|]. intros [[= ->] ?]. congruence.
Qed.

Lemma as_object_Err p v e : as_object p v = Err e -> blames p v e.
Proof. destruct v; simpl; intros [= <-]; by split. Qed.

Lemma as_string_Err p v e : as_string p v = Err e -> blames p v e.
Proof. destruct v; simpl; intros [= <-]; by split. Qed.

Lemma as_bool_Err p v e : as_bool p v = Err e -> blames p v e.
Proof. destruct v; simpl; intros [= <-]; by split. Qed.

Lemma as_array_Err p v e : as_array p v = Err e -> blames p v e.
Proof. destruct v; simpl; intros [= <-]; by split. Qed.

Lemma as_nonempty_Err p v e : as_nonempty p v = Err e -> blames p v e.
Proof.
  unfold as_nonempty. intros H. case_result H; [by apply as_string_Err|].
  apply as_string_Ok in H0 as ->. case_result H; [|done].
  apply guard_or_Err in H as [Hs ->]. by destruct x.
Qed.

End reader_lemmas.

#[export] Hint Resolve as_object_Err as_string_Err as_bool_Err as_array_Err
  as_nonempty_Err : js.

(** ** [load] returns well-formed configurations *)

Ltac inv_readers :=
  repeat match goal with
  | H : as_object _ _ = Ok _ |- _ => apply as_object_Ok in H
  | H : as_string _ _ = Ok _ |- _ => apply as_string_Ok in H
  | H : as_bool _ _ = Ok _ |- _ => apply as_bool_Ok in H
  | H : as_array _ _ = Ok _ |- _ => apply as_array_Ok in H
  | H : as_nonempty _ _ = Ok _ |- _ => apply as_nonempty_Ok in H as [H ?]
  end.

Section soundness.
Implicit Types (p : list PathElem) (v : value).

Lemma load_link_wf p v l : load_link p v = Ok l -> wf_link l = true.
Proof.
  unfold load_link. intros H. inv_result. inv_readers. unfold wf_link. simpl.
  apply andb_true_intro. split; [|done].
  repeat case_match; simplify_eq; try done;
    match goal with H : rmap _ _ = Ok _ |- _ => apply rmap_Ok in H as (? & ? & ->) end;
    inv_readers; simpl; try done;
    match goal with
    | H : obj_get ?k ?ps = _, H' : to_boolean (obj_get ?k ?ps) = true |- _ =>
        by rewrite H in H'
    end.
Qed.

Lemma load_user_wf p v u : load_user p v = Ok u -> wf_user u = true.
Proof.
  unfold load_user. intros H. inv_result. inv_readers.
  unfold wf_user. simpl. by apply andb_true_intro.
Qed.

Lemma load_colors_wf p v c : load_colors p v = Ok c -> wf_colors c = true.
Proof.
  unfold load_colors. intros H. inv_result. inv_readers.
  unfold wf_colors. simpl. by apply andb_true_intro.
Qed.

Lemma mapM_idx_forallb {A} (f : nat -> value -> result ConfigurationError A)
    (ok : A -> bool) l : forall i xs,
  (forall j x a, f j x = Ok a -> ok a = true) ->
  mapM_idx f i l = Ok xs -> forallb ok xs = true.
Proof.
  induction l as [|x l IH]; intros i xs Hf H; simpl in H; inv_result; [done|].
  simpl. apply andb_true_intro. split; [by eapply Hf|by eapply IH].
Qed.

Lemma load_array_forallb {A} k
    (f : list PathElem -> value -> result ConfigurationError A) ok ps xs :
  (forall p x a, f p x = Ok a -> ok a = true) ->
  load_array k f ps = Ok xs -> forallb ok xs = true.
Proof.
  intros Hf H. unfold load_array in H. inv_result.
  eapply mapM_idx_forallb; [|done]. intros j y a. apply Hf.
Qed.

Lemma load_wf v c : load v = Ok c -> wf_config c = true.
Proof.
  unfold load. intros H. inv_result. inv_readers. unfold wf_config. simpl.
  rewrite !andb_true_iff. split_and!; try done.
  - eapply load_array_forallb; [|done]. apply load_link_wf.
  - eapply load_array_forallb; [|done]. apply load_user_wf.
  - by eapply load_colors_wf.
  - eapply load_array_forallb; [|done]. intros p0 y a Ha. by inv_readers.
Qed.

End soundness.

(** ** Round trip: decoding an encoded configuration *)

Section roundtrip.
Implicit Types (p : list PathElem).

Lemma as_nonempty_VStr p s : nonempty s = true -> as_nonempty p (VStr s) = Ok s.
Proof. intros Hs. unfold as_nonempty. simpl. by rewrite Hs. Qed.

Lemma load_link_encode p l : wf_link l = true -> load_link p (encode_link l) = Ok l.
Proof.
  destruct l as [[id|name|] label]. all: unfold wf_link; simpl.
  all: rewrite ?andb_true_iff; intros; destruct_and?.
  all: unfold load_link; simpl; rewrite ?as_nonempty_VStr by done; simpl.
  all: by repeat case_match; simplify_eq.
Qed.

Lemma load_user_encode p u : wf_user u = true -> load_user p (encode_user u) = Ok u.
Proof.
  destruct u as [c i l b]. unfold wf_user. simpl. intros [? ?]%andb_true_iff.
  unfold load_user. simpl. by rewrite !as_nonempty_VStr.
Qed.

Lemma load_colors_encode p c :
  wf_colors c = true -> load_colors p (encode_colors c) = Ok c.
Proof.
  destruct c as [c1 c2]. unfold wf_colors. simpl. intros [? ?]%andb_true_iff.
  unfold load_colors. simpl. by rewrite !as_nonempty_VStr.
Qed.

Lemma mapM_idx_fmap {A} (f : nat -> value -> result ConfigurationError A)
    (g : A -> value) (ok : A -> bool) l : forall i,
  (forall j a, ok a = true -> f j (g a) = Ok a) ->
  forallb ok l = true -> mapM_idx f i (g <$> l) = Ok l.
Proof.
  induction l as [|a l IH]; intros i Hf Hl; [done|].
  simpl in Hl. apply andb_true_iff in Hl as [Ha Hl].
  rewrite fmap_cons. simpl. rewrite Hf by done. simpl. by rewrite IH.
Qed.

Lemma load_encode c : wf_config c = true -> load (encode c) = Ok c.
Proof.
  destruct c. unfold wf_config. simpl. rewrite !andb_true_iff.
  intros H. destruct_and!. unfold load, load_array. simpl.
  rewrite !as_nonempty_VStr by done. simpl.
  rewrite (mapM_idx_fmap _ _ wf_link) by (try done; intros; by apply load_link_encode).
  simpl.
  rewrite (mapM_idx_fmap _ _ wf_user) by (try done; intros; by apply load_user_encode).
  simpl. rewrite load_colors_encode by done. simpl.
  rewrite (mapM_idx_fmap _ _ nonempty) by (try done; intros; by apply as_nonempty_VStr).
  done.
Qed.

End roundtrip.

(** ** A failure names a field that is invalid *)

Section errors.
Implicit Types (p q : list PathElem) (k : string) (v : value)
  (e : ConfigurationError) (ps : list (string * value)).

Lemma blames_here p v e : blames p v e -> blames_under p v e.
Proof. intros [? ?]. exists []. by rewrite app_nil_r. Qed.

Lemma blames_field p k ps e :
  blames (p ++ [Key k]) (obj_get k ps) e -> blames_under p (VObj ps) e.
Proof. intros [? ?]. by exists [Key k]. Qed.

Lemma explains_root v e : blames [] v e -> explains v e.
Proof. intros [Hp ?]. unfold explains. by rewrite Hp. Qed.

Lemma explains_field k ps e :
  blames_under [Key k] (obj_get k ps) e -> explains (VObj ps) e.
Proof. intros (q & Hp & ?). unfold explains. by rewrite Hp. Qed.

Lemma explains_elem k ps l j x e :
  obj_get k ps = VArr l -> l !! j = Some x ->
  blames_under [Key k; Index j] x e -> explains (VObj ps) e.
Proof.
  intros Hk Hj (q & Hp & ?). unfold explains. rewrite Hp. simpl.
  by rewrite Hk, Hj.
Qed.

Lemma discriminants_none ps :
  to_boolean (obj_get "doc" ps) = false ->
  to_boolean (obj_get "page" ps) = false ->
  to_boolean (obj_get "blog" ps) = false ->
  discriminants_set (VObj ps) = 0.
Proof.
  intros Hd Hp Hb. unfold discriminants_set.
  rewrite !filter_cons, filter_nil, Hd, Hp, Hb. done.
Qed.

Lemma discriminants_two ps :
  to_boolean (obj_get "doc" ps) && to_boolean (obj_get "page" ps)
  || to_boolean (obj_get "doc" ps) && to_boolean (obj_get "blog" ps)
  || to_boolean (obj_get "page" ps) && to_boolean (obj_get "blog" ps) = true ->
  2 <= discriminants_set (VObj ps).
Proof.
  unfold discriminants_set. rewrite !filter_cons, filter_nil.
  destruct (to_boolean (obj_get "doc" ps)), (to_boolean (obj_get "page" ps)),
    (to_boolean (obj_get "blog" ps)); simpl; (done || lia).
Qed.

Lemma discriminants_set_0 ps :
  discriminants_set (VObj ps) = 0 ->
  to_boolean (obj_get "doc" ps) = false /\
  to_boolean (obj_get "page" ps) = false /\
  to_boolean (obj_get "blog" ps) = false.
Proof.
  unfold discriminants_set. rewrite !filter_cons, filter_nil.
  destruct (to_boolean (obj_get "doc" ps)), (to_boolean (obj_get "page" ps)),
    (to_boolean (obj_get "blog" ps)); simpl; done.
Qed.

Lemma load_link_no_target p ps :
  discriminants_set (VObj ps) = 0 ->
  load_link p (VObj ps) = config_error p NoDiscriminant.
Proof.
  intros (Hd & Hp & Hb)%discriminants_set_0. unfold load_link. simpl.
  by rewrite Hd, Hp, Hb.
Qed.

Lemma load_link_two_targets p ps :
  2 <= discriminants_set (VObj ps) ->
  load_link p (VObj ps) = config_error p AmbiguousDiscriminant.
Proof.
  unfold discriminants_set, load_link. rewrite !filter_cons, filter_nil. simpl.
  destruct (to_boolean (obj_get "doc" ps)), (to_boolean (obj_get "page" ps)),
    (to_boolean (obj_get "blog" ps)); simpl; (done || lia).
Qed.

Lemma load_link_Err p v e : load_link p v = Err e -> blames_under p v e.
Proof.
  unfold load_link. intros H.
  case_result H; [by apply blames_here, as_object_Err|].
  apply as_object_Ok in H0 as ->. case_result H.
  - unfold config_error in H. repeat case_match; simplify_eq/=.
    all: try (match goal with H : rmap _ ?m = Err _ |- _ =>
                destruct m eqn:Hm; simplify_eq/= end;
              eapply blames_field; eauto with js).
    all: apply blames_here; split; [done|]; simpl; apply bool_decide_eq_true.
    all: try (by apply discriminants_none).
    all: apply discriminants_two;
      repeat match goal with H : to_boolean _ = _ |- _ => rewrite H; clear H end;
      by rewrite ?orb_true_r.
  - case_result H; [|done]. eapply blames_field; eauto with js.
Qed.

Lemma load_user_Err p v e : load_user p v = Err e -> blames_under p v e.
Proof.
  unfold load_user. intros H.
  case_result H; [by apply blames_here, as_object_Err|].
  apply as_object_Ok in H0 as ->.
  repeat (case_result H; [eapply blames_field; eauto with js|]). done.
Qed.

Lemma load_colors_Err p v e : load_colors p v = Err e -> blames_under p v e.
Proof.
  unfold load_colors. intros H.
  case_result H; [by apply blames_here, as_object_Err|].
  apply as_object_Ok in H0 as ->.
  repeat (case_result H; [eapply blames_field; eauto with js|]). done.
Qed.

Lemma load_highlight_Err p v e : load_highlight p v = Err e -> blames_under p v e.
Proof.
  unfold load_highlight. intros H.
  case_result H; [by apply blames_here, as_object_Err|].
  apply as_object_Ok in H0 as ->. eapply blames_field; eauto with js.
Qed.

Lemma load_array_Err {A} k
    (f : list PathElem -> value -> result ConfigurationError A) ps e :
  (forall p x e, f p x = Err e -> blames_under p x e) ->
  load_array k f ps = Err e -> explains (VObj ps) e.
Proof.
  intros Hf H. unfold load_array in H. case_result H.
  - eapply explains_field. by apply blames_here, as_array_Err.
  - apply as_array_Ok in H0. apply mapM_idx_Err in H as (j & a & Hj & He & _).
    eapply explains_elem; [done..|]. by apply Hf.
Qed.

End errors.

Lemma as_nonempty_blames_under p v e :
  as_nonempty p v = Err e -> blames_under p v e.
Proof. intros. by apply blames_here, as_nonempty_Err. Qed.

(** Closes [explains (VObj ps) e] from the failing step of [load]. *)
Ltac solve_explains :=
  first
    [ eapply explains_field, blames_here; solve [eauto with js]
    | eapply explains_field; solve [eauto using load_colors_Err, load_highlight_Err]
    | eapply load_array_Err; [|eassumption];
      solve [eauto using load_link_Err, load_user_Err, as_nonempty_blames_under] ].

(** ** Properties of the contract *)

(** C21.  A failure of [load] names a field that is really invalid:
    following the error's path inside the value leads to a value that
    has the defect the error reports (absent, of the wrong type, empty,
    or a link object with zero or several targets). *)
Theorem load_error_explained (v : value) (e : ConfigurationError) :
  load v = Err e -> explains v e.
Proof.
  unfold load. intros H.
  case_result H; [by apply explains_root, as_object_Err|].
  apply as_object_Ok in H0 as ->.
  repeat (case_result H; [solve_explains|]; inv_readers). done.
Qed.

Lemma load_error_explained_witness :
  explains (VObj [("title", VStr "")])
    {| err_path := [Key "title"]; err_reason := EmptyString |}.
Proof. apply load_error_explained. reflexivity. Defined.

(** C22.  Whatever [load] accepts satisfies the invariants of section 3
    (required fields, paths, URIs, labels and colours are non-empty
    strings, every link has one target), and is a fixed point of
    decoding: encoding the result and loading it again returns it. *)
Theorem load_returns_wellformed (v : value) (c : SiteConfiguration) :
  load v = Ok c -> wf_config c = true /\ load (encode c) = Ok c.
Proof.
  intros H. pose proof (load_wf v c H) as Hwf. split; [done|].
  by apply load_encode.
Qed.

Lemma load_returns_wellformed_witness :
  let c := {| cfg_title := "t"; cfg_tagline := ""; cfg_url := "u";
              cfg_baseUrl := "/"; cfg_projectName := "p";
              cfg_headerLinks := [{| link_target := Blog; link_label := "Blog" |}];
              cfg_users := []; cfg_headerIcon := "i"; cfg_footerIcon := "i";
              cfg_favicon := "i";
              cfg_colors := {| color_primary := "#000"; color_secondary := "#fff" |};
              cfg_copyright := ""; cfg_highlight_theme := "";
              cfg_scripts := []; cfg_repoUrl := "r" |} in
  wf_config c = true /\ load (encode c) = Ok c.
Proof.
  intros c. apply (load_returns_wellformed (encode c) c). reflexivity.
Defined.

(** C23.  Round trip: a typed configuration survives encoding to a
    JavaScript object and loading back exactly when it is well formed. *)
Theorem load_encode_roundtrip (c : SiteConfiguration) :
  wf_config c = true <-> load (encode c) = Ok c.
Proof. split; [apply load_encode|apply load_wf]. Qed.
