(* ===== verification/LoadProper.v ===== *)
(** [load] does not depend on the order of properties.

    Every decoder of [Schema] reads its argument only through [obj_get],
    array indexing and tests on primitives, so it returns the same
    result, success or error, on read-equivalent values ([veq] of
    [JsEquiv]).  The statements are [Proper] instances, which lets an
    equivalence between two exports be rewritten under [load]. *)

From S2P Require Import Prelude JsNumber JsValue JsEquiv Schema.

Set Warnings "-clear-no-such-hyp".

(** ** The readers *)

Section readers.
Implicit Types (p : list PathElem) (v w : value).

#[export] Instance as_string_proper p : Proper (veq ==> eq) (as_string p).
Proof. intros v w H. by destruct H. Qed.

#[export] Instance as_nonempty_proper p : Proper (veq ==> eq) (as_nonempty p).
Proof. intros v w H. by destruct H. Qed.

#[export] Instance as_bool_proper p : Proper (veq ==> eq) (as_bool p).
Proof. intros v w H. by destruct H. Qed.

End readers.

(** Replaces, in the goal, reads of the object [ps] by reads of the
    equivalent object given by [H : forall k, obj_get k ps ≈ obj_get k qs]. *)
Ltac veq_reads H :=
  repeat match goal with
  | |- context [to_boolean (obj_get ?k ?ps)] =>
      rewrite (to_boolean_proper _ _ (H k))
  | |- context [as_string ?p (obj_get ?k ?ps)] =>
      rewrite (as_string_proper p _ _ (H k))
  | |- context [as_nonempty ?p (obj_get ?k ?ps)] =>
      rewrite (as_nonempty_proper p _ _ (H k))
  | |- context [as_bool ?p (obj_get ?k ?ps)] =>
      rewrite (as_bool_proper p _ _ (H k))
  end.

(** ** The decoders *)

Section decoders.
Implicit Types (p : list PathElem) (v w : value).

#[export] Instance load_link_proper p : Proper (veq ==> eq) (load_link p).
Proof.
  intros v w H. destruct H as [| | | | |ps qs Hk]; try done.
  unfold load_link. simpl. by veq_reads Hk.
Qed.

#[export] Instance load_user_proper p : Proper (veq ==> eq) (load_user p).
Proof.
  intros v w H. destruct H as [| | | | |ps qs Hk]; try done.
  unfold load_user. simpl. by veq_reads Hk.
Qed.

#[export] Instance load_colors_proper p : Proper (veq ==> eq) (load_colors p).
Proof.
  intros v w H. destruct H as [| | | | |ps qs Hk]; try done.
  unfold load_colors. simpl. by veq_reads Hk.
Qed.

#[export] Instance load_highlight_proper p :
  Proper (veq ==> eq) (load_highlight p).
Proof.
  intros v w H. destruct H as [| | | | |ps qs Hk]; try done.
  unfold load_highlight. simpl. by veq_reads Hk.
Qed.

Lemma mapM_idx_proper {A} (f : nat -> value -> result ConfigurationError A) l l' :
  (forall i, Proper (veq ==> eq) (f i)) ->
  Forall2 veq l l' -> forall i, mapM_idx f i l = mapM_idx f i l'.
Proof.
  intros Hf Hll. induction Hll as [|x y l l' Hxy _ IH]; intros i; [done|].
  simpl. by rewrite (Hf i x y Hxy), IH.
Qed.

Lemma load_array_proper {A} k
    (f : list PathElem -> value -> result ConfigurationError A) ps qs :
  (forall p, Proper (veq ==> eq) (f p)) ->
  obj_get k ps ≈ obj_get k qs ->
  load_array k f ps = load_array k f qs.
Proof.
  intros Hf Hk. unfold load_array.
  destruct Hk as [| | | |l l' Hlen Hall|]; try done. simpl.
  apply mapM_idx_proper; [intros i; apply Hf|].
  apply Forall2_same_length_lookup. eauto.
Qed.

#[export] Instance load_proper : Proper (veq ==> eq) load.
Proof.
  intros v w H. destruct H as [| | | | |ps qs Hk]; try done.
  unfold load. simpl. veq_reads Hk.
  rewrite (load_array_proper "headerLinks" load_link ps qs) by (done || apply _).
  rewrite (load_array_proper "users" load_user ps qs) by (done || apply _).
  rewrite (load_array_proper "scripts" as_nonempty ps qs) by (done || apply _).
  by rewrite (load_colors_proper _ _ _ (Hk "colors")),
    (load_highlight_proper _ _ _ (Hk "highlight")).
Qed.

End decoders.
