(* ===== verification/SchemaTypes.v ===== *)
(** Types and refinements of configuration values.

    The table of section 3 gives every field of the configuration a
    type: string, boolean, sequence, mapping.  [ty] is that language of
    types, [typecheck] its decision procedure on the values of
    [JsValue], and [config_ty] the type of the whole configuration.
    What the table asks beyond the types, that some strings are not
    empty and that a link has exactly one target, is the predicate
    [refined].

    Together the two say which values the decoder [load] accepts.  On a
    value of type [config_ty], [load] can only fail for a reason the
    types do not express, and it succeeds exactly when the value is
    [refined]: the fail-fast sequence of reads of [Schema] and the
    declarative reading of the table agree.  The object
    [src/website/siteConfig.js] exports has type [config_ty] and is
    refined, whatever the year.  Each field of [nonempty_fields] is
    really checked: an accepted object stops being accepted, with an
    error that names the field, when the field is removed or replaced
    by something that is not a non-empty string.  Types, like the
    decoders, do not see the order of properties ([typecheck_proper]). *)

From S2P Require Import Prelude JsNumber JsValue JsEquiv JsModule SiteConfig.
From S2P Require Import Schema.

Set Warnings "-clear-no-such-hyp,-register-all".

(** ** The types *)

Inductive ty : Type :=
| TString
| TBoolean
| TOptional (t : ty)
| TArray (elem : ty)
| TObject (fields : list (string * ty)).

(** [typecheck t v]: the value [v] has type [t].  Object types are
    open: they constrain the listed fields and allow others, as the
    source's own comment does ("you may provide arbitrary config
    keys").  A field that is absent reads as [undefined], which only an
    optional type accepts. *)
Fixpoint typecheck (t : ty) (v : value) {struct t} : bool :=
  match t, v with
  | TString, VStr _ => true
  | TBoolean, VBool _ => true
  | TOptional _, VUndefined => true
  | TOptional t', _ => typecheck t' v
  | TArray t', VArr l => forallb (typecheck t') l
  | TObject fs, VObj ps =>
      forallb (fun kt => typecheck kt.2 (obj_get kt.1 ps)) fs
  | _, _ => false
  end.

(** Induction on types, with the hypothesis for every field of an
    object type. *)
Section ty_ind.
Context (P : ty -> Prop)
  (Hstr : P TString) (Hbool : P TBoolean)
  (Hopt : forall t, P t -> P (TOptional t))
  (Harr : forall t, P t -> P (TArray t))
  (Hobj : forall fs, Forall (fun kt => P kt.2) fs -> P (TObject fs)).

Fixpoint ty_ind' (t : ty) : P t :=
  match t with
  | TString => Hstr
  | TBoolean => Hbool
  | TOptional t' => Hopt t' (ty_ind' t')
  | TArray t' => Harr t' (ty_ind' t')
  | TObject fs =>
      Hobj fs ((fix go (fs : list (string * ty)) : Forall (fun kt => P kt.2) fs :=
                  match fs with
                  | [] => Forall_nil _
                  | kt :: fs' =>
                      Forall_cons (fun kt => P kt.2) kt fs' (ty_ind' kt.2) (go fs')
                  end) fs)
  end.

End ty_ind.

(** A link carries a label and the three optional discriminants. *)
Definition link_ty : ty :=
  TObject [ ("doc", TOptional TString);
            ("page", TOptional TString);
            ("blog", TOptional TBoolean);
            ("label", TString) ].

Definition user_ty : ty :=
  TObject [ ("caption", TString);
            ("image", TString);
            ("infoLink", TString);
            ("pinned", TBoolean) ].

Definition colors_ty : ty :=
  TObject [ ("primaryColor", TString); ("secondaryColor", TString) ].

Definition highlight_ty : ty := TObject [ ("theme", TString) ].

Definition config_ty : ty :=
  TObject [
    ("title", TString);
    ("tagline", TString);
    ("url", TString);
    ("baseUrl", TString);
    ("projectName", TString);
    ("headerLinks", TArray link_ty);
    ("users", TArray user_ty);
    ("headerIcon", TString);
    ("footerIcon", TString);
    ("favicon", TString);
    ("colors", colors_ty);
    ("copyright", TString);
    ("highlight", highlight_ty);
    ("scripts", TArray TString);
    ("repoUrl", TString)
  ].

(** The reasons of failure that say something about the content of a
    field, not about its kind. *)
Definition refinement (r : Reason) : bool :=
  match r with
  | EmptyString | NoDiscriminant | AmbiguousDiscriminant => true
  | _ => false
  end.

(** A decoding step that fails, if it does, for such a reason. *)
Definition refines_only {A} (m : result ConfigurationError A) : Prop :=
  forall e, m = Err e -> refinement (err_reason e) = true.

(** ** Refinements *)

(** The fields of the configuration itself that must be non-empty
    strings: the required fields of section 4.1, then the paths and
    URIs of section 3. *)
Definition nonempty_fields : list string :=
  [ "title"; "url"; "baseUrl"; "projectName";
    "headerIcon"; "footerIcon"; "favicon"; "repoUrl" ].

(** A non-empty string. *)
Definition filled (v : value) : bool :=
  match v with
  | VStr s => nonempty s
  | _ => false
  end.

(** An array whose elements satisfy [ok]. *)
Definition elements (ok : value -> bool) (v : value) : bool :=
  match v with
  | VArr l => forallb ok l
  | _ => false
  end.

(** A link has exactly one target, and a label. *)
Definition link_refined (v : value) : bool :=
  match v with
  | VObj ps =>
      bool_decide (discriminants_set v = 1) && filled (obj_get "label" ps)
  | _ => false
  end.

Definition user_refined (v : value) : bool :=
  match v with
  | VObj ps => filled (obj_get "image" ps) && filled (obj_get "infoLink" ps)
  | _ => false
  end.

Definition colors_refined (v : value) : bool :=
  match v with
  | VObj ps =>
      filled (obj_get "primaryColor" ps) && filled (obj_get "secondaryColor" ps)
  | _ => false
  end.

(** What section 3 asks of a configuration value beyond its type. *)
Definition refined (v : value) : bool :=
  match v with
  | VObj ps =>
      forallb (fun k => filled (obj_get k ps)) nonempty_fields
      && elements link_refined (obj_get "headerLinks" ps)
      && elements user_refined (obj_get "users" ps)
      && colors_refined (obj_get "colors" ps)
      && elements filled (obj_get "scripts" ps)
  | _ => false
  end.

(** ** Canonical forms *)

Section canonical.
Implicit Types (v : value) (t : ty).

Lemma typecheck_string v : typecheck TString v = true -> exists s, v = VStr s.
Proof. destruct v; try done. by eexists. Qed.

Lemma typecheck_boolean v : typecheck TBoolean v = true -> exists b, v = VBool b.
Proof. destruct v; try done. by eexists. Qed.

Lemma typecheck_optional t v :
  typecheck (TOptional t) v = true -> v = VUndefined \/ typecheck t v = true.
Proof. destruct v; simpl; auto. Qed.

Lemma typecheck_array t v :
  typecheck (TArray t) v = true ->
  exists l, v = VArr l /\ forall x, x ∈ l -> typecheck t x = true.
Proof.
  destruct v as [| | | |l|]; try done. simpl. rewrite forallb_forall.
  intros H. exists l. split; [done|]. intros x Hx. by apply H, list_elem_of_In.
Qed.

Lemma typecheck_object fs v :
  typecheck (TObject fs) v = true ->
  exists ps, v = VObj ps /\
    forall k t, (k, t) ∈ fs -> typecheck t (obj_get k ps) = true.
Proof.
  destruct v as [| | | | |ps]; try done. simpl. rewrite forallb_forall.
  intros H. exists ps. split; [done|]. intros k t Hkt.
  by apply (H (k, t)), list_elem_of_In.
Qed.

Lemma typecheck_object_cons k t fs ps :
  typecheck (TObject ((k, t) :: fs)) (VObj ps) =
  typecheck t (obj_get k ps) && typecheck (TObject fs) (VObj ps).
Proof. reflexivity. Qed.

(** An optional type accepts what its type accepts. *)
Lemma typecheck_some t v : typecheck t v = true -> typecheck (TOptional t) v = true.
Proof. by destruct v. Qed.

End canonical.

(** ** Types do not see the order of properties *)

#[export] Instance typecheck_proper t : Proper (veq ==> eq) (typecheck t).
Proof.
  induction t as [| |t IH|t IH|fs IH] using ty_ind'; intros v w H.
  - by destruct H.
  - by destruct H.
  - destruct H; simpl; try done; apply IH; by constructor.
  - destruct H as [| | | |l l' Hlen Hall|]; try done.
    assert (Forall2 veq l l') as Hll
      by (apply Forall2_same_length_lookup; eauto).
    simpl. clear Hlen Hall.
    induction Hll as [|x y l l' Hxy _ IHl]; simpl; [done|].
    by rewrite (IH x y Hxy), IHl.
  - destruct H as [| | | | |ps qs Hk]; try done. simpl.
    induction IH as [|[k t] fs Ht _ IHfs]; simpl in *; [done|].
    by rewrite (Ht _ _ (Hk k)), IHfs.
Qed.

(** [typed_object H c] opens [H : typecheck c v = true], for [c] the
    name of an object type, into [v] being an object and one fact per
    field. *)
Ltac typed_object H c :=
  unfold c in H;
  match type of H with
  | typecheck _ ?v = true => destruct v as [| | | | |?ps]; [discriminate H..|]
  end;
  rewrite !typecheck_object_cons in H;
  repeat (let Hf := fresh "Hf" in apply andb_prop in H as [Hf H]);
  clear H.

(** ** Decoding typed values *)

Section refines.
Context {A B : Type}.
Implicit Types (m : result ConfigurationError A) (p : list PathElem)
  (v : value).

Lemma refines_only_Ok (a : A) : refines_only (Ok a).
Proof. by intros e. Qed.

Lemma refines_only_bind m (k : A -> result ConfigurationError B) :
  refines_only m -> (forall a, m = Ok a -> refines_only (k a)) ->
  refines_only (rbind m k).
Proof. intros Hm Hk e [?|(a & Ha & He)]%rbind_Err; [auto|by eapply Hk]. Qed.

Lemma refines_only_rmap (f : A -> B) m : refines_only m -> refines_only (rmap f m).
Proof. intros Hm e. destruct m as [a|e']; simpl; [done|]. intros [= <-]. auto. Qed.

End refines.

Section typed_decoding.
Implicit Types (p : list PathElem) (v : value) (ps : list (string * value)).

Lemma as_string_typed p v : typecheck TString v = true -> refines_only (as_string p v).
Proof. by intros [s ->]%typecheck_string e. Qed.

Lemma as_bool_typed p v : typecheck TBoolean v = true -> refines_only (as_bool p v).
Proof. by intros [b ->]%typecheck_boolean e. Qed.

Lemma as_nonempty_typed p v :
  typecheck TString v = true -> refines_only (as_nonempty p v).
Proof.
  intros [s ->]%typecheck_string e. unfold as_nonempty. simpl.
  destruct (nonempty s); simpl; [done|]. by intros [= <-].
Qed.

(** The discriminant that is set has the kind its reader expects. *)
Lemma load_link_typed p v : typecheck link_ty v = true -> refines_only (load_link p v).
Proof.
  intros H. typed_object H link_ty. unfold load_link. simpl.
  apply refines_only_bind;
    [|intros ? _; apply refines_only_bind;
        [by apply as_nonempty_typed|intros; apply refines_only_Ok]].
  destruct (typecheck_optional _ _ Hf) as [->|[s ->]%typecheck_string];
  destruct (typecheck_optional _ _ Hf0) as [->|[s' ->]%typecheck_string];
  destruct (typecheck_optional _ _ Hf1) as [->|[b ->]%typecheck_boolean];
    simpl; repeat case_match; intros e He; unfold config_error in He;
    by simplify_eq.
Qed.

End typed_decoding.

#[export] Hint Resolve as_string_typed as_bool_typed as_nonempty_typed
  load_link_typed : js.

(** Decodes field after field: each bind is split into the step, closed
    by the typing of its field, and the rest. *)
Ltac solve_refines :=
  simpl;
  repeat (apply refines_only_bind; [by eauto with js|intros ? _]);
  try apply refines_only_Ok; eauto with js.

Section typed_records.
Implicit Types (p : list PathElem) (v : value) (ps : list (string * value)).

Lemma load_user_typed p v : typecheck user_ty v = true -> refines_only (load_user p v).
Proof. intros H. typed_object H user_ty. unfold load_user. solve_refines. Qed.

Lemma load_colors_typed p v :
  typecheck colors_ty v = true -> refines_only (load_colors p v).
Proof. intros H. typed_object H colors_ty. unfold load_colors. solve_refines. Qed.

Lemma load_highlight_typed p v :
  typecheck highlight_ty v = true -> refines_only (load_highlight p v).
Proof. intros H. typed_object H highlight_ty. unfold load_highlight. solve_refines. Qed.

(** An array field of typed elements fails where an element does. *)
Lemma load_array_typed {A} k t
    (f : list PathElem -> value -> result ConfigurationError A) ps :
  (forall p x, typecheck t x = true -> refines_only (f p x)) ->
  typecheck (TArray t) (obj_get k ps) = true ->
  refines_only (load_array k f ps).
Proof.
  intros Hf (l & Hl & Hall)%typecheck_array e. unfold load_array.
  rewrite Hl. simpl. intros (j & x & Hj & He & _)%mapM_idx_Err.
  eapply Hf; [|exact He]. eapply Hall, list_elem_of_lookup_2, Hj.
Qed.

End typed_records.

#[export] Hint Resolve load_user_typed load_colors_typed load_highlight_typed : js.
#[export] Hint Extern 2 (refines_only (load_array _ _ _)) =>
  eapply load_array_typed; [|eassumption]; eauto with js : js.

(** ** Encoded configurations are typed *)

Section encode.

Lemma encode_link_typed l : typecheck link_ty (encode_link l) = true.
Proof. by destruct l as [[]]. Qed.

Lemma encode_user_typed u : typecheck user_ty (encode_user u) = true.
Proof. reflexivity. Qed.

Lemma typecheck_array_fmap {A} t (f : A -> value) (l : list A) :
  (forall a, typecheck t (f a) = true) ->
  typecheck (TArray t) (VArr (f <$> l)) = true.
Proof. intros H. simpl. induction l; simpl; [done|]. by rewrite H. Qed.

Lemma encode_typed c : typecheck config_ty (encode c) = true.
Proof.
  pose proof (typecheck_array_fmap _ _ (cfg_headerLinks c) encode_link_typed) as H1.
  pose proof (typecheck_array_fmap _ _ (cfg_users c) encode_user_typed) as H2.
  pose proof (typecheck_array_fmap TString VStr (cfg_scripts c)
                (fun _ => eq_refl)) as H3.
  unfold config_ty, encode. revert H1 H2 H3.
  generalize (encode_link <$> cfg_headerLinks c) (encode_user <$> cfg_users c)
    (VStr <$> cfg_scripts c).
  intros l1 l2 l3. simpl. by intros -> -> ->.
Qed.

End encode.

(** ** Which typed values [load] accepts *)

Section accepts.
Implicit Types (p : list PathElem) (v : value) (ps : list (string * value)).

Lemma as_nonempty_accepts p v : is_Ok (as_nonempty p v) = filled v.
Proof.
  destruct v as [| | |s| |]; try done. unfold as_nonempty. simpl.
  by destruct (nonempty s).
Qed.

Lemma as_string_accepts p v :
  typecheck TString v = true -> is_Ok (as_string p v) = true.
Proof. by intros [s ->]%typecheck_string. Qed.

Lemma as_bool_accepts p v :
  typecheck TBoolean v = true -> is_Ok (as_bool p v) = true.
Proof. by intros [b ->]%typecheck_boolean. Qed.

(** An array field is accepted when each of its elements is. *)
Lemma load_array_accepts {A} k t (ok : value -> bool)
    (f : list PathElem -> value -> result ConfigurationError A) ps :
  (forall p x, typecheck t x = true -> is_Ok (f p x) = ok x) ->
  typecheck (TArray t) (obj_get k ps) = true ->
  is_Ok (load_array k f ps) = elements ok (obj_get k ps).
Proof.
  intros Hf (l & Hl & Hall)%typecheck_array. unfold load_array.
  rewrite Hl. simpl. apply mapM_idx_is_Ok. intros j x Hx. by apply Hf, Hall.
Qed.

End accepts.

(** Splits the success of a sequence of binds into the success of each
    step: the step is closed by the lemma of its reader and the typing
    of its field. *)
Ltac accepts_step :=
  first
    [ apply as_nonempty_accepts
    | by apply as_string_accepts
    | by apply as_bool_accepts
    | eapply load_array_accepts; [|eassumption]; intros;
      solve [eauto with js nocore]
    | solve [eauto with js nocore] ].

(** Two conjunctions of the same booleans, in any order and grouping. *)
Ltac andb_tauto :=
  apply eq_true_iff_eq; cbn [andb]; rewrite !andb_true_iff; tauto.

Ltac accepts_chain :=
  lazymatch goal with
  | |- is_Ok (rbind _ _) = _ =>
      eapply is_Ok_bind; [accepts_step|intros ?; accepts_chain]
  | |- is_Ok (Ok _) = _ => cbn [is_Ok]; reflexivity
  | |- _ => accepts_step
  end.

Section accepts_records.
Implicit Types (p : list PathElem) (v : value) (ps : list (string * value)).

(** Of the three discriminants, typed as they are, the one that is set
    has the kind its reader expects. *)
Lemma load_link_accepts p v :
  typecheck link_ty v = true -> is_Ok (load_link p v) = link_refined v.
Proof.
  intros H. typed_object H link_ty.
  unfold load_link, link_refined, discriminants_set. cbn [as_object rbind].
  rewrite !filter_cons, filter_nil.
  eapply is_Ok_bind; [|intros ?; etrans; [accepts_chain|apply andb_true_r]].
  destruct (typecheck_optional _ _ Hf) as [->|[s ->]%typecheck_string];
  destruct (typecheck_optional _ _ Hf0) as [->|[s' ->]%typecheck_string];
  destruct (typecheck_optional _ _ Hf1) as [->|[b ->]%typecheck_boolean];
    simpl; repeat case_match; simplify_eq/=; done.
Qed.

Lemma load_user_accepts p v :
  typecheck user_ty v = true -> is_Ok (load_user p v) = user_refined v.
Proof.
  intros H. typed_object H user_ty. unfold load_user, user_refined.
  cbn [as_object rbind]. etrans; [accepts_chain|]. andb_tauto.
Qed.

Lemma load_colors_accepts p v :
  typecheck colors_ty v = true -> is_Ok (load_colors p v) = colors_refined v.
Proof.
  intros H. typed_object H colors_ty. unfold load_colors, colors_refined.
  cbn [as_object rbind]. etrans; [accepts_chain|]. andb_tauto.
Qed.

Lemma load_highlight_accepts p v :
  typecheck highlight_ty v = true -> is_Ok (load_highlight p v) = true.
Proof.
  intros H. typed_object H highlight_ty. unfold load_highlight.
  cbn [as_object rbind]. accepts_chain.
Qed.

End accepts_records.

#[export] Hint Resolve load_link_accepts load_user_accepts load_colors_accepts
  load_highlight_accepts as_nonempty_accepts : js.

Section accepts_config.
Implicit Types (v : value) (c : SiteConfiguration).

(** The fail-fast sequence of reads and the declarative reading of the
    table agree on typed values. *)
Lemma load_accepts v :
  typecheck config_ty v = true -> is_Ok (load v) = refined v.
Proof.
  intros H. typed_object H config_ty. unfold load, refined, nonempty_fields.
  cbn [as_object rbind forallb]. etrans; [accepts_chain|]. andb_tauto.
Qed.

Lemma load_refined v :
  typecheck config_ty v = true -> refined v = true -> exists c, load v = Ok c.
Proof. intros Hty Hr. apply is_Ok_true. by rewrite load_accepts. Qed.

(** In whatever [load] accepts, typed or not, the listed fields are
    non-empty strings. *)
Lemma load_Ok_filled k ps c :
  k ∈ nonempty_fields -> load (VObj ps) = Ok c -> filled (obj_get k ps) = true.
Proof.
  unfold nonempty_fields. rewrite !elem_of_cons, elem_of_nil.
  intros Hk H. unfold load in H. cbn [as_object rbind] in H.
  inv_result. inv_readers.
  destruct_or!; simplify_eq;
    match goal with H : obj_get _ ps = VStr _ |- _ => by rewrite H end.
Qed.

End accepts_config.

(** ** Each field is checked *)

Section fields.
Implicit Types (k : string) (ps qs : list (string * value))
  (c : SiteConfiguration) (e : ConfigurationError).

(** An array field is read from its own property only. *)
Lemma load_array_ext {A} k
    (f : list PathElem -> value -> result ConfigurationError A) ps qs :
  obj_get k qs = obj_get k ps -> load_array k f qs = load_array k f ps.
Proof. unfold load_array. by intros ->. Qed.

(** In an object that differs from an accepted one in the field [k]
    only, the reads before [k] succeed as they did, and the read of
    [k] is where [load] fails if it does. *)
Lemma load_field_replaced k ps qs c e :
  k ∈ nonempty_fields -> load (VObj ps) = Ok c ->
  (forall k', k' <> k -> obj_get k' qs = obj_get k' ps) ->
  as_nonempty [Key k] (obj_get k qs) = Err e ->
  load (VObj qs) = Err e.
Proof.
  unfold nonempty_fields. rewrite !elem_of_cons, elem_of_nil.
  intros Hk H Hsame He. unfold load in *. cbn [as_object rbind] in *.
  inv_result.
  destruct_or!; simplify_eq;
    rewrite ?(load_array_ext _ _ ps qs) by (by apply Hsame);
    repeat match goal with
    | |- context [obj_get ?k' qs] => rewrite (Hsame k') by done
    end;
    repeat match goal with
    | H : ?m = Ok _ |- context [?m] => rewrite H; cbn [rbind]
    end;
    by rewrite He.
Qed.

(** What is not a non-empty string is refused, for a reason it has. *)
Lemma as_nonempty_refuses p v :
  filled v = false ->
  exists r, as_nonempty p v = Err {| err_path := p; err_reason := r |} /\
    reason_holds r v = true.
Proof.
  rewrite <- (as_nonempty_accepts p). intros [[q r] He]%is_Ok_false.
  destruct (as_nonempty_Err _ _ _ He) as [Hp Hr]. simpl in *. subst q.
  by exists r.
Qed.

End fields.

(** ** The module's export *)

Section export.
Implicit Types (y : Z).

Lemma exported_typed y : typecheck config_ty (exported y) = true.
Proof.
  unfold exported, exported_props. generalize (copyright_text y). by intros s.
Qed.

Lemma exported_refined y : refined (exported y) = true.
Proof.
  unfold exported, exported_props. generalize (copyright_text y). by intros s.
Qed.

End export.

(** ** Properties *)

(** C17.  The object the module exports is well typed: for every host
    clock, evaluating [src/website/siteConfig.js] succeeds with a value
    of type [config_ty], the type the configuration table gives field
    by field (strings, the two arrays of records, the array of script
    URLs, the two nested mappings); and so is every value that answers
    property reads as the export does, whatever the order of its
    properties. *)
Theorem module_exports_typed (h : Host) :
  exists v, module_exports h = Ok v /\ typecheck config_ty v = true /\
    forall w, v ≈ w -> typecheck config_ty w = true.
Proof.
  pose proof (exported_typed (fullYear h)) as Hty.
  exists (exported (fullYear h)). split; [apply module_exports_eq|].
  split; [done|]. by intros w <-.
Qed.

(** C18.  Decoding is type safe: on a value of type [config_ty], [load]
    fails, if it fails, with a reason about the content of a field
    (an empty string, a link with no target or with several), never
    with a missing field or a field of the wrong kind. *)
Theorem load_typed_errors (v : value) (e : ConfigurationError) :
  typecheck config_ty v = true -> load v = Err e ->
  refinement (err_reason e) = true.
Proof.
  intros H. revert e. change (refines_only (load v)).
  typed_object H config_ty. unfold load. solve_refines.
Qed.

Lemma load_typed_errors_witness :
  refinement
    (err_reason {| err_path := [Key "title"]; err_reason := EmptyString |})
  = true.
Proof.
  apply (load_typed_errors
           (VObj (obj_set "title" (VStr "") (exported_props 2018))));
    reflexivity.
Defined.

(** C33.  The decoder and the table agree: on a value of type
    [config_ty], the fail-fast sequence of reads [load] returns a
    configuration exactly when the value is [refined], that is when the
    eight fields of [nonempty_fields] are non-empty strings, every link
    has exactly one of [doc], [page], [blog] set and a non-empty label,
    every user a non-empty image and info link, both colours are
    non-empty and no script URL is empty. *)
Theorem load_accepts_refined (v : value) :
  typecheck config_ty v = true ->
  (exists c, load v = Ok c) <-> refined v = true.
Proof. intros H. by rewrite <- is_Ok_true, load_accepts. Qed.

Lemma load_accepts_refined_witness :
  (exists c, load (exported 2018) = Ok c) <-> refined (exported 2018) = true.
Proof. apply (load_accepts_refined (exported 2018)). reflexivity. Defined.

(** C34.  Each of the fields [title], [url], [baseUrl], [projectName],
    [headerIcon], [footerIcon], [favicon], [repoUrl] is checked, in any
    object: if [load] accepts an object, the field is a non-empty
    string in it; with the property removed from the object, [load]
    fails naming the field as [Missing]; and with the property set to
    anything that is not a non-empty string, [load] fails naming the
    field, with a reason that is true of the value (absent, empty, not
    a string). *)
Theorem load_rejects_missing_required (k : string)
    (ps : list (string * value)) (c : SiteConfiguration) :
  k ∈ nonempty_fields -> load (VObj ps) = Ok c ->
  filled (obj_get k ps) = true /\
  load (VObj (obj_delete k ps))
    = Err {| err_path := [Key k]; err_reason := Missing |} /\
  forall x, filled x = false ->
    exists r, reason_holds r x = true /\
      load (VObj (obj_set k x ps)) = Err {| err_path := [Key k]; err_reason := r |}.
Proof.
  intros Hk Hload. split; [by eapply load_Ok_filled|]. split.
  - eapply load_field_replaced; [done..| |].
    + intros k' Hne. by apply obj_get_delete_ne.
    + by rewrite obj_get_delete_eq.
  - intros x Hx.
    destruct (as_nonempty_refuses [Key k] x Hx) as (r & He & Hr).
    exists r. split; [done|]. eapply load_field_replaced; [done..| |].
    + intros k' Hne. by apply obj_get_set_ne.
    + by rewrite obj_get_set_eq.
Qed.

Lemma load_rejects_missing_required_witness :
  filled (obj_get "title" (exported_props 2018)) = true /\
  load (VObj (obj_delete "title" (exported_props 2018)))
    = Err {| err_path := [Key "title"]; err_reason := Missing |} /\
  forall x, filled x = false ->
    exists r, reason_holds r x = true /\
      load (VObj (obj_set "title" x (exported_props 2018)))
      = Err {| err_path := [Key "title"]; err_reason := r |}.
Proof.
  apply (load_rejects_missing_required "title" (exported_props 2018)
           {| cfg_title := "Aktoro Lang";
              cfg_tagline := "An Expressive Language for the Golang Ecosystem";
              cfg_url := "https://aktoro-lang.github.io";
              cfg_baseUrl := "/test-site/";
              cfg_projectName := "aktoro-lang";
              cfg_headerLinks :=
                [ {| link_target := Doc "quickstart"; link_label := "Getting Started" |};
                  {| link_target := Doc "overview"; link_label := "Docs" |};
                  {| link_target := Page "help"; link_label := "Help" |};
                  {| link_target := Blog; link_label := "Blog" |} ];
              cfg_users :=
                [ {| user_caption := "User1";
                     user_image := "/test-site/img/docusaurus.svg";
                     user_infoLink := "https://www.facebook.com";
                     user_pinned := true |} ];
              cfg_headerIcon := "img/logo-plain.svg";
              cfg_footerIcon := "img/logo.png";
              cfg_favicon := "img/logo.png";
              cfg_colors :=
                {| color_primary := "#0287ee"; color_secondary := "#02eede" |};
              cfg_copyright := copyright_text 2018;
              cfg_highlight_theme := "default";
              cfg_scripts := ["https://buttons.github.io/buttons.js"];
              cfg_repoUrl := "https://github.com/facebook/test-site" |});
    [by left|reflexivity].
Defined.
