(* ===== verification/Contract.v ===== *)
(** The interface between a configuration module and the generator.

    The generator imports one value from the module and reads its fields
    (section 6 of the specification).  [SiteModule] is what the generator
    needs of a module: a way to evaluate it on a host.  [SiteModuleOk] is
    what a module promises: evaluation succeeds, and the export has the
    types of the table of section 3 and satisfies its refinements
    ([config_ty] and [refined] of [SchemaTypes]).  The promise is about
    the exported value only; that the generator can then decode it is
    proved here.  [load_site] is the specification's [load()], and the
    lemmas of the section [client] are the generator's side, proved for
    any module that keeps the promise; [Conformance] provides the
    instance for [src/website/siteConfig.js]. *)

From S2P Require Import Prelude JsNumber JsValue JsModule Schema SchemaTypes.

Set Warnings "-clear-no-such-hyp".

(** ** The interface *)

Class SiteModule : Type := {
  module_value : Host -> result JsError value
}.

Class SiteModuleOk (M : SiteModule) : Prop := {
  module_conforms : forall h, exists v,
    module_value h = Ok v /\ typecheck config_ty v = true /\ refined v = true
}.

(** Why [load()] failed: the module body threw, or its export is invalid. *)
Inductive LoadError : Type :=
| ModuleThrew (e : JsError)
| Invalid (e : ConfigurationError).

(** The specification's [load()]: evaluate the module, decode the export. *)
Definition load_site `{M : SiteModule} (h : Host)
  : result LoadError SiteConfiguration :=
  match module_value h with
  | Err e => Err (ModuleThrew e)
  | Ok v =>
      match load v with
      | Err e => Err (Invalid e)
      | Ok c => Ok c
      end
  end.

(** What the generator renders from a configuration: the navigation
    labels in display order, and the users shown on the front page. *)
Definition nav_labels (c : SiteConfiguration) : list string :=
  link_label <$> cfg_headerLinks c.

Definition pinned_users (c : SiteConfiguration) : list UserRecord :=
  filter (fun u => user_pinned u = true) (cfg_users c).

(** ** The generator's side *)

Section client.
Context `{M : SiteModule} {Hok : SiteModuleOk M}.
Implicit Types (h : Host) (c : SiteConfiguration).

Lemma load_site_Ok h c :
  load_site h = Ok c <-> exists v, module_value h = Ok v /\ load v = Ok c.
Proof.
  unfold load_site. split.
  - destruct (module_value h) as [v|e]; [|done].
    destruct (load v) as [c'|e] eqn:E; [|done]. intros [= ->]. eauto.
  - intros (v & -> & ->). done.
Qed.

Lemma load_site_total h : exists c, load_site h = Ok c.
Proof.
  destruct (module_conforms h) as (v & Hv & Hty & Hr).
  destruct (load_refined v Hty Hr) as [c Hc]. exists c.
  apply load_site_Ok. eauto.
Qed.

Lemma load_site_wf h c : load_site h = Ok c -> wf_config c = true.
Proof. intros H. apply load_site_Ok in H as (v & _ & Hc). by eapply load_wf. Qed.

Lemma wf_link_label (l : LinkDescriptor) :
  wf_link l = true -> nonempty (link_label l) = true.
Proof. unfold wf_link. by intros [_ ?]%andb_true_iff. Qed.

Lemma wf_config_links c : wf_config c = true -> forallb wf_link (cfg_headerLinks c) = true.
Proof. unfold wf_config. rewrite !andb_true_iff. naive_solver. Qed.

Lemma nav_labels_nonempty c :
  wf_config c = true -> Forall (fun s => nonempty s = true) (nav_labels c).
Proof.
  intros Hl%wf_config_links. rewrite forallb_forall in Hl.
  unfold nav_labels. apply Forall_fmap, Forall_forall.
  intros l Hin. simpl. by apply wf_link_label, Hl.
Qed.

End client.

(** ** Properties *)

(** C26.  For any module that keeps the promise of the interface, that
    is whose export on every host has type [config_ty] and is
    [refined], the generator's [load()] returns a configuration on
    every host, that configuration is well formed, and every navigation
    label the generator renders from it is a non-empty string. *)
Theorem conforming_module_loads (M : SiteModule) (Hok : SiteModuleOk M)
    (h : Host) :
  exists c, load_site h = Ok c /\ wf_config c = true /\
    Forall (fun s => nonempty s = true) (nav_labels c).
Proof.
  destruct (load_site_total h) as [c Hc]. exists c.
  pose proof (load_site_wf h c Hc). eauto using nav_labels_nonempty.
Qed.
