(* ===== verification/Conformance.v ===== *)
(** The exported object of [src/website/siteConfig.js] against the
    contract of [Schema] and the interface of [Contract].

    [aktoro_module] is the module as the generator imports it, an
    instance of [SiteModule]; [aktoro_module_ok] discharges the
    interface's promise for it.  [expected y] is the typed configuration
    the specification's scenario describes.  The theorems state that
    [load_site] succeeds on the module for every clock reading, which
    record it returns, what the generator renders from it, and how
    [load] answers when the links of the exported object are altered in
    the ways the specification's negative scenarios name. *)

From stdpp Require Import gmap.
From S2P Require Import Prelude JsNumber JsValue JsEquiv JsModule SiteConfig.
From S2P Require Import Schema LoadProper SchemaTypes Contract.

Set Warnings "-clear-no-such-hyp".

(** ** Definitions *)

Definition expected_links : list LinkDescriptor :=
  [ {| link_target := Doc "quickstart"; link_label := "Getting Started" |};
    {| link_target := Doc "overview"; link_label := "Docs" |};
    {| link_target := Page "help"; link_label := "Help" |};
    {| link_target := Blog; link_label := "Blog" |} ].

Definition expected_users : list UserRecord :=
  [ {| user_caption := "User1";
       user_image := "/test-site/img/docusaurus.svg";
       user_infoLink := "https://www.facebook.com";
       user_pinned := true |} ].

Definition expected (y : Z) : SiteConfiguration :=
  {| cfg_title := "Aktoro Lang";
     cfg_tagline := "An Expressive Language for the Golang Ecosystem";
     cfg_url := "https://aktoro-lang.github.io";
     cfg_baseUrl := "/test-site/";
     cfg_projectName := "aktoro-lang";
     cfg_headerLinks := expected_links;
     cfg_users := expected_users;
     cfg_headerIcon := "img/logo-plain.svg";
     cfg_footerIcon := "img/logo.png";
     cfg_favicon := "img/logo.png";
     cfg_colors := {| color_primary := "#0287ee"; color_secondary := "#02eede" |};
     cfg_copyright := copyright_text y;
     cfg_highlight_theme := "default";
     cfg_scripts := ["https://buttons.github.io/buttons.js"];
     cfg_repoUrl := "https://github.com/facebook/test-site" |}.

(** This repository's module, as the generator sees it. *)
#[export] Instance aktoro_module : SiteModule :=
  {| module_value := module_exports |}.

(** The exported object with property [k] overwritten by [v]. *)
Definition exported_with (k : string) (v : value) (y : Z) : value :=
  VObj (obj_set k v (exported_props y)).

(** ** The exported object is valid *)

Section valid.
Implicit Types (y : Z) (h : Host).

Lemma encode_expected y : encode (expected y) = exported y.
Proof. reflexivity. Qed.

Lemma wf_expected y : wf_config (expected y) = true.
Proof. reflexivity. Qed.

Lemma load_exported y : load (exported y) = Ok (expected y).
Proof. rewrite <- encode_expected. apply load_encode, wf_expected. Qed.

(** The module keeps the promise of the interface. *)
#[export] Instance aktoro_module_ok : SiteModuleOk aktoro_module.
Proof.
  split. intros h. exists (exported (fullYear h)).
  split_and!; [apply module_exports_eq|apply exported_typed|apply exported_refined].
Qed.

End valid.

(** ** Altered exports are rejected *)

Section rejected.
Implicit Types (y : Z) (good : list LinkDescriptor) (rest : list value)
  (bad : list (string * value)).

(** Decoding the [headerLinks] array stops at the first element that is
    not a link, whatever precedes it is well formed. *)
Lemma load_links_first_bad good bad rest e :
  forallb wf_link good = true ->
  load_link [Key "headerLinks"; Index (length good)] (VObj bad) = Err e ->
  mapM_idx (fun i x => load_link [Key "headerLinks"; Index i] x) 0
    ((encode_link <$> good) ++ VObj bad :: rest) = Err e.
Proof.
  intros Hgood Hbad. eapply mapM_idx_first_Err.
  - apply (mapM_idx_fmap _ _ wf_link); [|done]. intros. by apply load_link_encode.
  - by rewrite length_fmap.
Qed.

Lemma load_exported_with_links y good bad rest e :
  forallb wf_link good = true ->
  load_link [Key "headerLinks"; Index (length good)] (VObj bad) = Err e ->
  load (exported_with "headerLinks"
          (VArr ((encode_link <$> good) ++ VObj bad :: rest)) y) = Err e.
Proof.
  intros Hgood Hbad. unfold load, load_array, exported_with. simpl.
  by rewrite (load_links_first_bad _ _ _ e).
Qed.

End rejected.

(** ** Properties *)

(** C2.  The specification's [load()] succeeds on this repository's
    module for every clock reading, and returns the typed configuration
    of the specification's scenario: title "Aktoro Lang", base URL
    "/test-site/", the four header links in declared order, one pinned
    user, and the copyright string computed from the clock. *)
Theorem load_site_ok (h : Host) : load_site h = Ok (expected (fullYear h)).
Proof.
  apply load_site_Ok. exists (exported (fullYear h)).
  split; [apply module_exports_eq|apply load_exported].
Qed.

(** C8.  Negative scenario: if the [headerLinks] of the exported object
    are replaced by an array whose first malformed element is an object
    with none of [doc], [page], [blog] set (such as [{label: 'Help'}]),
    [load] fails with a [ConfigurationError] whose path is that element
    and whose reason is [NoDiscriminant]. *)
Theorem load_rejects_untargeted_link (y : Z) (good : list LinkDescriptor)
    (bad : list (string * value)) (rest : list value) :
  forallb wf_link good = true ->
  discriminants_set (VObj bad) = 0 ->
  load (exported_with "headerLinks"
          (VArr ((encode_link <$> good) ++ VObj bad :: rest)) y)
  = Err {| err_path := [Key "headerLinks"; Index (length good)];
           err_reason := NoDiscriminant |}.
Proof.
  intros Hgood Hbad. apply load_exported_with_links; [done|].
  by apply load_link_no_target.
Qed.

Lemma load_rejects_untargeted_link_witness :
  load (exported_with "headerLinks"
          (VArr ((encode_link <$> take 2 expected_links)
                 ++ VObj [("label", VStr "Help")] :: [])) 2018)
  = Err {| err_path := [Key "headerLinks"; Index 2];
           err_reason := NoDiscriminant |}.
Proof.
  apply (load_rejects_untargeted_link 2018 (take 2 expected_links)
           [("label", VStr "Help")] []); reflexivity.
Defined.

(** C24.  Round trip: the object the module exports decodes to a
    well-formed configuration whose encoding is the identical object, so
    it carries exactly the properties of the schema, in the schema's
    order, and nothing else. *)
Theorem export_reencodes (h : Host) (v : value) :
  module_exports h = Ok v ->
  load v = Ok (expected (fullYear h)) /\
  wf_config (expected (fullYear h)) = true /\
  encode (expected (fullYear h)) = v.
Proof.
  intros ->%module_exports_inv.
  split_and!; [apply load_exported|apply wf_expected|apply encode_expected].
Qed.

Lemma export_reencodes_witness :
  load (exported 2018) = Ok (expected 2018) /\
  wf_config (expected 2018) = true /\
  encode (expected 2018) = exported 2018.
Proof. apply (export_reencodes (Build_Host 2018 eq_refl)). reflexivity. Defined.

(** C38.  An element of [headerLinks] with two or more of [doc], [page],
    [blog] set is rejected with reason [AmbiguousDiscriminant]. *)
Theorem load_rejects_ambiguous_link (y : Z) (good : list LinkDescriptor)
    (bad : list (string * value)) (rest : list value) :
  forallb wf_link good = true ->
  2 <= discriminants_set (VObj bad) ->
  load (exported_with "headerLinks"
          (VArr ((encode_link <$> good) ++ VObj bad :: rest)) y)
  = Err {| err_path := [Key "headerLinks"; Index (length good)];
           err_reason := AmbiguousDiscriminant |}.
Proof.
  intros Hgood Hbad. apply load_exported_with_links; [done|].
  by apply load_link_two_targets.
Qed.

Lemma load_rejects_ambiguous_link_witness :
  load (exported_with "headerLinks"
          (VArr ((encode_link <$> [])
                 ++ VObj [("doc", VStr "overview"); ("page", VStr "help");
                          ("label", VStr "Docs")] :: [])) 2018)
  = Err {| err_path := [Key "headerLinks"; Index 0];
           err_reason := AmbiguousDiscriminant |}.
Proof.
  apply (load_rejects_ambiguous_link 2018 []
           [("doc", VStr "overview"); ("page", VStr "help");
            ("label", VStr "Docs")] []); [reflexivity|].
  vm_compute. lia.
Defined.

(** C25.  The generator's reading is insensitive to the order in which
    the module writes its properties: any object that answers every
    property read as the module's export does, at every depth, decodes
    to the same configuration. *)
Theorem load_ignores_property_order (h : Host) (v w : value) :
  module_exports h = Ok v -> v ≈ w ->
  load w = Ok (expected (fullYear h)).
Proof.
  intros ->%module_exports_inv Hw. rewrite <- Hw. apply load_exported.
Qed.

Lemma load_ignores_property_order_witness :
  load (VObj (reverse (exported_props 2018))) = Ok (expected 2018).
Proof.
  apply (load_ignores_property_order (Build_Host 2018 eq_refl) (exported 2018));
    [reflexivity|].
  apply veq_Permutation; [by apply (bool_decide_unpack _)|].
  symmetry. apply reverse_Permutation.
Defined.

(** C37.  The specification's scenario as the generator renders it:
    whatever the clock reads, the navigation shows the four labels in
    the order the source declares them, and the users page shows one
    user, who is pinned. *)
Theorem scenario_navigation (h : Host) (c : SiteConfiguration) :
  load_site (M := aktoro_module) h = Ok c ->
  nav_labels c = ["Getting Started"; "Docs"; "Help"; "Blog"] /\
  length (cfg_users c) = 1 /\ pinned_users c = cfg_users c.
Proof.
  intros H. apply load_site_Ok in H as (v & ->%module_exports_inv & Hc).
  rewrite load_exported in Hc. by injection Hc as <-.
Qed.

Lemma scenario_navigation_witness :
  nav_labels (expected 2018) = ["Getting Started"; "Docs"; "Help"; "Blog"] /\
  length (cfg_users (expected 2018)) = 1 /\
  pinned_users (expected 2018) = cfg_users (expected 2018).
Proof.
  apply (scenario_navigation (Build_Host 2018 eq_refl)). reflexivity.
Defined.

Lemma conforming_module_loads_witness :
  exists c, load_site (Build_Host 2018 eq_refl) = Ok c /\ wf_config c = true /\
    Forall (fun s => nonempty s = true) (nav_labels c).
Proof.
  apply (conforming_module_loads aktoro_module aktoro_module_ok).
Defined.
