(* ===== verification/SiteConfigHeap.v ===== *)
(** The module [src/website/siteConfig.js] with object identity.

    The same three statements as in [SiteConfig], run on a state that
    has a scope and a heap ([Heap]): every array and object literal of
    the file allocates, the shorthand property [users] of line 30 stores
    the reference bound on line 9, and [module.exports = siteConfig]
    stores the reference bound on line 18 into the module object.

    The theorems relate the two models and state what only this one can:
    read as a tree, the exported reference is exactly the value
    [SiteConfig.module_exports] computes; [module.exports] and
    [siteConfig] are one object and its [users] property is the array
    bound to [users]; and since nothing freezes these objects, a write
    through any of the references after the module has run changes the
    configuration the generator loads. *)

From stdpp Require Import gmap.
From S2P Require Import Prelude JsNumber JsValue Heap JsModule SiteConfig.
From S2P Require Import Schema Contract Conformance.

Set Warnings "-clear-no-such-hyp".

(** ** States *)

Record hstate : Type := {
  hs_scope : gmap string hval;
  hs_heap : heap
}.

(** An identifier reference. *)
Definition h_lookup_ident (x : string) (st : hstate) : result JsError hval :=
  match hs_scope st !! x with
  | Some a => Ok a
  | None => Err (ReferenceError x)
  end.

(** [const x = a]. *)
Definition h_declare_const (x : string) (a : hval) (st : hstate)
  : result JsError hstate :=
  match hs_scope st !! x with
  | Some _ =>
      Err (SyntaxError ("Identifier '" +:+ x +:+ "' has already been declared"))
  | None => Ok {| hs_scope := <[x := a]> (hs_scope st); hs_heap := hs_heap st |}
  end.

(** The state at the start of the module body: [module] refers to an
    object whose [exports] property refers to an empty object. *)
Definition h_module_scope : hstate :=
  {| hs_scope := {[ "module" := HRef 1 ]};
     hs_heap := [HObj []; HObj [("exports", HRef 0)]] |}.

(** ** The statements *)

(** Line 9: the array literal and its element are allocated, and
    [users] is bound to the array's reference. *)
Definition h_stmt_users (st : hstate) : result JsError hstate :=
  let '(users_ref, h) := alloc_lit users (hs_heap st) in
  h_declare_const "users" users_ref {| hs_scope := hs_scope st; hs_heap := h |}.

(** Lines 18-54: the property values in source order.  The nested
    literals allocate; [users] is an identifier reference and yields the
    reference already bound, not a copy. *)
Definition h_siteConfig (hst : Host) (st : hstate)
  : result JsError (hval * heap) :=
  let '(headerLinks_ref, h1) := alloc_lit headerLinks (hs_heap st) in
  let* users_binding := h_lookup_ident "users" st in
  let '(colors_ref, h2) := alloc_lit colors h1 in
  let* copyright_value := copyright hst in
  let '(copyright_str, h3) := alloc_lit copyright_value h2 in
  let '(highlight_ref, h4) := alloc_lit highlight h3 in
  let '(scripts_ref, h5) := alloc_lit scripts h4 in
  Ok (alloc (HObj [
    ("title", HStr "Aktoro Lang");
    ("tagline", HStr "An Expressive Language for the Golang Ecosystem");
    ("url", HStr "https://aktoro-lang.github.io");
    ("baseUrl", HStr "/test-site/");
    ("projectName", HStr "aktoro-lang");
    ("headerLinks", headerLinks_ref);
    ("users", users_binding);
    ("headerIcon", HStr "img/logo-plain.svg");
    ("footerIcon", HStr "img/logo.png");
    ("favicon", HStr "img/logo.png");
    ("colors", colors_ref);
    ("copyright", copyright_str);
    ("highlight", highlight_ref);
    ("scripts", scripts_ref);
    ("repoUrl", HStr "https://github.com/facebook/test-site")
  ]) h5).

(** Line 18: [const siteConfig = {...}]. *)
Definition h_stmt_siteConfig (hst : Host) (st : hstate) : result JsError hstate :=
  let* r := h_siteConfig hst st in
  h_declare_const "siteConfig" r.1 {| hs_scope := hs_scope st; hs_heap := r.2 |}.

(** Line 56: [module.exports = siteConfig] writes the reference into the
    module object. *)
Definition h_stmt_exports (st : hstate) : result JsError hstate :=
  let* m := h_lookup_ident "module" st in
  let* a := h_lookup_ident "siteConfig" st in
  let* h := heap_set "exports" a m (hs_heap st) in
  Ok {| hs_scope := hs_scope st; hs_heap := h |}.

(** The module body, in source order. *)
Definition h_run_module (hst : Host) : result JsError hstate :=
  let* st1 := h_stmt_users h_module_scope in
  let* st2 := h_stmt_siteConfig hst st1 in
  h_stmt_exports st2.

(** What [require] returns: the reference stored in [module.exports]. *)
Definition h_require_result (st : hstate) : result JsError hval :=
  let* m := h_lookup_ident "module" st in
  heap_get "exports" m (hs_heap st).

(** ** What a holder of a reference can do afterwards *)

(** [users[0].pinned = b], through whatever reference to the users array
    the writer holds. *)
Definition set_first_pinned (b : bool) (users_ref : hval) (h : heap)
  : result JsError heap :=
  let* user := heap_index 0 users_ref h in
  heap_set "pinned" (HBool b) user h.

(** The tree a reader of the export sees. *)
Definition read_export (st : hstate) : option value :=
  match h_require_result st with
  | Ok r => reify 3 (hs_heap st) r
  | Err _ => None
  end.

(** ** The final state *)

(** The state the module body ends in: thirteen objects, the last of
    which is the configuration. *)
Definition h_final (y : Z) : hstate :=
  {| hs_scope :=
       {[ "module" := HRef 1; "users" := HRef 3; "siteConfig" := HRef 12 ]};
     hs_heap :=
       [ HObj [];
         HObj [("exports", HRef 12)];
         HObj [("caption", HStr "User1");
               ("image", HStr "/test-site/img/docusaurus.svg");
               ("infoLink", HStr "https://www.facebook.com");
               ("pinned", HBool true)];
         HArr [HRef 2];
         HObj [("doc", HStr "quickstart"); ("label", HStr "Getting Started")];
         HObj [("doc", HStr "overview"); ("label", HStr "Docs")];
         HObj [("page", HStr "help"); ("label", HStr "Help")];
         HObj [("blog", HBool true); ("label", HStr "Blog")];
         HArr [HRef 4; HRef 5; HRef 6; HRef 7];
         HObj [("primaryColor", HStr "#0287ee");
               ("secondaryColor", HStr "#02eede")];
         HObj [("theme", HStr "default")];
         HArr [HStr "https://buttons.github.io/buttons.js"];
         HObj [
           ("title", HStr "Aktoro Lang");
           ("tagline", HStr "An Expressive Language for the Golang Ecosystem");
           ("url", HStr "https://aktoro-lang.github.io");
           ("baseUrl", HStr "/test-site/");
           ("projectName", HStr "aktoro-lang");
           ("headerLinks", HRef 8);
           ("users", HRef 3);
           ("headerIcon", HStr "img/logo-plain.svg");
           ("footerIcon", HStr "img/logo.png");
           ("favicon", HStr "img/logo.png");
           ("colors", HRef 9);
           ("copyright", HStr (copyright_text y));
           ("highlight", HRef 10);
           ("scripts", HRef 11);
           ("repoUrl", HStr "https://github.com/facebook/test-site")
         ] ] |}.

(** What the export reads as once its user has been unpinned. *)
Definition unpinned_export (y : Z) : value :=
  VObj (obj_set "users"
          (VArr [VObj [("caption", VStr "User1");
                       ("image", VStr "/test-site/img/docusaurus.svg");
                       ("infoLink", VStr "https://www.facebook.com");
                       ("pinned", VBool false)]])
          (exported_props y)).

(** ** Running the module *)

Section run.
Implicit Types (hst : Host) (st : hstate) (y : Z).

Lemma h_run_module_eq hst : h_run_module hst = Ok (h_final (fullYear hst)).
Proof.
  unfold h_run_module, h_stmt_siteConfig, h_siteConfig, h_final.
  pose proof (copyright_eq hst) as Hc.
  destruct (copyright hst) as [c|]; [|done]. injection Hc as ->.
  generalize (copyright_text (fullYear hst)). intros s. reflexivity.
Qed.

Lemma h_run_module_inv hst st :
  h_run_module hst = Ok st -> st = h_final (fullYear hst).
Proof. rewrite h_run_module_eq. by intros [= <-]. Qed.

Lemma h_require_final y : h_require_result (h_final y) = Ok (HRef 12).
Proof. reflexivity. Qed.

Lemma read_export_final y : read_export (h_final y) = Some (exported y).
Proof.
  unfold read_export, h_final, exported, exported_props.
  generalize (copyright_text y). intros s. reflexivity.
Qed.

End run.

(** ** Properties *)

(** C5.  The two models agree: run on the heap, the module body
    completes, and the tree a reader sees from the reference in
    [module.exports] is the value the tree model exports. *)
Theorem heap_run_refines (hst : Host) :
  exists st v, h_run_module hst = Ok st /\
    read_export st = Some v /\ module_exports hst = Ok v.
Proof.
  exists (h_final (fullYear hst)), (exported (fullYear hst)).
  split_and!; [apply h_run_module_eq|apply read_export_final|].
  apply module_exports_eq.
Qed.

(** C9.  Sharing: after the module has run, [module.exports] and the
    binding [siteConfig] hold the same reference, and the [users]
    property of that object holds the reference bound to [users], which
    is a different object. *)
Theorem export_shares_objects (hst : Host) (st : hstate) :
  h_run_module hst = Ok st ->
  exists l_config l_users, l_config <> l_users /\
    h_require_result st = Ok (HRef l_config) /\
    h_lookup_ident "siteConfig" st = Ok (HRef l_config) /\
    h_lookup_ident "users" st = Ok (HRef l_users) /\
    heap_get "users" (HRef l_config) (hs_heap st) = Ok (HRef l_users).
Proof. intros ->%h_run_module_inv. exists 12, 3. by split_and!. Qed.

Lemma export_shares_objects_witness :
  exists l_config l_users, l_config <> l_users /\
    h_require_result (h_final 2018) = Ok (HRef l_config) /\
    h_lookup_ident "siteConfig" (h_final 2018) = Ok (HRef l_config) /\
    h_lookup_ident "users" (h_final 2018) = Ok (HRef l_users) /\
    heap_get "users" (HRef l_config) (hs_heap (h_final 2018))
    = Ok (HRef l_users).
Proof.
  apply (export_shares_objects (Build_Host 2018 eq_refl)). reflexivity.
Defined.

(** C4.  The exported configuration is not frozen: once the module has
    run, the assignment [users[0].pinned = false] through the binding
    [users] succeeds, and the object the generator was handed then
    decodes to a configuration with no pinned user, which is not the one
    the module constructed. *)
Theorem export_not_frozen (hst : Host) (st : hstate) (u : hval) :
  h_run_module hst = Ok st ->
  h_lookup_ident "users" st = Ok u ->
  exists h' c,
    set_first_pinned false u (hs_heap st) = Ok h' /\
    read_export {| hs_scope := hs_scope st; hs_heap := h' |}
    = Some (unpinned_export (fullYear hst)) /\
    load (unpinned_export (fullYear hst)) = Ok c /\
    pinned_users c = [] /\ c <> expected (fullYear hst).
Proof.
  intros ->%h_run_module_inv [= <-]. eexists _, _.
  split; [reflexivity|]. split.
  { unfold read_export, unpinned_export, exported_props. simpl.
    generalize (copyright_text (fullYear hst)). intros s. reflexivity. }
  split; [reflexivity|]. split; [reflexivity|].
  intros Hc. apply (f_equal pinned_users) in Hc. discriminate.
Qed.

Lemma export_not_frozen_witness :
  exists h' c,
    set_first_pinned false (HRef 3) (hs_heap (h_final 2018)) = Ok h' /\
    read_export {| hs_scope := hs_scope (h_final 2018); hs_heap := h' |}
    = Some (unpinned_export 2018) /\
    load (unpinned_export 2018) = Ok c /\
    pinned_users c = [] /\ c <> expected 2018.
Proof.
  apply (export_not_frozen (Build_Host 2018 eq_refl) (h_final 2018) (HRef 3));
    reflexivity.
Defined.
