(* ===== verification/ModuleSteps.v ===== *)
(** The module body as a transition system.

    Control is at one of the three statements of
    [src/website/siteConfig.js], or the body has returned, or it has
    thrown.  [step] runs the statement a program gives for the program
    counter, on any type of states, so that the store model here and
    the tree model in [Simulation] share the relation and its lemmas;
    [stmt_at] is the program on the state of [SiteConfigHeap], and
    [reachable] the reflexive transitive closure of its steps from the
    state [require] starts the body in.

    The invariant [inv] says what holds whenever control is at a
    statement: nothing has been thrown, exactly the names declared
    above the statement are bound, no reference dangles, and [module]
    refers to an object.  It is proved by induction on [reachable] from
    lemmas that hold of each statement on every state satisfying it,
    not by running the program.  The same lemmas give total
    correctness from any state the invariant admits: the statements
    left to run complete without throwing, in [remaining] steps, and
    [require] then returns what [siteConfig] is bound to.  The system
    is deterministic, and every run from the start returns after three
    steps in the state [h_final]. *)

From stdpp Require Import gmap relations.
From S2P Require Import Prelude JsNumber JsValue Heap HeapInv JsModule.
From S2P Require Import SiteConfig Schema Contract Conformance SiteConfigHeap.

Set Warnings "-clear-no-such-hyp".

(** ** The transition system *)

Inductive pc : Type :=
| AtUsers
| AtSiteConfig
| AtExports
| Returned
| Thrown (e : JsError).

#[export] Instance pc_eq_dec : EqDecision pc.
Proof. solve_decision. Defined.

(** The statement control is at. *)
Definition stmt_at (hst : Host) (p : pc)
  : option (hstate -> result JsError hstate) :=
  match p with
  | AtUsers => Some h_stmt_users
  | AtSiteConfig => Some (h_stmt_siteConfig hst)
  | AtExports => Some h_stmt_exports
  | Returned | Thrown _ => None
  end.

(** Where control goes when the statement completes. *)
Definition next (p : pc) : pc :=
  match p with
  | AtUsers => AtSiteConfig
  | AtSiteConfig => AtExports
  | AtExports | Returned | Thrown _ => Returned
  end.

(** The number of statements still to run. *)
Definition remaining (p : pc) : nat :=
  match p with
  | AtUsers => 3
  | AtSiteConfig => 2
  | AtExports => 1
  | Returned | Thrown _ => 0
  end.

(** One step of a program over any type of states: the statement at
    the program counter runs, and control moves on or the error is
    thrown.  [prog] gives the statement at each program counter. *)
Section machine.
Context {St : Type} (prog : pc -> option (St -> result JsError St)).

Inductive step : pc * St -> pc * St -> Prop :=
| step_next p f st st' :
    prog p = Some f -> f st = Ok st' ->
    step (p, st) (next p, st')
| step_throw p f st e :
    prog p = Some f -> f st = Err e ->
    step (p, st) (Thrown e, st).

End machine.

Definition initial : pc * hstate := (AtUsers, h_module_scope).

Definition reachable (hst : Host) (c : pc * hstate) : Prop :=
  rtc (step (stmt_at hst)) initial c.

(** ** The invariant *)

(** The names bound when control is at [p]. *)
Definition declared (p : pc) : gset string :=
  match p with
  | AtUsers => {[ "module" ]}
  | AtSiteConfig => {[ "module"; "users" ]}
  | AtExports | Returned => {[ "module"; "users"; "siteConfig" ]}
  | Thrown _ => ∅
  end.

(** No reference of the scope or of the heap dangles, and [module] is
    bound to an object. *)
Definition wf_state (st : hstate) : Prop :=
  wf_heap (hs_heap st) /\
  map_Forall (fun _ a => val_ok (length (hs_heap st)) a) (hs_scope st) /\
  exists l ps, hs_scope st !! "module" = Some (HRef l) /\
    hs_heap st !! l = Some (HObj ps).

Definition inv (c : pc * hstate) : Prop :=
  (forall e, c.1 <> Thrown e) /\
  dom (hs_scope c.2) = declared c.1 /\
  wf_state c.2.

(** ** Each statement, on any state that satisfies the invariant *)

Section statements.
Implicit Types (hst : Host) (st : hstate) (a u : hval) (h : heap).

(** The literals are evaluated by [alloc_lit_step], never unfolded. *)
#[local] Opaque alloc_lit.

(** Binding a name other than [module] to a valid value, in a heap that
    has grown. *)
Lemma wf_state_bind st h' x a :
  wf_state st -> wf_heap h' -> hs_heap st `prefix_of` h' ->
  val_ok (length h') a -> x <> "module" ->
  wf_state {| hs_scope := <[x := a]> (hs_scope st); hs_heap := h' |}.
Proof.
  intros (Hh & Hs & l & ps & Hm & Hl) Hh' Hp Ha Hx.
  pose proof (prefix_length _ _ Hp) as Hlen. split_and!; simpl; [done| |].
  - apply map_Forall_insert_2; [done|]. eapply map_Forall_impl; [exact Hs|].
    intros y b. by apply val_ok_mono.
  - exists l, ps. split; [by rewrite lookup_insert_ne|].
    by eapply prefix_lookup_Some.
Qed.

Lemma h_stmt_users_ok st :
  wf_state st -> hs_scope st !! "users" = None ->
  exists st', h_stmt_users st = Ok st' /\ wf_state st' /\
    dom (hs_scope st') = {[ "users" ]} ∪ dom (hs_scope st).
Proof.
  intros Hwf Hu. unfold h_stmt_users.
  destruct (alloc_lit_step users _ (proj1 Hwf)) as (a & h' & -> & Hh' & Hp & Ha).
  unfold h_declare_const. simpl. rewrite Hu. eexists. split; [done|]. simpl.
  split; [by apply wf_state_bind|by rewrite dom_insert_L].
Qed.

Lemma h_siteConfig_ok hst st u :
  wf_state st -> hs_scope st !! "users" = Some u ->
  exists a h', h_siteConfig hst st = Ok (a, h') /\ wf_heap h' /\
    hs_heap st `prefix_of` h' /\ val_ok (length h') a.
Proof.
  intros (Hh & Hs & _) Hu. pose proof (Hs _ _ Hu) as Hok. simpl in Hok.
  unfold h_siteConfig, h_lookup_ident. rewrite Hu, copyright_eq.
  destruct (alloc_lit_step headerLinks _ Hh) as (a1 & h1 & -> & Hh1 & Hp1 & Ha1).
  destruct (alloc_lit_step colors _ Hh1) as (a2 & h2 & -> & Hh2 & Hp2 & Ha2).
  simpl. change (alloc_lit (VStr ?s) h2) with (HStr s, h2).
  destruct (alloc_lit_step highlight _ Hh2) as (a3 & h3 & -> & Hh3 & Hp3 & Ha3).
  destruct (alloc_lit_step scripts _ Hh3) as (a4 & h4 & -> & Hh4 & Hp4 & Ha4).
  apply prefix_length in Hp1 as Hl1, Hp2 as Hl2, Hp3 as Hl3, Hp4 as Hl4.
  eexists _, _. split; [done|].
  match goal with |- context [h4 ++ [?o]] =>
    destruct (alloc_wf o h4 Hh4) as [Hh5 Ha5] end.
  { repeat constructor; simpl; try done;
      (eapply val_ok_mono; [|eassumption]); lia. }
  simpl in Hh5, Ha5. split_and!; [done| |done].
  do 4 (etrans; [eassumption|]). apply alloc_prefix.
Qed.

Lemma h_stmt_siteConfig_ok hst st u :
  wf_state st -> hs_scope st !! "users" = Some u ->
  hs_scope st !! "siteConfig" = None ->
  exists st', h_stmt_siteConfig hst st = Ok st' /\ wf_state st' /\
    dom (hs_scope st') = {[ "siteConfig" ]} ∪ dom (hs_scope st).
Proof.
  intros Hwf Hu Hs. unfold h_stmt_siteConfig.
  destruct (h_siteConfig_ok hst st u Hwf Hu) as (a & h' & -> & Hh' & Hp & Ha).
  unfold h_declare_const. simpl. rewrite Hs. eexists. split; [done|]. simpl.
  split; [by apply wf_state_bind|by rewrite dom_insert_L].
Qed.

(** The assignment of line 56 completes, and [require] then returns
    what [siteConfig] is bound to. *)
Lemma h_stmt_exports_ok st a :
  wf_state st -> hs_scope st !! "siteConfig" = Some a ->
  exists st', h_stmt_exports st = Ok st' /\ wf_state st' /\
    hs_scope st' = hs_scope st /\ h_require_result st' = Ok a.
Proof.
  intros (Hh & Hs & l & ps & Hm & Hl) Ha.
  pose proof (Hs _ _ Ha) as Hok. simpl in Hok.
  assert (heap_set "exports" a (HRef l) (hs_heap st)
          = Ok (<[l := HObj (hprops_set "exports" a ps)]> (hs_heap st))) as Hset
    by (simpl; by rewrite Hl).
  unfold h_stmt_exports, h_lookup_ident. rewrite Hm, Ha. simpl.
  rewrite Hl. simpl. eexists. split; [done|]. split; [|split; [done|]].
  2: { unfold h_require_result, h_lookup_ident. simpl. rewrite Hm.
       by eapply heap_get_set_eq. }
  split_and!; simpl.
  - eapply heap_set_closed; [exact Hh|exact Hok|exact Hset].
  - by rewrite length_insert.
  - exists l, (hprops_set "exports" a ps). split; [done|].
    apply list_lookup_insert_eq. by eapply lookup_lt_Some.
Qed.

(** Progress and preservation, statement by statement: where the
    invariant holds the statement completes, and the invariant holds
    where control goes next. *)
Lemma users_step_ok st :
  inv (AtUsers, st) ->
  exists st', h_stmt_users st = Ok st' /\ inv (AtSiteConfig, st').
Proof.
  intros (_ & Hdom & Hwf). simpl in *.
  destruct (h_stmt_users_ok st Hwf) as (st' & -> & Hwf' & Hdom').
  { apply not_elem_of_dom. rewrite Hdom. set_solver. }
  exists st'. split; [done|]. split_and!; [done| |done].
  simpl. rewrite Hdom', Hdom. set_solver.
Qed.

Lemma siteConfig_step_ok hst st :
  inv (AtSiteConfig, st) ->
  exists st', h_stmt_siteConfig hst st = Ok st' /\ inv (AtExports, st').
Proof.
  intros (_ & Hdom & Hwf). simpl in *.
  assert (is_Some (hs_scope st !! "users")) as [u Hu].
  { apply elem_of_dom. rewrite Hdom. set_solver. }
  destruct (h_stmt_siteConfig_ok hst st u Hwf Hu) as (st' & -> & Hwf' & Hdom').
  { apply not_elem_of_dom. rewrite Hdom. set_solver. }
  exists st'. split; [done|]. split_and!; [done| |done].
  simpl. rewrite Hdom', Hdom. set_solver.
Qed.

Lemma exports_step_post st :
  inv (AtExports, st) ->
  exists st' a, h_stmt_exports st = Ok st' /\ inv (Returned, st') /\
    hs_scope st' !! "siteConfig" = Some a /\ h_require_result st' = Ok a.
Proof.
  intros (_ & Hdom & Hwf). simpl in *.
  assert (is_Some (hs_scope st !! "siteConfig")) as [a Ha].
  { apply elem_of_dom. rewrite Hdom. set_solver. }
  destruct (h_stmt_exports_ok st a Hwf Ha) as (st' & -> & Hwf' & Hsc & Hreq).
  exists st', a. split; [done|]. split; [|by rewrite Hsc].
  split_and!; [done| |done]. simpl. by rewrite Hsc.
Qed.

Lemma exports_step_ok st :
  inv (AtExports, st) ->
  exists st', h_stmt_exports st = Ok st' /\ inv (Returned, st').
Proof. intros (st' & a & ? & ? & _)%exports_step_post. eauto. Qed.

Lemma stmt_ok hst p f st :
  stmt_at hst p = Some f -> inv (p, st) ->
  exists st', f st = Ok st' /\ inv (next p, st').
Proof.
  intros Hf Hinv. destruct p; simplify_eq/=;
    eauto using users_step_ok, siteConfig_step_ok, exports_step_ok.
Qed.

Lemma inv_initial : inv initial.
Proof.
  split; [done|]. split; [simpl; by rewrite dom_singleton_L|].
  split_and!; simpl.
  - by apply (bool_decide_unpack _).
  - apply map_Forall_singleton. simpl. lia.
  - by exists 1, [("exports", HRef 0)].
Qed.

Lemma inv_step hst c c' : inv c -> step (stmt_at hst) c c' -> inv c'.
Proof.
  intros Hinv Hstep. destruct Hstep as [p f st st' Hf Hrun|p f st e Hf Hrun];
    destruct (stmt_ok hst p f st Hf Hinv) as (st'' & Hrun' & Hinv');
    rewrite Hrun in Hrun'; by simplify_eq.
Qed.

End statements.

(** ** Runs *)

Section machine_lemmas.
Context {St : Type} (prog : pc -> option (St -> result JsError St)).
Implicit Types (c : pc * St).

Lemma step_det c c1 c2 : step prog c c1 -> step prog c c2 -> c1 = c2.
Proof.
  intros H1 H2. destruct H1 as [p f st st1 Hf Hr|p f st e Hf Hr];
    inversion H2; simplify_eq; congruence.
Qed.

(** Where no statement is left, nothing runs. *)
Lemma final_stuck p st c : prog p = None -> ~ step prog (p, st) c.
Proof. intros Hp Hstep. inversion Hstep; simplify_eq. Qed.

End machine_lemmas.

Section runs.
Implicit Types (hst : Host) (c : pc * hstate).

(** The run of the body: three steps, to the state [h_final]. *)
Lemma run_nsteps hst :
  nsteps (step (stmt_at hst)) 3 initial (Returned, h_final (fullYear hst)).
Proof.
  destruct (stmt_ok hst AtUsers _ h_module_scope eq_refl inv_initial)
    as (st1 & H1 & I1).
  destruct (stmt_ok hst AtSiteConfig _ st1 eq_refl I1) as (st2 & H2 & I2).
  destruct (stmt_ok hst AtExports _ st2 eq_refl I2) as (st3 & H3 & I3).
  assert (st3 = h_final (fullYear hst)) as <-.
  { apply h_run_module_inv. unfold h_run_module. rewrite H1. simpl.
    rewrite H2. simpl. exact H3. }
  apply (nsteps_l _ _ _ (AtSiteConfig, st1)); [by eapply (step_next _ AtUsers)|].
  apply (nsteps_l _ _ _ (AtExports, st2));
    [by eapply (step_next _ AtSiteConfig)|].
  apply (nsteps_l _ _ _ (Returned, st3)); [by eapply (step_next _ AtExports)|].
  apply nsteps_O.
Qed.

(** From wherever the invariant holds and a statement is left to run,
    the statements before line 56 complete. *)
Lemma run_to_exports hst c :
  inv c -> 0 < remaining c.1 ->
  exists st, nsteps (step (stmt_at hst)) (remaining c.1 - 1) c (AtExports, st) /\
    inv (AtExports, st).
Proof.
  destruct c as [[] st]; simpl; intros Hinv Hpos; try lia.
  - destruct (users_step_ok st Hinv) as (st1 & H1 & I1).
    destruct (siteConfig_step_ok hst st1 I1) as (st2 & H2 & I2).
    exists st2. split; [|done].
    eapply nsteps_l; [by eapply (step_next _ AtUsers)|].
    eapply nsteps_l; [by eapply (step_next _ AtSiteConfig)|]. apply nsteps_O.
  - destruct (siteConfig_step_ok hst st Hinv) as (st2 & H2 & I2).
    exists st2. split; [|done].
    eapply nsteps_l; [by eapply (step_next _ AtSiteConfig)|]. apply nsteps_O.
  - exists st. split; [apply nsteps_O|done].
Qed.

(** In a deterministic system, whatever is reachable from [a] lies on
    the way from [a] to a configuration that cannot step. *)
Lemma rtc_det_stuck {A} (R : relation A) (a c d : A) :
  (forall x y z, R x y -> R x z -> y = z) -> (forall y, ~ R d y) ->
  rtc R a c -> rtc R a d -> rtc R c d.
Proof.
  intros Hdet Hd Hac. induction Hac as [|a b c Hab _ IH]; [done|].
  intros Had. apply IH. destruct Had as [|a b' d Hab' Hbd]; [by destruct (Hd b)|].
  by rewrite (Hdet _ _ _ Hab Hab').
Qed.

End runs.

(** ** Properties *)

(** C10.  Invariant of the module body: in every configuration reachable
    from the start of the body nothing has been thrown, the names bound
    are exactly those declared above the statement control is at, no
    reference of the scope or of the heap dangles, and [module] refers
    to an object. *)
Theorem reachable_inv (hst : Host) (c : pc * hstate) :
  reachable hst c -> inv c.
Proof.
  intros Hreach.
  eapply (rtc_ind_r (fun c => inv c)); [apply inv_initial| |exact Hreach].
  intros c1 c2 _ Hstep Hinv. by eapply inv_step.
Qed.

Lemma reachable_inv_witness : inv (Returned, h_final 2018).
Proof.
  apply (reachable_inv (Build_Host 2018 eq_refl)).
  eapply rtc_nsteps_2. apply (run_nsteps (Build_Host 2018 eq_refl)).
Defined.

(** C11.  The module body always returns: from every configuration
    reachable from the start, the run continues to the configuration in
    which the body has returned with the state [h_final], and that
    configuration is reached from the start in exactly three steps. *)
Theorem every_run_returns (hst : Host) (c : pc * hstate) :
  reachable hst c ->
  rtc (step (stmt_at hst)) c (Returned, h_final (fullYear hst)) /\
  nsteps (step (stmt_at hst)) 3 initial (Returned, h_final (fullYear hst)).
Proof.
  intros Hreach. split; [|apply run_nsteps].
  eapply rtc_det_stuck;
    [apply step_det|intros c'; by apply final_stuck|exact Hreach|].
  eapply rtc_nsteps_2, run_nsteps.
Qed.

Lemma every_run_returns_witness :
  rtc (step (stmt_at (Build_Host 2018 eq_refl))) initial (Returned, h_final 2018) /\
  nsteps (step (stmt_at (Build_Host 2018 eq_refl))) 3 initial (Returned, h_final 2018).
Proof.
  apply (every_run_returns (Build_Host 2018 eq_refl) initial). apply rtc_refl.
Defined.

(** C12.  Total correctness of the module body, from any configuration
    the invariant admits, reachable or not: whatever the heap holds and
    whatever [users] is bound to, the statements that remain complete
    without throwing, in exactly [remaining] steps; the invariant holds
    of the state the body returns in; and if a statement was left to
    run, [require] then returns the very value [siteConfig] is bound
    to. *)
Theorem body_terminates (hst : Host) (c : pc * hstate) :
  inv c ->
  exists st',
    nsteps (step (stmt_at hst)) (remaining c.1) c (Returned, st') /\
    inv (Returned, st') /\
    (0 < remaining c.1 ->
     exists a, hs_scope st' !! "siteConfig" = Some a /\
       h_require_result st' = Ok a).
Proof.
  intros Hinv. destruct (decide (remaining c.1 = 0)) as [H0|Hpos].
  - destruct c as [[] st]; simplify_eq/=.
    + exists st. split_and!; [apply nsteps_O|done|lia].
    + destruct Hinv as [Hthrown _]. by destruct (Hthrown e).
  - destruct (run_to_exports hst c Hinv ltac:(lia)) as (st & Hrun & Hst).
    destruct (exports_step_post st Hst) as (st' & a & Hex & Hinv' & Ha & Hreq).
    exists st'. split_and!; [|done|by exists a].
    replace (remaining c.1) with (S (remaining c.1 - 1)) by lia.
    eapply nsteps_r; [exact Hrun|]. by eapply (step_next _ AtExports).
Qed.

Lemma body_terminates_witness :
  exists st',
    nsteps (step (stmt_at (Build_Host 2018 eq_refl))) 3 initial (Returned, st') /\
    inv (Returned, st') /\
    (0 < 3 ->
     exists a, hs_scope st' !! "siteConfig" = Some a /\
       h_require_result st' = Ok a).
Proof. apply (body_terminates (Build_Host 2018 eq_refl) initial inv_initial). Defined.
