(* ===== verification/Simulation.v ===== *)
(** The two models of the module body, related step by step.

    [SiteConfig] runs the three statements of
    [src/website/siteConfig.js] on trees, [SiteConfigHeap] on a store
    with references.  [SiteConfigHeap.heap_run_refines] compares the
    two final states by computing them.  Here the comparison is made
    statement by statement, on any pair of related states: a state of
    the store and a scope of trees are related ([sim]) when every name
    bound in one is bound in the other to what it reads as, and nothing
    but the binding [module] refers to the module object.  Each
    statement takes related states to related states, or throws the
    same error in both models; so the two transition systems of
    [ModuleSteps] are bisimilar, and the relation holds at every point
    of every run. *)

From stdpp Require Import gmap relations.
From S2P Require Import Prelude JsNumber JsValue Heap HeapFrame JsModule.
From S2P Require Import SiteConfig SiteConfigHeap ModuleSteps.

Set Warnings "-clear-no-such-hyp".

(** ** The tree model as a transition system *)

(** The statement control is at, in the tree model. *)
Definition tstmt_at (hst : Host) (p : pc)
  : option (scope -> result JsError scope) :=
  match p with
  | AtUsers => Some stmt_users
  | AtSiteConfig => Some (stmt_siteConfig hst)
  | AtExports => Some stmt_exports
  | Returned | Thrown _ => None
  end.

Definition tinitial : pc * scope := (AtUsers, module_scope).

(** ** The relation *)

(** What a lookup yields in each model: related values, or the same
    error. *)
Definition sim_outcome {A B} (R : A -> B -> Prop)
    (r : result JsError A) (r' : result JsError B) : Prop :=
  match r, r' with
  | Ok a, Ok b => R a b
  | Err e, Err e' => e = e'
  | _, _ => False
  end.

Record sim (st : hstate) (σ : scope) : Prop := {
  sim_scope : forall x,
    option_Forall2 (reads_as (hs_heap st)) (hs_scope st !! x) (σ !! x);
  sim_module : exists l,
    hs_scope st !! "module" = Some (HRef l) /\
    unreferenced l (hs_heap st) /\
    forall x a, x <> "module" -> hs_scope st !! x = Some a -> avoids l a
}.

(** Configurations match when control is at the same point and the
    states are related. *)
Definition matches (c : pc * hstate) (t : pc * scope) : Prop :=
  c.1 = t.1 /\ sim c.2 t.2.

(** ** Lookups and declarations *)

Section scope.
Implicit Types (st : hstate) (σ : scope) (x : string) (a : hval)
  (v : value) (h : heap) (l : loc).

Lemma sim_lookup st σ x :
  sim st σ ->
  sim_outcome (reads_as (hs_heap st)) (h_lookup_ident x st) (lookup_ident x σ).
Proof.
  intros [Hs _]. unfold h_lookup_ident, lookup_ident.
  by destruct (Hs x).
Qed.

(** The module object was allocated before anything a statement
    allocates. *)
Lemma sim_module_old st σ l :
  sim st σ -> hs_scope st !! "module" = Some (HRef l) ->
  l < length (hs_heap st).
Proof.
  intros [Hs _] Hm. pose proof (Hs "module") as Hx. rewrite Hm in Hx.
  inversion Hx as [a v Hr|]; subst.
  destruct (reads_as_ref _ _ _ Hr) as (o & _ & Hl & _).
  by eapply lookup_lt_Some.
Qed.

(** A [const] declaration of a value that reads alike, in a heap that
    has grown without touching the module object. *)
Lemma sim_declare st σ x a v h' :
  sim st σ -> x <> "module" -> hs_heap st `prefix_of` h' ->
  reads_as h' a v ->
  (forall l, hs_scope st !! "module" = Some (HRef l) ->
     unreferenced l (hs_heap st) -> unreferenced l h' /\ avoids l a) ->
  sim_outcome sim
    (h_declare_const x a {| hs_scope := hs_scope st; hs_heap := h' |})
    (declare_const x v σ).
Proof.
  intros [Hs (l & Hm & Hu & Hav)] Hx Hp Ha Hl.
  unfold h_declare_const, declare_const. simpl.
  destruct (Hs x); simpl; [done|]. destruct (Hl l Hm Hu) as [Hu' Hav'].
  split; simpl.
  - intros y. destruct (decide (y = x)) as [->|Hne].
    + rewrite !lookup_insert_eq. by constructor.
    + rewrite !lookup_insert_ne by done.
      destruct (Hs y); constructor. by eapply reads_as_mono.
  - exists l. rewrite lookup_insert_ne by done. split_and!; [done..|].
    intros y b Hy. destruct (decide (y = x)) as [->|Hne].
    + rewrite lookup_insert_eq. by intros [= <-].
    + rewrite lookup_insert_ne by done. by apply Hav.
Qed.

End scope.

(** ** The statements *)

Section statements.
Implicit Types (hst : Host) (st : hstate) (σ : scope) (a : hval)
  (v : value) (h : heap) (l n : nat).

(** The literals are evaluated by [alloc_lit_sim], never unfolded. *)
#[local] Opaque alloc_lit.

(** One evaluation of a literal: the heap grows by objects that refer
    to new locations only, and the result reads as the literal. *)
Lemma alloc_lit_sim n v h :
  n <= length h ->
  exists a h', alloc_lit v h = (a, h') /\ grows_fresh n h h' /\
    n <= length h' /\ val_fresh n a /\ reads_as h' a v.
Proof.
  intros Hn. destruct (alloc_lit_fresh n v h Hn) as [Hg Hf].
  pose proof (reads_as_lit v h) as Hr.
  destruct (alloc_lit v h) as [a h']. exists a, h'. split_and!; try done.
  apply grows_fresh_prefix, prefix_length in Hg. simpl in Hg. lia.
Qed.

Lemma sim_users st σ :
  sim st σ -> sim_outcome sim (h_stmt_users st) (stmt_users σ).
Proof.
  intros Hsim. unfold h_stmt_users, stmt_users.
  destruct (alloc_lit_sim (length (hs_heap st)) users (hs_heap st))
    as (a & h' & -> & Hg & _ & Hf & Hr); [done|].
  apply sim_declare; [done|done|by eapply grows_fresh_prefix|done|].
  intros l Hm Hu. pose proof (sim_module_old st σ l Hsim Hm) as Hl.
  split; [by eapply unreferenced_grows|by eapply val_fresh_avoids].
Qed.

(** The object literal of lines 18-54, in related states: the same
    error, or an object that reads as the tree model's, built without
    touching the module object. *)
Lemma sim_siteConfig hst st σ :
  sim st σ ->
  sim_outcome
    (fun r v => hs_heap st `prefix_of` r.2 /\ reads_as r.2 r.1 v /\
       forall l, hs_scope st !! "module" = Some (HRef l) ->
         unreferenced l (hs_heap st) -> unreferenced l r.2 /\ avoids l r.1)
    (h_siteConfig hst st) (siteConfig hst σ).
Proof.
  intros Hsim. unfold h_siteConfig, siteConfig.
  set (n := length (hs_heap st)).
  destruct (alloc_lit_sim n headerLinks (hs_heap st))
    as (a1 & h1 & -> & Hg1 & Hn1 & Hf1 & Hr1); [done|].
  pose proof (sim_lookup st σ "users" Hsim) as Hu.
  unfold h_lookup_ident in *.
  destruct (hs_scope st !! "users") as [b|] eqn:Hb,
    (lookup_ident "users" σ) as [u|e']; simpl in Hu; try done. simpl.
  destruct (alloc_lit_sim n colors h1 Hn1)
    as (a2 & h2 & -> & Hg2 & Hn2 & Hf2 & Hr2).
  rewrite copyright_eq. simpl. change (alloc_lit (VStr ?s) h2) with (HStr s, h2).
  destruct (alloc_lit_sim n highlight h2 Hn2)
    as (a3 & h3 & -> & Hg3 & Hn3 & Hf3 & Hr3).
  destruct (alloc_lit_sim n scripts h3 Hn3)
    as (a4 & h4 & -> & Hg4 & Hn4 & Hf4 & Hr4).
  pose proof (grows_fresh_prefix _ _ _ Hg1) as Hp1.
  pose proof (grows_fresh_prefix _ _ _ Hg2) as Hp2.
  pose proof (grows_fresh_prefix _ _ _ Hg3) as Hp3.
  pose proof (grows_fresh_prefix _ _ _ Hg4) as Hp4.
  simpl. split_and!.
  - repeat (etrans; [eassumption|]). by eexists.
  - change (obj_lit ?ps) with (VObj ps).
    eapply reads_as_obj; [by apply list_lookup_middle|].
    repeat (apply Forall2_cons; [split; [done|]|]); try apply Forall2_nil;
      try apply reads_as_str;
      (eapply reads_as_mono; [|eassumption]);
      repeat (etrans; [eassumption|]); by eexists.
  - intros l Hm Hunref. pose proof (sim_module_old st σ l Hsim Hm) as Hl.
    destruct Hsim as [_ (l' & Hm' & _ & Hav)]. simplify_eq. split.
    + apply unreferenced_snoc.
      * eapply unreferenced_grows; [exact Hl|exact Hunref|].
        repeat (eapply grows_fresh_trans; [eassumption|]).
        apply grows_fresh_refl.
      * simpl. repeat constructor;
          first [done|by eapply val_fresh_avoids|by apply (Hav "users")].
    + intros [= Heq]. lia.
Qed.

Lemma sim_stmt_siteConfig hst st σ :
  sim st σ ->
  sim_outcome sim (h_stmt_siteConfig hst st) (stmt_siteConfig hst σ).
Proof.
  intros Hsim. unfold h_stmt_siteConfig, stmt_siteConfig.
  pose proof (sim_siteConfig hst st σ Hsim) as Hr.
  destruct (h_siteConfig hst st) as [[a h']|e], (siteConfig hst σ) as [v|e'];
    simpl in *; try done.
  destruct Hr as (Hp & Ha & Hl). by apply sim_declare.
Qed.

(** Line 56, in related states: the write to the module object is the
    write of the tree model. *)
Lemma sim_exports st σ :
  sim st σ -> sim_outcome sim (h_stmt_exports st) (stmt_exports σ).
Proof.
  intros Hsim. unfold h_stmt_exports, stmt_exports, assign_prop.
  pose proof (sim_lookup st σ "module" Hsim) as Hm.
  pose proof (sim_lookup st σ "siteConfig" Hsim) as Hc.
  destruct Hsim as [Hs (l & Hl & Hu & Hav)].
  unfold h_lookup_ident in *. rewrite Hl in *.
  destruct (lookup_ident "module" σ) as [vm|]; [|done].
  destruct (hs_scope st !! "siteConfig") as [a|] eqn:Ha,
    (lookup_ident "siteConfig" σ) as [w|e']; cbn [rbind sim_outcome] in *;
    try done.
  pose proof (write_simulates l (hs_heap st) "exports" a vm w Hu
                (Hav "siteConfig" a ltac:(done) Ha) Hm Hc) as Hw.
  destruct (heap_set "exports" a (HRef l) (hs_heap st)) as [h'|e];
    [|by rewrite Hw].
  destruct Hw as (v' & -> & Hr' & Hu' & Hframe). split; simpl.
  - intros x. destruct (decide (x = "module")) as [->|Hne].
    + rewrite Hl, lookup_insert_eq. by constructor.
    + rewrite lookup_insert_ne by done. pose proof (Hav x) as Hx.
      destruct (Hs x); constructor. by apply Hframe; [apply Hx|].
  - by exists l.
Qed.

End statements.

(** ** Two programs whose statements agree run in lock step *)

Section lockstep.
Context {S T : Type} (R : S -> T -> Prop).
Context (P : pc -> option (S -> result JsError S))
  (Q : pc -> option (T -> result JsError T)).
Context (agree : forall p,
  option_Forall2
    (fun f g => forall s t, R s t -> sim_outcome R (f s) (g t)) (P p) (Q p)).

(** The outcomes of the statement at [p], side by side. *)
Lemma agree_at p f s t :
  P p = Some f -> R s t ->
  exists g, Q p = Some g /\ sim_outcome R (f s) (g t).
Proof.
  intros Hf Hst. pose proof (agree p) as Hp. rewrite Hf in Hp.
  inversion Hp as [f' g Hfg|]; subst. exists g. split; [done|by apply Hfg].
Qed.

Lemma agree_at_inv p g s t :
  Q p = Some g -> R s t ->
  exists f, P p = Some f /\ sim_outcome R (f s) (g t).
Proof.
  intros Hg Hst. pose proof (agree p) as Hp. rewrite Hg in Hp.
  inversion Hp as [f g' Hfg|]; subst. exists f. split; [done|by apply Hfg].
Qed.

Lemma lockstep_forward p s t c' :
  R s t -> step P (p, s) c' ->
  exists t', step Q (p, t) t' /\ c'.1 = t'.1 /\ R c'.2 t'.2.
Proof.
  intros Hst Hstep. inversion Hstep as [p0 f s0 s' Hf Hrun|p0 f s0 e Hf Hrun];
    subst; destruct (agree_at p f s t Hf Hst) as (g & Hg & Hout);
    rewrite Hrun in Hout; destruct (g t) as [t'|e'] eqn:Hgt; try done.
  - exists (next p, t'). split; [by eapply step_next|done].
  - simpl in Hout. subst e'. exists (Thrown e, t).
    split; [by eapply step_throw|done].
Qed.

Lemma lockstep_backward p s t t' :
  R s t -> step Q (p, t) t' ->
  exists c', step P (p, s) c' /\ c'.1 = t'.1 /\ R c'.2 t'.2.
Proof.
  intros Hst Hstep. inversion Hstep as [p0 g t0 t1 Hg Hrun|p0 g t0 e Hg Hrun];
    subst; destruct (agree_at_inv p g s t Hg Hst) as (f & Hf & Hout);
    rewrite Hrun in Hout; destruct (f s) as [s'|e'] eqn:Hfs; try done.
  - exists (next p, s'). split; [by eapply step_next|done].
  - simpl in Hout. subst e'. exists (Thrown e, s).
    split; [by eapply step_throw|done].
Qed.

End lockstep.

(** ** The module body *)

Section body.
Implicit Types (hst : Host) (st : hstate) (σ : scope).

Lemma stmt_agree hst p :
  option_Forall2
    (fun f g => forall st σ, sim st σ -> sim_outcome sim (f st) (g σ))
    (stmt_at hst p) (tstmt_at hst p).
Proof.
  destruct p; constructor;
    auto using sim_users, sim_stmt_siteConfig, sim_exports.
Qed.

Lemma sim_initial : sim h_module_scope module_scope.
Proof.
  split.
  - intros x. unfold h_module_scope, module_scope. simpl.
    destruct (decide (x = "module")) as [->|Hne].
    + rewrite !lookup_singleton_eq. constructor. by exists 2.
    + rewrite !lookup_singleton_ne by done. constructor.
  - exists 1. split_and!; [done|by apply (bool_decide_unpack _)|].
    intros x a Hne. simpl. by rewrite lookup_singleton_ne.
Qed.

(** What [require] returns reads alike in related states. *)
Lemma sim_require st σ :
  sim st σ ->
  sim_outcome (reads_as (hs_heap st)) (h_require_result st) (require_result σ).
Proof.
  intros Hsim. unfold h_require_result, require_result.
  pose proof (sim_lookup st σ "module" Hsim) as Hm.
  destruct (h_lookup_ident "module" st) as [m|e],
    (lookup_ident "module" σ) as [vm|e']; cbn [rbind sim_outcome] in *;
    try done.
  destruct Hm as [f Hf]. apply (reify_mono f (S f) _ (hs_heap st)) in Hf;
    [|lia|done].
  pose proof (heap_get_reify f (hs_heap st) "exports" m vm Hf) as Hget.
  destruct (heap_get "exports" m (hs_heap st)) as [b|e]; [|by rewrite Hget].
  destruct Hget as (w & Hw & ->). by exists f.
Qed.

(** Runs of the store are runs of the tree model. *)
Lemma sim_run hst c c' t :
  matches c t -> rtc (step (stmt_at hst)) c c' ->
  exists t', rtc (step (tstmt_at hst)) t t' /\ matches c' t'.
Proof.
  intros Hm Hrun. revert t Hm.
  induction Hrun as [c|c c1 c' Hstep _ IH]; intros t Hm; [by exists t|].
  destruct c as [p st], t as [p' σ], Hm as [Hp Hsim]. simpl in *. subst p'.
  destruct (lockstep_forward sim _ _ (stmt_agree hst) p st σ c1 Hsim Hstep)
    as (t1 & Hstep' & Hm1).
  destruct (IH t1 Hm1) as (t' & Hrun' & Hm'). exists t'.
  split; [by eapply rtc_l|done].
Qed.

End body.

(** ** Properties *)

(** C6.  The store and the tree model of the module body are
    bisimilar.  The two initial configurations match; from matching
    configurations every step of one model is answered by a step of the
    other to matching configurations, a throw by a throw of the same
    error; and in matching configurations [require] yields values that
    read alike, or the same error.  Configurations match when control
    is at the same statement, every name is bound to what it reads as,
    and nothing but [module] refers to the module object. *)
Theorem heap_tree_bisimulation (hst : Host) :
  matches initial tinitial /\
  forall c t, matches c t ->
    (forall c', step (stmt_at hst) c c' ->
       exists t', step (tstmt_at hst) t t' /\ matches c' t') /\
    (forall t', step (tstmt_at hst) t t' ->
       exists c', step (stmt_at hst) c c' /\ matches c' t') /\
    sim_outcome (reads_as (hs_heap c.2))
      (h_require_result c.2) (require_result t.2).
Proof.
  split; [split; [done|apply sim_initial]|].
  intros [p st] [p' σ] [Hp Hsim]. simpl in *. subst p'. split_and!.
  - intros c'. by apply (lockstep_forward sim _ _ (stmt_agree hst)).
  - intros t'. by apply (lockstep_backward sim _ _ (stmt_agree hst)).
  - by apply sim_require.
Qed.

(** C27.  Every run of the store is a run of the tree model: a
    configuration reachable on the store matches a configuration the
    tree model reaches, so at every point of every run control is at
    the same statement in both models, each name is bound in both to
    values that read alike, and only [module] refers to the module
    object. *)
Theorem reachable_states_related (hst : Host) (c : pc * hstate) :
  reachable hst c ->
  exists t, rtc (step (tstmt_at hst)) tinitial t /\ matches c t.
Proof.
  intros Hreach. apply (sim_run hst initial c tinitial); [|done].
  split; [done|apply sim_initial].
Qed.

Lemma reachable_states_related_witness :
  exists t, rtc (step (tstmt_at (Build_Host 2018 eq_refl))) tinitial t /\
    matches (Returned, h_final 2018) t.
Proof.
  apply (reachable_states_related (Build_Host 2018 eq_refl)).
  eapply rtc_nsteps_2. apply (run_nsteps (Build_Host 2018 eq_refl)).
Defined.
