(* ===== verification/Lifecycle.v ===== *)
(** The life of the configuration in a process (section 3, Lifecycle).

    The generator obtains the configuration with
    [require('./siteConfig.js')].  The first call runs the module body
    with the clock of that moment; the module record is kept, and every
    later call returns the object the first one built.  Between calls
    the clock advances, and a component that holds the export can write
    to it, since nothing freezes it.

    [process] is the state of such a process, [handle] its reaction to
    one event, [run] its reaction to a sequence of events.  The
    specification's account of the same lifetime is the small machine
    [a_handle] on a [view]: the year the configuration was constructed
    in and whether the user is still pinned.  The theorems show that
    the process implements the machine on every sequence of events, and
    what follows: one object for the lifetime of the process, and a
    copyright that keeps the year of the first call. *)

From stdpp Require Import gmap.
From S2P Require Import Prelude JsNumber JsValue Heap JsModule SiteConfig.
From S2P Require Import SiteConfigHeap.

Set Warnings "-clear-no-such-hyp".

(** ** The process *)

Inductive event : Type :=
| Tick (h : Host)           (* the clock now reads [h] *)
| Require                   (* [require('./siteConfig.js')] *)
| SetPinned (b : bool).     (* [require(...).users[0].pinned = b] *)

Record process : Type := {
  p_clock : Host;
  p_loaded : option hstate
}.

(** The process at its start: the module has not been loaded. *)
Definition fresh (h : Host) : process :=
  {| p_clock := h; p_loaded := None |}.

(** The state of the module: the body runs if it has not run yet. *)
Definition load_module (p : process) : result JsError hstate :=
  match p_loaded p with
  | Some st => Ok st
  | None => h_run_module (p_clock p)
  end.

(** [require('./siteConfig.js')]: the export, and the process with the
    module loaded. *)
Definition require (p : process) : result JsError (hval * process) :=
  let* st := load_module p in
  let* r := h_require_result st in
  Ok (r, {| p_clock := p_clock p; p_loaded := Some st |}).

(** [exports.users[0].pinned = b], in the state of the loaded module. *)
Definition write_pinned (b : bool) (st : hstate) : result JsError hstate :=
  let* r := h_require_result st in
  let* us := heap_get "users" r (hs_heap st) in
  let* h := set_first_pinned b us (hs_heap st) in
  Ok {| hs_scope := hs_scope st; hs_heap := h |}.

(** [require('./siteConfig.js').users[0].pinned = b]. *)
Definition set_pinned (b : bool) (p : process) : result JsError process :=
  let* st := load_module p in
  let* st' := write_pinned b st in
  Ok {| p_clock := p_clock p; p_loaded := Some st' |}.

(** One event: the references handed out, and the process afterwards. *)
Definition handle (e : event) (p : process)
  : result JsError (list hval * process) :=
  match e with
  | Tick h => Ok ([], {| p_clock := h; p_loaded := p_loaded p |})
  | Require => let* rp := require p in Ok ([rp.1], rp.2)
  | SetPinned b => let* p' := set_pinned b p in Ok ([], p')
  end.

Fixpoint run (evs : list event) (p : process)
  : result JsError (list hval * process) :=
  match evs with
  | [] => Ok ([], p)
  | e :: evs' =>
      let* r1 := handle e p in
      let* r2 := run evs' r1.2 in
      Ok (r1.1 ++ r2.1, r2.2)
  end.

(** ** The specification's machine *)

(** What the lifetime of a configuration comes down to: the year it was
    constructed in, and the one field a holder has been seen to write. *)
Record view : Type := {
  v_year : Z;
  v_pinned : bool
}.

(** The machine's state: the year the clock reads, and the view of the
    configuration once it has been constructed. *)
Definition a_state : Type := Z * option view.

Definition a_require (s : a_state) : view :=
  default {| v_year := s.1; v_pinned := true |} s.2.

Definition a_handle (s : a_state) (e : event) : a_state :=
  match e with
  | Tick h => (fullYear h, s.2)
  | Require => (s.1, Some (a_require s))
  | SetPinned b =>
      (s.1, Some {| v_year := v_year (a_require s); v_pinned := b |})
  end.

Definition a_run (evs : list event) (s : a_state) : a_state :=
  foldl a_handle s evs.

(** The configuration a view stands for. *)
Definition view_export (v : view) : value :=
  VObj (obj_set "users"
          (VArr [VObj [("caption", VStr "User1");
                       ("image", VStr "/test-site/img/docusaurus.svg");
                       ("infoLink", VStr "https://www.facebook.com");
                       ("pinned", VBool (v_pinned v))]])
          (exported_props (v_year v))).

(** The state of the module a view stands for: the state the body ends
    in, with the user's flag as last written. *)
Definition h_loaded (v : view) : hstate :=
  {| hs_scope := hs_scope (h_final (v_year v));
     hs_heap :=
       <[2 := HObj [("caption", HStr "User1");
                    ("image", HStr "/test-site/img/docusaurus.svg");
                    ("infoLink", HStr "https://www.facebook.com");
                    ("pinned", HBool (v_pinned v))]]>
         (hs_heap (h_final (v_year v))) |}.

(** The process [p] is in the state [s] of the machine. *)
Definition rep (p : process) (s : a_state) : Prop :=
  fullYear (p_clock p) = s.1 /\ p_loaded p = h_loaded <$> s.2.

(** ** The process implements the machine *)

Section refinement.
Implicit Types (p : process) (s : a_state) (v : view) (e : event).

Lemma h_final_loaded y : h_final y = h_loaded {| v_year := y; v_pinned := true |}.
Proof. reflexivity. Qed.

Lemma read_export_loaded v : read_export (h_loaded v) = Some (view_export v).
Proof.
  destruct v as [y b].
  unfold read_export, h_loaded, view_export, exported_props, h_final. simpl.
  generalize (copyright_text y). intros s. reflexivity.
Qed.

(** Loading, in a process that stands for [s]. *)
Lemma load_module_rep p s :
  rep p s -> load_module p = Ok (h_loaded (a_require s)).
Proof.
  intros [Hy Hl]. unfold load_module, a_require. rewrite Hl.
  destruct s as [y [v|]]; simpl in *; [done|].
  by rewrite h_run_module_eq, Hy, h_final_loaded.
Qed.

Lemma require_loaded v : h_require_result (h_loaded v) = Ok (HRef 12).
Proof. reflexivity. Qed.

Lemma write_pinned_loaded b v :
  write_pinned b (h_loaded v)
  = Ok (h_loaded {| v_year := v_year v; v_pinned := b |}).
Proof.
  destruct v as [y b']. unfold write_pinned, h_loaded, h_final. simpl.
  generalize (copyright_text y). intros s. reflexivity.
Qed.

Lemma handle_rep e p s :
  rep p s ->
  exists rs p', handle e p = Ok (rs, p') /\ rep p' (a_handle s e) /\
    Forall (eq (HRef 12)) rs.
Proof.
  intros Hrep. pose proof (load_module_rep p s Hrep) as Hload.
  destruct Hrep as [Hy Hl]. destruct e as [h| |b]; simpl.
  - by eexists _, _.
  - unfold require. rewrite Hload. cbn [rbind].
    rewrite require_loaded. cbn [rbind]. eexists _, _. split; [done|].
    split; [done|]. by repeat constructor.
  - unfold set_pinned. rewrite Hload. cbn [rbind].
    rewrite write_pinned_loaded. cbn [rbind]. by eexists _, _.
Qed.

Lemma run_rep evs : forall p s,
  rep p s ->
  exists rs p', run evs p = Ok (rs, p') /\ rep p' (a_run evs s) /\
    Forall (eq (HRef 12)) rs.
Proof.
  induction evs as [|e evs IH]; intros p s Hrep; simpl.
  - by eexists _, _.
  - destruct (handle_rep e p s Hrep) as (rs1 & p1 & -> & Hrep1 & Hrs1).
    destruct (IH p1 _ Hrep1) as (rs2 & p2 & H2 & Hrep2 & Hrs2). simpl.
    rewrite H2. simpl. eexists _, _. split; [done|]. split; [done|].
    by apply Forall_app.
Qed.

Lemma rep_fresh h : rep (fresh h) (fullYear h, None).
Proof. done. Qed.

(** Once constructed, the view keeps its year. *)
Lemma a_run_year evs : forall s v,
  s.2 = Some v ->
  exists v', (a_run evs s).2 = Some v' /\ v_year v' = v_year v.
Proof.
  induction evs as [|e evs IH]; intros [y o] v Hs; simpl in *; [by eexists|].
  subst o.
  destruct e as [h| |b];
    [destruct (IH (fullYear h, Some v) v eq_refl) as (v' & Hv' & Hy)
    |destruct (IH (y, Some v) v eq_refl) as (v' & Hv' & Hy)
    |destruct (IH (y, Some {| v_year := v_year v; v_pinned := b |}) _ eq_refl)
       as (v' & Hv' & Hy)];
    by exists v'.
Qed.

End refinement.

(** ** Properties *)

(** C13.  The process implements the specification's machine: started
    with the module not loaded, it runs every sequence of clock ticks,
    [require] calls and writes to the pinned flag without an error;
    every [require] returns the same reference; the clock is the
    machine's; and the module is loaded exactly when the machine has a
    view, in which case a reader of the export sees the configuration
    of that view. *)
Theorem process_refines_view (h0 : Host) (evs : list event) :
  exists rs p,
    run evs (fresh h0) = Ok (rs, p) /\
    Forall (eq (HRef 12)) rs /\
    fullYear (p_clock p) = (a_run evs (fullYear h0, None)).1 /\
    read_export <$> p_loaded p
    = (fun v => Some (view_export v)) <$> (a_run evs (fullYear h0, None)).2.
Proof.
  destruct (run_rep evs _ _ (rep_fresh h0)) as (rs & p & Hrun & [Hy Hl] & Hrs).
  exists rs, p. split_and!; [done..|]. rewrite Hl.
  destruct (a_run evs _).2 as [v|]; simpl; [|done].
  by rewrite read_export_loaded.
Qed.

(** C14.  The copyright is computed once: after the first [require],
    whatever ticks, [require] calls and writes follow, the module stays
    loaded and the export a reader sees still carries the copyright of
    the year the clock read at that first call. *)
Theorem copyright_computed_once (h0 : Host) (evs : list event) :
  exists rs p st ps,
    run (Require :: evs) (fresh h0) = Ok (rs, p) /\
    p_loaded p = Some st /\
    read_export st = Some (VObj ps) /\
    obj_get "copyright" ps = VStr (copyright_text (fullYear h0)).
Proof.
  destruct (run_rep (Require :: evs) _ _ (rep_fresh h0))
    as (rs & p & Hrun & [_ Hl] & _).
  destruct (a_run_year evs (fullYear h0, Some (a_require (fullYear h0, None)))
              _ eq_refl) as (v & Hv & Hy).
  change (a_run (Require :: evs) (fullYear h0, None))
    with (a_run evs (fullYear h0, Some (a_require (fullYear h0, None)))) in Hl.
  rewrite Hv in Hl. simpl in Hl, Hy.
  exists rs, p, (h_loaded v), (obj_set "users"
    (VArr [VObj [("caption", VStr "User1");
                 ("image", VStr "/test-site/img/docusaurus.svg");
                 ("infoLink", VStr "https://www.facebook.com");
                 ("pinned", VBool (v_pinned v))]]) (exported_props (v_year v))).
  split_and!; [done|done|apply read_export_loaded|by rewrite Hy].
Qed.
